(** * pdf_copy_annotations: a shallow embedding of the command-line scripts

    The repository is a set of linear Python scripts over PyMuPDF (fitz),
    PIL, OpenCV and pytesseract.  Each script is embedded as it is written:
    Python strings as [string], Python ints as [Z], sets of page numbers as
    [gset nat], insertion-ordered dicts as association lists, exceptions as
    an explicit [result] type, the file system as a [gmap string _], and the
    calls into the wrapped libraries either as events of a trace or as
    parameters of a [Section]. *)

From Stdlib Require Import ZArith QArith Qcanon Qcabs Qround Lia Lqa List Ascii String Decimal DecimalString DecimalPos.
From stdpp Require Import base tactics option numbers list sorting gmap sets strings.

Local Open Scope string_scope.
Local Open Scope Z_scope.

(** ** Python string primitives used by the scripts *)

Module PyStr.

(** [str.isspace] on the ASCII range: TAB, LF, VT, FF, CR, the four
    separators 0x1c-0x1f and the blank. *)
Definition is_space (c : ascii) : bool :=
  let n := nat_of_ascii c in
  ((9 <=? n)%nat && (n <=? 13)%nat) || ((28 <=? n)%nat && (n <=? 32)%nat).

Definition is_digit (c : ascii) : bool :=
  let n := nat_of_ascii c in (48 <=? n)%nat && (n <=? 57)%nat.

Definition digit_val (c : ascii) : option Z :=
  if is_digit c then Some (Z.of_nat (nat_of_ascii c) - 48) else None.

(** [s.lstrip()] *)
Fixpoint lstrip (s : string) : string :=
  match s with
  | EmptyString => EmptyString
  | String c r => if is_space c then lstrip r else s
  end.

(** [s.rstrip()]: a character is dropped when it is a space and all that
    follows it has been dropped. *)
Fixpoint rstrip (s : string) : string :=
  match s with
  | EmptyString => EmptyString
  | String c r =>
      match rstrip r with
      | EmptyString => if is_space c then EmptyString else String c EmptyString
      | r' => String c r'
      end
  end.

(** [s.strip()] *)
Definition strip (s : string) : string := rstrip (lstrip s).

(** [c in s] for a one-character [c] *)
Fixpoint contains (c : ascii) (s : string) : bool :=
  match s with
  | EmptyString => false
  | String d r => Ascii.eqb c d || contains c r
  end.

(** [s.split(sep)] for a one-character separator: never the empty list. *)
Fixpoint split (sep : ascii) (s : string) : list string :=
  match s with
  | EmptyString => [EmptyString]
  | String c r =>
      if Ascii.eqb c sep then EmptyString :: split sep r
      else match split sep r with
           | [] => [String c EmptyString]
           | w :: ws => String c w :: ws
           end
  end.

(** [s.split(sep, 1)]: the text before the first separator and the text
    after it; [None] when there is no separator (Python then returns a
    one-element list and the tuple unpacking fails). *)
Fixpoint split_once (sep : ascii) (s : string) : option (string * string) :=
  match s with
  | EmptyString => None
  | String c r =>
      if Ascii.eqb c sep then Some (EmptyString, r)
      else match split_once sep r with
           | Some (a, b) => Some (String c a, b)
           | None => None
           end
  end.

(** [s.lower()] on the ASCII range. *)
Definition lower_char (c : ascii) : ascii :=
  let n := nat_of_ascii c in
  if (65 <=? n)%nat && (n <=? 90)%nat then ascii_of_nat (n + 32) else c.

Fixpoint lower (s : string) : string :=
  match s with
  | EmptyString => EmptyString
  | String c r => String (lower_char c) (lower r)
  end.

(** The digits of an [int()] literal: decimal digits, single underscores
    allowed between two digits only.  [prev] tells whether the previous
    character was a digit. *)
Fixpoint int_digits (s : string) (acc : Z) (prev : bool) : option Z :=
  match s with
  | EmptyString => if prev then Some acc else None
  | String c r =>
      if Ascii.eqb c "_"
      then (if prev then int_digits r acc false else None)
      else match digit_val c with
           | Some d => int_digits r (10 * acc + d) true
           | None => None
           end
  end.

(** [int(s)] in base 10: surrounding whitespace is dropped, one sign is
    allowed; [None] stands for the [ValueError] whose text starts with
    "invalid literal for int() with base 10". *)
Definition int (s : string) : option Z :=
  match strip s with
  | String "+" r => int_digits r 0 false
  | String "-" r => Z.opp <$> int_digits r 0 false
  | r => int_digits r 0 false
  end.

(** [str(n)] for a positive integer: its decimal numeral. *)
Definition str_pos (p : positive) : string :=
  NilEmpty.string_of_uint (Pos.to_uint p).

End PyStr.

Example strip_ex : PyStr.strip "  1-3 " = "1-3".
Proof. reflexivity. Qed.
Example split_ex : PyStr.split "," "1-3,,7" = ["1-3"; ""; "7"].
Proof. reflexivity. Qed.
Example int_ex : PyStr.int " +1_0 " = Some 10 /\ PyStr.int "1__0" = None /\ PyStr.int "-3" = Some (-3) /\ PyStr.int "" = None.
Proof. repeat split; reflexivity. Qed.
Example lower_ex : PyStr.lower "HighLight" = "highlight".
Proof. reflexivity. Qed.
Example str_pos_ex : PyStr.str_pos 120 = "120".
Proof. reflexivity. Qed.

(** ** Exceptions and results *)

(** The [ValueError]s of [parse_page_specification], one constructor per
    message of the source; the numbers and texts of the f-strings are kept
    as arguments. *)
Inductive value_error : Type :=
| EmptySpecification                       (* "Page specification cannot be empty" *)
| InvalidRangeFormat (spec : string)       (* "Invalid range format: '{spec}'..." *)
| RangeBelowOne (start stop : Z)           (* "Page numbers must be >= 1, got range ..." *)
| RangeStartAfterEnd (start stop : Z)      (* "Invalid range: ... (start > end)" *)
| InvalidPageNumber (spec : string)        (* "Invalid page number: '{spec}'" *)
| PageBelowOne (page : Z)                  (* "Page numbers must be >= 1, got {page}" *)
| NotEnoughValues                          (* tuple unpacking of a one-element split *)
| NoValidPages (total : nat) (max_requested : nat).  (* validate_pages_exist *)

Inductive exn : Type :=
| ValueError (e : value_error)
| FileNotFoundError (path : string)
| LibraryError (what : string).            (* anything raised inside fitz *)

Inductive result (A : Type) : Type :=
| Ok (a : A)
| Raise (e : exn).
Arguments Ok {A} a.
Arguments Raise {A} e.

Definition bind {A B} (m : result A) (k : A -> result B) : result B :=
  match m with
  | Ok a => k a
  | Raise e => Raise e
  end.

Notation "'let*' x := m 'in' k" := (bind m (fun x => k))
  (at level 10, x name, m at level 100, k at level 200).

Definition is_ok {A} (m : result A) : bool :=
  match m with Ok _ => true | Raise _ => false end.

(** ** copy_pdf_annotations.py: the page specification *)

Module PageSpec.
Import PyStr.

(** [for page in range(start - 1, end): pages.add(page)] *)
Definition add_range (start stop : Z) (pages : gset nat) : gset nat :=
  foldl (fun acc page => acc ∪ {[ page ]}) pages
        (seq (Z.to_nat (start - 1)) (Z.to_nat stop - Z.to_nat (start - 1))).

(** One turn of the loop of [parse_page_specification] (source lines
    128-162), with both [except ValueError] handlers: an "invalid literal"
    error of [int] is replaced by the function's own message, every other
    [ValueError] is raised again as it is. *)
Definition parse_component (spec0 : string) (pages : gset nat) : result (gset nat) :=
  let spec := strip spec0 in
  if contains "-" spec then
    match split_once "-" spec with
    | None => Raise (ValueError NotEnoughValues)
    | Some (start_str, end_str) =>
        match int (strip start_str) with
        | None => Raise (ValueError (InvalidRangeFormat spec))
        | Some start =>
            match int (strip end_str) with
            | None => Raise (ValueError (InvalidRangeFormat spec))
            | Some stop =>
                if (start <? 1) || (stop <? 1)
                then Raise (ValueError (RangeBelowOne start stop))
                else if start >? stop
                then Raise (ValueError (RangeStartAfterEnd start stop))
                else Ok (add_range start stop pages)
            end
        end
    end
  else
    match int (strip spec) with
    | None => Raise (ValueError (InvalidPageNumber spec))
    | Some page =>
        if page <? 1 then Raise (ValueError (PageBelowOne page))
        else Ok (pages ∪ {[ Z.to_nat (page - 1) ]})
    end.

(** The [for spec in pages_str.split(',')] loop: the first exception
    leaves the loop. *)
Fixpoint parse_components (specs : list string) (pages : gset nat) : result (gset nat) :=
  match specs with
  | [] => Ok pages
  | spec :: rest =>
      let* pages' := parse_component spec pages in
      parse_components rest pages'
  end.

(** [not s] for a string *)
Definition is_empty (s : string) : bool :=
  match s with EmptyString => true | _ => false end.

Definition parse_page_specification (pages_str : string) : result (gset nat) :=
  if is_empty pages_str || is_empty (strip pages_str)
  then Raise (ValueError EmptySpecification)
  else parse_components (split "," pages_str) ∅.

(** *** What a page specification is: numbers and ranges, in decimal *)

Inductive item : Type :=
| Single (p : positive)
| Span (a b : positive).

Definition render_item (it : item) : string :=
  match it with
  | Single p => str_pos p
  | Span a b => (str_pos a ++ String "-" (str_pos b))%string
  end.

Definition render (its : list item) : string :=
  String.concat "," (map render_item its).

Definition item_valid (it : item) : Prop :=
  match it with
  | Single _ => True
  | Span a b => (a <= b)%positive
  end.

(** The zero-based page indices an item covers. *)
Definition covers (it : item) (i : nat) : Prop :=
  match it with
  | Single p => i = (Pos.to_nat p - 1)%nat
  | Span a b => (Pos.to_nat a - 1 <= i <= Pos.to_nat b - 1)%nat
  end.

(** *** What a defective component is, in the words of the docstring *)

Inductive defect (spec : string) : Prop :=
| page_not_numeric :
    contains "-" (strip spec) = false ->
    int (strip spec) = None -> defect spec
| page_below_one (page : Z) :
    contains "-" (strip spec) = false ->
    int (strip spec) = Some page -> page < 1 -> defect spec
| range_not_numeric (a b : string) :
    split_once "-" (strip spec) = Some (a, b) ->
    int a = None \/ int b = None -> defect spec
| range_below_one (a b : string) (start stop : Z) :
    split_once "-" (strip spec) = Some (a, b) ->
    int a = Some start -> int b = Some stop ->
    start < 1 \/ stop < 1 -> defect spec
| range_start_after_end (a b : string) (start stop : Z) :
    split_once "-" (strip spec) = Some (a, b) ->
    int a = Some start -> int b = Some stop ->
    start > stop -> defect spec.

End PageSpec.

Example parse_ex1 :
  PageSpec.parse_page_specification "1-3,7" = Ok ({[ 0%nat; 1%nat; 2%nat; 6%nat ]} : gset nat).
Proof. vm_compute. reflexivity. Qed.

(** ** Facts about the string primitives *)

Module PyStrFacts.
Import PyStr.

Fixpoint all_chars (f : ascii -> bool) (s : string) : bool :=
  match s with
  | EmptyString => true
  | String c r => f c && all_chars f r
  end.

Lemma all_chars_impl (f g : ascii -> bool) s :
  (forall c, f c = true -> g c = true) ->
  all_chars f s = true -> all_chars g s = true.
Proof.
  intros Hfg. induction s as [|c r IH]; simpl; [done|].
  rewrite !andb_true_iff. intros [Hc Hr]. split; auto.
Qed.

Lemma all_chars_app f s t :
  all_chars f (s ++ t) = all_chars f s && all_chars f t.
Proof.
  induction s as [|c r IH]; simpl; [done|]. by rewrite IH, andb_assoc.
Qed.

Lemma digit_not_special c :
  is_digit c = true ->
  is_space c = false /\ Ascii.eqb c "," = false /\ Ascii.eqb c "-" = false
  /\ Ascii.eqb c "_" = false /\ Ascii.eqb c "+" = false.
Proof.
  destruct c as [[] [] [] [] [] [] [] []]; vm_compute; intros; try discriminate; auto.
Qed.

Lemma rstrip_no_space s :
  all_chars (fun c => negb (is_space c)) s = true -> rstrip s = s.
Proof.
  induction s as [|c r IH]; simpl; [done|].
  rewrite andb_true_iff, negb_true_iff. intros [Hc Hr].
  rewrite (IH Hr), Hc. by destruct r.
Qed.

Lemma strip_no_space s :
  all_chars (fun c => negb (is_space c)) s = true -> strip s = s.
Proof.
  intros H. unfold strip.
  assert (lstrip s = s) as ->; [|by apply rstrip_no_space].
  destruct s as [|c r]; simpl in *; [done|].
  apply andb_true_iff in H as [Hc _]. apply negb_true_iff in Hc. by rewrite Hc.
Qed.

Lemma strip_head_not_empty c r :
  is_space c = false -> PyStr.strip (String c r) <> EmptyString.
Proof.
  intros Hc. unfold strip. simpl. rewrite Hc. simpl.
  destruct (rstrip r); [by rewrite Hc|done].
Qed.

Lemma contains_app c s t : contains c (s ++ t) = contains c s || contains c t.
Proof.
  induction s as [|d r IH]; simpl; [done|]. by rewrite IH, orb_assoc.
Qed.

Lemma contains_all_chars c s :
  all_chars (fun d => negb (Ascii.eqb d c)) s = true -> contains c s = false.
Proof.
  induction s as [|d r IH]; simpl; [done|].
  rewrite andb_true_iff, negb_true_iff. intros [Hd Hr].
  rewrite Ascii.eqb_sym, Hd. by apply IH.
Qed.

Lemma split_no_sep sep s : contains sep s = false -> split sep s = [s].
Proof.
  induction s as [|c r IH]; simpl; [done|].
  rewrite orb_false_iff. intros [Hc Hr].
  rewrite Ascii.eqb_sym, Hc, (IH Hr). done.
Qed.

Lemma split_app_sep sep a b :
  contains sep a = false ->
  split sep (a ++ String sep b) = a :: split sep b.
Proof.
  induction a as [|c r IH]; simpl.
  - intros _. by rewrite Ascii.eqb_refl.
  - rewrite orb_false_iff. intros [Hc Hr].
    rewrite Ascii.eqb_sym, Hc, (IH Hr). done.
Qed.

Lemma split_once_app_sep sep a b :
  contains sep a = false ->
  split_once sep (a ++ String sep b) = Some (a, b).
Proof.
  induction a as [|c r IH]; simpl.
  - intros _. by rewrite Ascii.eqb_refl.
  - rewrite orb_false_iff. intros [Hc Hr].
    rewrite Ascii.eqb_sym, Hc, (IH Hr). done.
Qed.

(** *** Decimal numerals *)

Lemma string_of_uint_digits d :
  all_chars is_digit (NilEmpty.string_of_uint d) = true.
Proof. induction d; simpl; auto. Qed.

Lemma string_of_uint_nonempty d :
  d <> Nil -> NilEmpty.string_of_uint d <> EmptyString.
Proof. destruct d; simpl; congruence. Qed.

(** The value of a numeral read from the left with an accumulator, as
    [int_digits] reads it. *)
Fixpoint uint_val (d : uint) (acc : Z) : Z :=
  match d with
  | Nil => acc
  | D0 l => uint_val l (10 * acc + 0)
  | D1 l => uint_val l (10 * acc + 1)
  | D2 l => uint_val l (10 * acc + 2)
  | D3 l => uint_val l (10 * acc + 3)
  | D4 l => uint_val l (10 * acc + 4)
  | D5 l => uint_val l (10 * acc + 5)
  | D6 l => uint_val l (10 * acc + 6)
  | D7 l => uint_val l (10 * acc + 7)
  | D8 l => uint_val l (10 * acc + 8)
  | D9 l => uint_val l (10 * acc + 9)
  end.

Lemma int_digits_uint d acc :
  int_digits (NilEmpty.string_of_uint d) acc true = Some (uint_val d acc).
Proof. revert acc. induction d; intros acc; simpl; auto. Qed.

Lemma uint_val_acc d (acc : positive) :
  uint_val d (Z.pos acc) = Z.pos (Pos.of_uint_acc d acc).
Proof.
  revert acc. induction d; intros acc; simpl; [done|..];
    match goal with |- uint_val _ ?z = _ =>
      first [ replace z with (Z.pos (10 * acc)) by lia
            | replace z with (Z.pos (1 + 10 * acc)) by lia
            | replace z with (Z.pos (2 + 10 * acc)) by lia
            | replace z with (Z.pos (3 + 10 * acc)) by lia
            | replace z with (Z.pos (4 + 10 * acc)) by lia
            | replace z with (Z.pos (5 + 10 * acc)) by lia
            | replace z with (Z.pos (6 + 10 * acc)) by lia
            | replace z with (Z.pos (7 + 10 * acc)) by lia
            | replace z with (Z.pos (8 + 10 * acc)) by lia
            | replace z with (Z.pos (9 + 10 * acc)) by lia ]
    end; apply IHd.
Qed.

Lemma uint_val_of_uint d : uint_val d 0 = Z.of_N (Pos.of_uint d).
Proof.
  induction d; simpl; [done|done|..]; apply (uint_val_acc d).
Qed.

Lemma int_digits_first_digit c r acc prev :
  is_digit c = true ->
  int_digits (String c r) acc prev = int_digits (String c r) acc true.
Proof.
  intros Hc. simpl. destruct (digit_not_special c Hc) as (_ & _ & _ & Hu & _).
  by rewrite Hu.
Qed.

Lemma int_unsigned c r :
  is_digit c = true -> strip (String c r) = String c r ->
  int (String c r) = int_digits (String c r) 0 true.
Proof.
  intros Hc Hs. unfold int. rewrite Hs.
  rewrite <- (int_digits_first_digit c r 0 false Hc).
  destruct c as [[] [] [] [] [] [] [] []]; try discriminate Hc; reflexivity.
Qed.

Lemma str_pos_digits p : all_chars is_digit (str_pos p) = true.
Proof. apply string_of_uint_digits. Qed.

Lemma str_pos_cons p : exists c r, str_pos p = String c r /\ is_digit c = true.
Proof.
  pose proof (str_pos_digits p) as Hd.
  pose proof (string_of_uint_nonempty _ (DecimalPos.Unsigned.to_uint_nonnil p)) as Hne.
  fold (str_pos p) in Hne. destruct (str_pos p) as [|c r]; [done|].
  simpl in Hd. apply andb_true_iff in Hd as [Hc _]. eauto.
Qed.

Lemma str_pos_no_space p : all_chars (fun c => negb (is_space c)) (str_pos p) = true.
Proof.
  eapply all_chars_impl; [|apply str_pos_digits].
  intros c Hc. destruct (digit_not_special c Hc) as (-> & _). done.
Qed.

Lemma str_pos_no_char p (x : ascii) :
  is_digit x = false -> contains x (str_pos p) = false.
Proof.
  intros Hx. apply contains_all_chars.
  eapply all_chars_impl; [|apply str_pos_digits].
  intros c Hc. apply negb_true_iff. destruct (Ascii.eqb_spec c x); [congruence|done].
Qed.

Lemma strip_str_pos p : strip (str_pos p) = str_pos p.
Proof. apply strip_no_space, str_pos_no_space. Qed.

(** [int(str(p)) == p] *)
Lemma int_str_pos p : int (str_pos p) = Some (Z.pos p).
Proof.
  destruct (str_pos_cons p) as (c & r & Heq & Hc).
  pose proof (strip_str_pos p) as Hs. rewrite Heq in Hs.
  rewrite Heq, (int_unsigned c r Hc Hs), <- Heq.
  unfold str_pos. rewrite int_digits_uint, uint_val_of_uint.
  by rewrite DecimalPos.Unsigned.of_to.
Qed.

End PyStrFacts.

Module PageSpecFacts.
Import PyStr PyStrFacts PageSpec.

Lemma rstrip_idem s : rstrip (rstrip s) = rstrip s.
Proof.
  induction s as [|c r IH]; simpl; [done|].
  destruct (rstrip r) as [|d r'] eqn:Hr.
  - destruct (is_space c) eqn:Hc; simpl; [done|]. by rewrite Hc.
  - change (rstrip (String c (String d r'))) with
      (match rstrip (String d r') with
       | EmptyString => if is_space c then EmptyString else String c EmptyString
       | r'' => String c r''
       end).
    by rewrite IH.
Qed.

Lemma lstrip_head s :
  lstrip s = EmptyString \/ exists c r, lstrip s = String c r /\ is_space c = false.
Proof.
  induction s as [|c r IH]; simpl; [by left|].
  destruct (is_space c) eqn:Hc; [done|]. right. eauto.
Qed.

Lemma rstrip_head c r :
  is_space c = false -> exists r', rstrip (String c r) = String c r'.
Proof. intros Hc. simpl. rewrite Hc. destruct (rstrip r); eauto. Qed.

Lemma strip_idem s : strip (strip s) = strip s.
Proof.
  unfold strip. destruct (lstrip_head s) as [->|(c & r & -> & Hc)]; [done|].
  destruct (rstrip_head c r Hc) as [r' Hr']. rewrite Hr' at 1. simpl lstrip.
  rewrite Hc, <- Hr'. apply rstrip_idem.
Qed.

Lemma int_strip s : int (strip s) = int s.
Proof. unfold int. by rewrite strip_idem. Qed.

Lemma split_once_contains sep s a b :
  split_once sep s = Some (a, b) -> contains sep s = true.
Proof.
  revert a. induction s as [|c r IH]; simpl; intros a; [done|].
  rewrite (Ascii.eqb_sym sep c). destruct (Ascii.eqb c sep); [done|].
  destruct (split_once sep r) as [[a' b']|]; [|done].
  intros [= <- <-]. simpl. by apply (IH a').
Qed.

(** *** The set built by the loop *)

Lemma foldl_add_elem (l : list nat) (pages : gset nat) (i : nat) :
  i ∈ foldl (fun acc page => acc ∪ {[ page ]}) pages l <-> i ∈ pages \/ i ∈ l.
Proof.
  revert pages. induction l as [|x l IH]; intros pages; simpl.
  - rewrite elem_of_nil. tauto.
  - rewrite IH, elem_of_union, elem_of_singleton, elem_of_cons. tauto.
Qed.

Lemma add_range_elem start stop pages i :
  i ∈ add_range start stop pages <->
  i ∈ pages \/ (Z.to_nat (start - 1) <= i < Z.to_nat stop)%nat.
Proof.
  unfold add_range. rewrite foldl_add_elem, elem_of_seq. intuition lia.
Qed.

(** *** Components that are well formed *)

Lemma render_item_no_comma it : contains "," (render_item it) = false.
Proof.
  destruct it as [p|a b]; simpl.
  - apply str_pos_no_char. reflexivity.
  - rewrite contains_app. simpl. rewrite !str_pos_no_char; reflexivity.
Qed.

Lemma render_item_no_space it :
  all_chars (fun c => negb (is_space c)) (render_item it) = true.
Proof.
  destruct it as [p|a b]; simpl; [apply str_pos_no_space|].
  rewrite all_chars_app. simpl. by rewrite !str_pos_no_space.
Qed.

Lemma parse_component_render it pages :
  item_valid it ->
  exists pages', parse_component (render_item it) pages = Ok pages'
    /\ forall i, i ∈ pages' <-> i ∈ pages \/ covers it i.
Proof.
  intros Hv. unfold parse_component.
  rewrite (strip_no_space _ (render_item_no_space it)).
  destruct it as [p|a b]; simpl render_item.
  - rewrite str_pos_no_char by reflexivity.
    rewrite int_strip, int_str_pos.
    assert ((Z.pos p <? 1) = false) as -> by (apply Z.ltb_ge; lia).
    eexists; split; [done|]. intros i. simpl. rewrite elem_of_union, elem_of_singleton.
    by replace (Z.to_nat (Z.pos p - 1)) with (Pos.to_nat p - 1)%nat by lia.
  - rewrite contains_app. simpl.
    rewrite orb_true_r.
    rewrite (split_once_app_sep "-" (str_pos a) (str_pos b))
      by (apply str_pos_no_char; reflexivity).
    rewrite !int_strip, !int_str_pos. simpl in Hv.
    assert ((Z.pos a <? 1) || (Z.pos b <? 1) = false) as ->.
    { apply orb_false_iff. split; apply Z.ltb_ge; lia. }
    assert ((Z.pos a >? Z.pos b) = false) as ->.
    { rewrite Z.gtb_ltb. apply Z.ltb_ge. lia. }
    eexists; split; [done|]. intros i. rewrite add_range_elem. simpl.
    replace (Z.to_nat (Z.pos a - 1)) with (Pos.to_nat a - 1)%nat by lia.
    assert ((i < Pos.to_nat b)%nat <-> (i <= Pos.to_nat b - 1)%nat) by lia.
    tauto.
Qed.

Lemma split_render its :
  its <> [] -> split "," (render its) = map render_item its.
Proof.
  induction its as [|it its IH]; [done|]. intros _.
  destruct its as [|it' its].
  - simpl. apply split_no_sep, render_item_no_comma.
  - unfold render. change (map render_item (it :: it' :: its))
      with (render_item it :: map render_item (it' :: its)).
    change (String.concat "," (render_item it :: map render_item (it' :: its)))
      with (render_item it ++ String "," (render (it' :: its)))%string.
    rewrite split_app_sep by apply render_item_no_comma.
    by rewrite IH.
Qed.

Lemma parse_components_render its pages :
  Forall item_valid its ->
  exists pages', parse_components (map render_item its) pages = Ok pages'
    /\ forall i, i ∈ pages' <-> i ∈ pages \/ exists it, it ∈ its /\ covers it i.
Proof.
  intros Hv. revert pages. induction Hv as [|it its Hit _ IH]; intros pages; simpl.
  - eexists; split; [done|]. intros i. split; [auto|].
    intros [?|(it & Hin & _)]; [done|]. by apply elem_of_nil in Hin.
  - destruct (parse_component_render it pages Hit) as (p1 & -> & H1). simpl.
    destruct (IH p1) as (p2 & -> & H2). eexists; split; [done|].
    intros i. rewrite H2, H1. split.
    + intros [[?|?]|(it' & Hin & Hc)]; [by left|right..].
      * exists it. split; [apply elem_of_cons; by left|done].
      * exists it'. split; [apply elem_of_cons; by right|done].
    + intros [?|(it' & Hin & Hc)]; [by left; left|].
      apply elem_of_cons in Hin as [->|Hin]; [by left; right|].
      right. eauto.
Qed.

Lemma render_not_blank its :
  its <> [] -> is_empty (render its) || is_empty (strip (render its)) = false.
Proof.
  destruct its as [|it its]; [done|]. intros _.
  assert (exists c r, render (it :: its) = String c r /\ is_space c = false)
    as (c & r & -> & Hc).
  { assert (exists c r, render_item it = String c r /\ is_space c = false)
      as (c & r & Heq & Hc).
    { destruct it as [p|a b]; simpl.
      - destruct (str_pos_cons p) as (c & r & -> & Hd).
        exists c, r. split; [done|]. by destruct (digit_not_special c Hd).
      - destruct (str_pos_cons a) as (c & r & -> & Hd). simpl.
        eexists _, _. split; [done|]. by destruct (digit_not_special c Hd). }
    unfold render. simpl. rewrite Heq. destruct (map render_item its); simpl; eauto. }
  simpl. pose proof (strip_head_not_empty c r Hc). by destruct (strip (String c r)).
Qed.

(** *** Components that are defective *)

Lemma parse_component_raises_value_error spec pages e :
  parse_component spec pages = Raise e -> exists v, e = ValueError v.
Proof.
  unfold parse_component.
  repeat match goal with
         | |- context [match ?x with _ => _ end] => destruct x
         end; intros [= <-]; eauto.
Qed.

Lemma parse_component_defect spec pages :
  defect spec -> exists v, parse_component spec pages = Raise (ValueError v).
Proof.
  unfold parse_component.
  intros [Hc Hi|page Hc Hi Hlt|a b Hs Hi|a b start stop Hs Ha Hb Hlt|a b start stop Hs Ha Hb Hgt].
  - rewrite Hc, int_strip, Hi. eauto.
  - rewrite Hc, int_strip, Hi. apply Z.ltb_lt in Hlt. rewrite Hlt. eauto.
  - rewrite (split_once_contains _ _ _ _ Hs), Hs, !int_strip.
    destruct Hi as [->| ->]; [eauto|]. destruct (int a); eauto.
  - rewrite (split_once_contains _ _ _ _ Hs), Hs, !int_strip, Ha, Hb.
    assert ((start <? 1) || (stop <? 1) = true) as ->; [|eauto].
    apply orb_true_iff. rewrite !Z.ltb_lt. done.
  - rewrite (split_once_contains _ _ _ _ Hs), Hs, !int_strip, Ha, Hb.
    destruct ((start <? 1) || (stop <? 1)); [eauto|].
    assert ((start >? stop) = true) as ->; [|eauto].
    rewrite Z.gtb_ltb. apply Z.ltb_lt. lia.
Qed.

Lemma parse_components_defect specs spec pages :
  spec ∈ specs -> defect spec ->
  exists v, parse_components specs pages = Raise (ValueError v).
Proof.
  intros Hin Hd. revert pages.
  induction specs as [|s specs IH]; intros pages; [by apply elem_of_nil in Hin|].
  simpl. destruct (parse_component s pages) as [p1|e] eqn:Hs; simpl.
  - apply elem_of_cons in Hin as [->|Hin]; [|by apply IH].
    destruct (parse_component_defect s pages Hd) as [v Hv]. congruence.
  - destruct (parse_component_raises_value_error _ _ _ Hs) as [v ->]. eauto.
Qed.

End PageSpecFacts.

(** ** The part of the PyMuPDF object model the scripts use *)

Module Fitz.

Record rect : Type := { x0 : Q; y0 : Q; x1 : Q; y1 : Q }.

Definition color : Type := list Q.

(** The attributes of an [Annot] object that the scripts read. *)
Record annot : Type := {
  type : Z * string;                      (* (numeric code, name) *)
  content : string;
  arect : rect;
  page_ref : nat;
  flags : Z;
  line_ends : option (Z * Z);
  border : list (string * Q);
  colors : list (string * color);
  info : list (string * string);
  opacity : option Q;                     (* [None]: no such attribute *)
  fontsize : option Q;
  fontname : option string
}.

(** A stored annotation can be read, or reading it raises. *)
Definition page : Type := list (result annot).
Definition document : Type := list page.

(** What a path of the file system holds. *)
Inductive file : Type :=
| Pdf (doc : document)
| NotPdf.

(** [fitz.open(path)] *)
Definition open (fs : gmap string file) (path : string) : result document :=
  match fs !! path with
  | Some (Pdf doc) => Ok doc
  | Some NotPdf => Raise (LibraryError "cannot open document")
  | None => Raise (FileNotFoundError path)
  end.

(** [doc[page_num]] *)
Definition getitem (doc : document) (page_num : nat) : result page :=
  match doc !! page_num with
  | Some p => Ok p
  | None => Raise (LibraryError "page not in document")
  end.

(** [list(page.annots())]: the first annotation that cannot be read
    raises. *)
Fixpoint annots (p : page) : result (list annot) :=
  match p with
  | [] => Ok []
  | Raise e :: _ => Raise e
  | Ok a :: rest => let* r := annots rest in Ok (a :: r)
  end.

(** [doc.save(filename)]: PyMuPDF refuses the path the document was
    opened from, compared as a string ("save to original must be
    incremental"); otherwise the file at [filename] is replaced.  A file
    system keyed by paths has one path per file; [Disk.save] below has
    the file systems where several paths name one file. *)
Definition save (doc : document) (name filename : string)
    (fs : gmap string file) : result (gmap string file) :=
  if String.eqb filename name
  then Raise (LibraryError "save to original must be incremental")
  else Ok (<[filename := Pdf doc]> fs).

End Fitz.

(** ** Python dicts keyed by page number, in insertion order *)

Module Dict.
Section dict.
Context {V : Type}.

Definition t : Type := list (nat * V).

(** [d[k] = v] *)
Fixpoint set (d : t) (k : nat) (v : V) : t :=
  match d with
  | [] => [(k, v)]
  | (k', v') :: rest =>
      if Nat.eqb k k' then (k, v) :: rest else (k', v') :: set rest k v
  end.

(** [d.get(k)] *)
Fixpoint get (d : t) (k : nat) : option V :=
  match d with
  | [] => None
  | (k', v') :: rest => if Nat.eqb k k' then Some v' else get rest k
  end.

Definition keys (d : t) : list nat := map fst d.
Definition values (d : t) : list V := map snd d.
End dict.
Arguments t V : clear implicits.
End Dict.

(** ** copy_pdf_annotations.py: extraction *)

Module CopyExtract.
Import Fitz.

(** The dictionary that [_extract_annotation_data] builds. *)
Record annot_data : Type := {
  d_type : Z * string;
  d_content : string;
  d_rect : rect;
  d_page : nat;
  d_flags : Z;
  d_line_ends : option (Z * Z);
  d_border : list (string * Q);
  d_colors : list (string * color);
  d_author : string;
  d_subject : string;
  d_opacity : Q;
  d_fontsize : option Q;                 (* the keys below exist for text types only *)
  d_fontname : option string;
  d_text_color : option color
}.

(** [d.get(key, default)] on a dict given as an association list *)
Fixpoint assoc_get {V} (d : list (string * V)) (key : string) (default : V) : V :=
  match d with
  | [] => default
  | (k, v) :: rest => if String.eqb k key then v else assoc_get rest key default
  end.

Definition is_text_type (annot_type : string) : bool :=
  let t := PyStr.lower annot_type in
  String.eqb t "text" || String.eqb t "freetext".

Definition _extract_annotation_data (a : annot) (annot_type : string) : annot_data :=
  let text := is_text_type annot_type in
  {| d_type := type a;
     d_content := content a;
     d_rect := arect a;
     d_page := page_ref a;
     d_flags := flags a;
     d_line_ends := line_ends a;
     d_border := border a;
     d_colors := colors a;
     d_author := assoc_get (info a) "title" "";
     d_subject := assoc_get (info a) "subject" "";
     d_opacity := default 1%Q (opacity a);
     d_fontsize := if text then Some (default 12%Q (fontsize a)) else None;
     d_fontname := if text then Some (default "Helvetica" (fontname a)) else None;
     d_text_color :=
       if text
       then Some (match colors a with
                  | [] => [0%Q; 0%Q; 0%Q]
                  | cs => assoc_get cs "stroke" [0%Q; 0%Q; 0%Q]
                  end)
       else None |}.

(** [annot_type.lower() != 'highlight'] *)
Definition not_highlight (annot_type : string) : bool :=
  negb (String.eqb (PyStr.lower annot_type) "highlight").

(** The loop [for annot in page.annots()] (source lines 262-278 and
    342-358): the non-highlight annotations of the page, extracted, in
    page order; reading an annotation may raise. *)
Fixpoint page_annotations (p : page) : result (list annot_data) :=
  match p with
  | [] => Ok []
  | Raise e :: _ => Raise e
  | Ok a :: rest =>
      let annot_type := snd (type a) in
      let* r := page_annotations rest in
      if not_highlight annot_type
      then Ok (_extract_annotation_data a annot_type :: r)
      else Ok r
  end.

(** [sorted(page_filter)] *)
Definition sorted (page_filter : gset nat) : list nat :=
  merge_sort Nat.le (elements page_filter).

(** The pages the extraction visits (source lines 234-245 and 306-316). *)
Definition pages_to_process (total_pages : nat) (page_filter : option (gset nat)) : list nat :=
  match page_filter with
  | None => seq 0 total_pages
  | Some f => filter (fun p => (p < total_pages)%nat) (sorted f)
  end.

(** The body of [for page_num in ...]: read the page, collect, and store
    the list under [page_num] when it is not empty. *)
Definition process_page (doc : document) (page_num : nat)
    (annotations_by_page : Dict.t (list annot_data)) : result (Dict.t (list annot_data)) :=
  let* page := getitem doc page_num in
  let* _ := annots page in
  let* annotations := page_annotations page in
  match annotations with
  | [] => Ok annotations_by_page
  | _ => Ok (Dict.set annotations_by_page page_num annotations)
  end.

Fixpoint process_pages (doc : document) (pages : list nat)
    (annotations_by_page : Dict.t (list annot_data)) : result (Dict.t (list annot_data)) :=
  match pages with
  | [] => Ok annotations_by_page
  | page_num :: rest =>
      let* d := process_page doc page_num annotations_by_page in
      process_pages doc rest d
  end.

(** [try: body except Exception as e: handler] *)
Definition try_except {A} (body : result A) (handler : exn -> result A) : result A :=
  match body with
  | Ok a => Ok a
  | Raise e => handler e
  end.

Definition _get_annotations_standard (fs : gmap string file) (pdf_path : string)
    (page_filter : option (gset nat)) : result (Dict.t (list annot_data)) :=
  try_except
    (let* doc := open fs pdf_path in
     let total_pages := length doc in
     process_pages doc (pages_to_process total_pages page_filter) [])
    (fun _ => Ok []).

(** [range(0, stop, step)] *)
Definition range_step (stop step : nat) : list nat :=
  map (fun k => (k * step)%nat) (seq 0 ((stop + step - 1) / step)).

(** [l[a:b]] *)
Definition slice {A} (l : list A) (a b : nat) : list A := take (b - a) (drop a l).

(** One batch: the document is opened again, the pages of the batch are
    processed, the document is closed. *)
Definition process_batch (fs : gmap string file) (pdf_path : string)
    (batch_pages : list nat) (annotations_by_page : Dict.t (list annot_data)) :
    result (Dict.t (list annot_data)) :=
  let* doc := open fs pdf_path in
  process_pages doc batch_pages annotations_by_page.

Fixpoint process_batches (fs : gmap string file) (pdf_path : string)
    (batches : list (list nat)) (annotations_by_page : Dict.t (list annot_data)) :
    result (Dict.t (list annot_data)) :=
  match batches with
  | [] => Ok annotations_by_page
  | batch_pages :: rest =>
      let* d := process_batch fs pdf_path batch_pages annotations_by_page in
      process_batches fs pdf_path rest d
  end.

(** [max(1, min(10, len(pages_to_process) // 4))] *)
Definition batch_size_of (n : nat) : nat := Nat.max 1 (Nat.min 10 (n / 4)).

Definition batches_of (pages : list nat) : list (list nat) :=
  let n := length pages in
  let batch_size := batch_size_of n in
  map (fun batch_start => slice pages batch_start (Nat.min (batch_start + batch_size) n))
      (range_step n batch_size).

Definition _get_annotations_memory_efficient (fs : gmap string file) (pdf_path : string)
    (page_filter : option (gset nat)) : result (Dict.t (list annot_data)) :=
  try_except
    (let* doc_info := open fs pdf_path in
     let total_pages := length doc_info in
     process_batches fs pdf_path
       (batches_of (pages_to_process total_pages page_filter)) [])
    (fun _ => Ok []).

Section config.
(** The configuration constant at the top of the script. *)
Variable MEMORY_EFFICIENT : bool.

Definition get_non_highlight_annotations (fs : gmap string file) (pdf_path : string)
    (page_filter : option (gset nat)) : result (Dict.t (list annot_data)) :=
  if MEMORY_EFFICIENT
  then _get_annotations_memory_efficient fs pdf_path page_filter
  else _get_annotations_standard fs pdf_path page_filter.
End config.

End CopyExtract.

Module DictFacts.
Section facts.
Context {V : Type}.
Implicit Types (d : Dict.t V) (k : nat) (v : V).

Lemma get_set d k v k' :
  Dict.get (Dict.set d k v) k' = if Nat.eqb k' k then Some v else Dict.get d k'.
Proof.
  induction d as [|[k0 v0] d IH]; simpl.
  - done.
  - destruct (Nat.eqb k k0) eqn:Hk; simpl.
    + apply Nat.eqb_eq in Hk as ->. by destruct (Nat.eqb k' k0).
    + rewrite IH. destruct (Nat.eqb k' k0) eqn:Hk'; [|done].
      apply Nat.eqb_eq in Hk' as ->. by rewrite Nat.eqb_sym, Hk.
Qed.

Lemma elem_of_keys d k : k ∈ Dict.keys d <-> exists v, Dict.get d k = Some v.
Proof.
  unfold Dict.keys. induction d as [|[k0 v0] d IH]; simpl.
  - rewrite elem_of_nil. split; [done|]. by intros [v ?].
  - rewrite elem_of_cons, IH. destruct (Nat.eqb k k0) eqn:Hk.
    + apply Nat.eqb_eq in Hk. split; [eauto|auto].
    + apply Nat.eqb_neq in Hk. simpl. tauto.
Qed.
End facts.
End DictFacts.

Module CopyExtractFacts.
Import Fitz CopyExtract.

(** The annotations the extraction keeps from a list of readable ones. *)
Definition kept (l : list annot) : list annot_data :=
  map (fun a => _extract_annotation_data a (snd (type a)))
      (filter (fun a => not_highlight (snd (type a)) = true) l).

Lemma page_annotations_readable pg l :
  annots pg = Ok l -> page_annotations pg = Ok (kept l).
Proof.
  revert l. induction pg as [|[a|e] pg IH]; intros l; simpl.
  - by intros [= <-].
  - destruct (annots pg) as [l'|e] eqn:Hl; simpl; [|done]. intros [= <-].
    rewrite (IH l' eq_refl). simpl. unfold kept. rewrite filter_cons.
    case_decide as Hn; simpl in Hn.
    + by rewrite Hn.
    + apply not_true_is_false in Hn. by rewrite Hn.
  - done.
Qed.

Lemma annots_elem pg l a : annots pg = Ok l -> (Ok a ∈ pg <-> a ∈ l).
Proof.
  revert l. induction pg as [|[b|e] pg IH]; intros l; simpl.
  - intros [= <-]. by rewrite !elem_of_nil.
  - destruct (annots pg) as [l'|e] eqn:Hl; simpl; [|done]. intros [= <-].
    rewrite !elem_of_cons, (IH l' eq_refl). split; intros [H|H]; auto.
    + left. congruence.
    + left. congruence.
  - done.
Qed.

Lemma annots_broken pg e : Raise e ∈ pg -> exists e', annots pg = Raise e'.
Proof.
  induction pg as [|[b|e0] pg IH]; simpl.
  - by rewrite elem_of_nil.
  - rewrite elem_of_cons. intros [?|Hin]; [done|].
    destruct (IH Hin) as [e' ->]. simpl. eauto.
  - eauto.
Qed.

(** *** The pages visited *)

Lemma elem_of_sorted (f : gset nat) p : p ∈ sorted f <-> p ∈ f.
Proof. unfold sorted. by rewrite merge_sort_Permutation, elem_of_elements. Qed.

Lemma elem_of_pages_to_process total page_filter p :
  p ∈ pages_to_process total page_filter <->
  (p < total)%nat /\ match page_filter with None => True | Some f => p ∈ f end.
Proof.
  destruct page_filter as [f|]; simpl.
  - by rewrite list_elem_of_filter, elem_of_sorted.
  - rewrite elem_of_seq. intuition lia.
Qed.

(** *** The loop over pages *)

Definition page_readable (pg : page) : Prop := exists l, annots pg = Ok l.

Definition readable (doc : document) (pages : list nat) : Prop :=
  forall p, p ∈ pages -> exists pg, doc !! p = Some pg /\ page_readable pg.

(** What the loop stores for page [p] of a readable document. *)
Definition stored (doc : document) (p : nat) : list annot_data :=
  match doc !! p with
  | Some pg => match annots pg with Ok l => kept l | Raise _ => [] end
  | None => []
  end.

Lemma process_page_readable doc p pg acc :
  doc !! p = Some pg -> page_readable pg ->
  process_page doc p acc =
    Ok (match stored doc p with [] => acc | l => Dict.set acc p l end).
Proof.
  intros Hp [l Hl]. unfold process_page, getitem, stored. rewrite Hp. simpl.
  rewrite Hl. simpl. rewrite (page_annotations_readable pg l Hl). simpl.
  by destruct (kept l).
Qed.

Lemma process_pages_readable doc pages acc :
  readable doc pages ->
  exists d, process_pages doc pages acc = Ok d
    /\ forall p, Dict.get d p =
         if decide (p ∈ pages /\ stored doc p <> [])
         then Some (stored doc p) else Dict.get acc p.
Proof.
  revert acc. induction pages as [|q pages IH]; intros acc Hr; simpl.
  - by exists acc.
  - destruct (Hr q) as (pg & Hq & Hpg); [apply elem_of_cons; by left|].
    rewrite (process_page_readable doc q pg acc Hq Hpg). simpl.
    destruct (IH (match stored doc q with [] => acc | l => Dict.set acc q l end))
      as (d & -> & Hd).
    { intros p Hp. apply Hr. apply elem_of_cons. by right. }
    exists d. split; [done|]. intros p. rewrite Hd.
    destruct (decide (p ∈ pages /\ stored doc p <> [])) as [[Hin Hne]|Hn].
    + rewrite decide_True; [done|]. split; [apply elem_of_cons; by right|done].
    + destruct (decide (p ∈ q :: pages /\ stored doc p <> [])) as [[Hin Hne]|Hn'].
      * apply elem_of_cons in Hin as [->|Hin]; [|by destruct Hn].
        destruct (stored doc q) as [|x l] eqn:Hs; [done|].
        by rewrite DictFacts.get_set, Nat.eqb_refl.
      * destruct (stored doc q) as [|x l] eqn:Hs; [done|].
        rewrite DictFacts.get_set. destruct (Nat.eqb p q) eqn:Hpq; [|done].
        apply Nat.eqb_eq in Hpq as ->. destruct Hn'. split; [apply elem_of_cons; by left|].
        by rewrite Hs.
Qed.

Lemma process_page_broken doc p pg e acc :
  doc !! p = Some pg -> Raise e ∈ pg -> exists e', process_page doc p acc = Raise e'.
Proof.
  intros Hp Hin. unfold process_page, getitem. rewrite Hp. simpl.
  destruct (annots_broken pg e Hin) as [e' ->]. simpl. eauto.
Qed.

Lemma process_pages_broken doc pages p pg e acc :
  p ∈ pages -> doc !! p = Some pg -> Raise e ∈ pg ->
  exists e', process_pages doc pages acc = Raise e'.
Proof.
  intros Hin Hp He. revert acc.
  induction pages as [|q pages IH]; intros acc; [by apply elem_of_nil in Hin|].
  simpl. destruct (process_page doc q acc) as [d|e0] eqn:Hq; simpl; [|eauto].
  apply elem_of_cons in Hin as [->|Hin]; [|by apply IH].
  destruct (process_page_broken doc q pg e acc Hp He) as [e' He']. congruence.
Qed.

Lemma process_pages_app doc l1 l2 acc :
  process_pages doc (l1 ++ l2)%list acc =
    (let* d := process_pages doc l1 acc in process_pages doc l2 d).
Proof.
  revert acc. induction l1 as [|q l1 IH]; intros acc; simpl; [done|].
  destruct (process_page doc q acc); simpl; [apply IH|done].
Qed.

(** *** Batches *)

Lemma process_batches_concat fs path doc batches acc :
  open fs path = Ok doc ->
  process_batches fs path batches acc = process_pages doc (concat batches) acc.
Proof.
  intros Ho. revert acc. induction batches as [|b batches IH]; intros acc; simpl; [done|].
  unfold process_batch. rewrite Ho. simpl. rewrite process_pages_app.
  destruct (process_pages doc b acc); simpl; [apply IH|done].
Qed.

Lemma take_plus_drop {A} (l : list A) a m :
  take (a + m) l = (take a l ++ take m (drop a l))%list.
Proof.
  revert l. induction a as [|a IH]; intros l; simpl.
  - by rewrite drop_0.
  - destruct l as [|x l]; simpl; [by rewrite take_nil|]. by rewrite IH.
Qed.

Lemma concat_slices {A} (l : list A) bs k :
  concat (map (fun s => slice l s (Nat.min (s + bs) (length l)))
              (map (fun i => (i * bs)%nat) (seq 0 k)))
  = take (k * bs) l.
Proof.
  induction k as [|k IH]; [done|].
  rewrite seq_S, !map_app, concat_app, IH. simpl. rewrite app_nil_r.
  replace (bs + k * bs)%nat with (k * bs + bs)%nat by lia.
  rewrite take_plus_drop. f_equal. unfold slice.
  destruct (Nat.le_gt_cases (k * bs + bs) (length l)) as [Hle|Hgt].
  - f_equal. lia.
  - rewrite Nat.min_r by lia.
    rewrite !take_ge; [done|rewrite length_drop; lia..].
Qed.

Lemma batches_of_concat pages : concat (batches_of pages) = pages.
Proof.
  unfold batches_of, range_step. set (n := length pages). set (bs := batch_size_of n).
  assert (1 <= bs)%nat as Hbs by (unfold bs, batch_size_of; lia).
  rewrite (concat_slices pages bs). apply take_ge. fold n.
  pose proof (Nat.div_mod (n + bs - 1) bs ltac:(lia)) as Hdm.
  pose proof (Nat.mod_upper_bound (n + bs - 1) bs ltac:(lia)) as Hub.
  nia.
Qed.

Lemma memory_efficient_standard fs path page_filter :
  _get_annotations_memory_efficient fs path page_filter
  = _get_annotations_standard fs path page_filter.
Proof.
  unfold _get_annotations_memory_efficient, _get_annotations_standard.
  destruct (open fs path) as [doc|e] eqn:Ho; simpl; [|done].
  by rewrite (process_batches_concat fs path doc _ _ Ho), batches_of_concat.
Qed.

End CopyExtractFacts.

Module CopyExtractSpec.
Import Fitz CopyExtract CopyExtractFacts.

Lemma not_highlight_spec t :
  not_highlight t = true <-> PyStr.lower t <> "highlight".
Proof.
  unfold not_highlight. rewrite negb_true_iff. apply String.eqb_neq.
Qed.

Lemma elem_of_kept l x :
  x ∈ kept l <->
  exists a, a ∈ l /\ not_highlight (snd (type a)) = true
            /\ x = _extract_annotation_data a (snd (type a)).
Proof.
  unfold kept. rewrite list_elem_of_fmap. split.
  - intros (a & -> & Ha). apply list_elem_of_filter in Ha as [Hn Hin]. eauto.
  - intros (a & Hin & Hn & ->). exists a. split; [done|].
    by apply list_elem_of_filter.
Qed.

Lemma kept_nonempty l :
  kept l <> [] <-> exists a, a ∈ l /\ not_highlight (snd (type a)) = true.
Proof.
  split.
  - destruct (kept l) as [|x k] eqn:Hk; [done|]. intros _.
    assert (x ∈ kept l) as Hx by (rewrite Hk; apply elem_of_cons; by left).
    apply elem_of_kept in Hx as (a & ? & ? & _). eauto.
  - intros (a & Hin & Hn) Hk.
    assert (_extract_annotation_data a (snd (type a)) ∈ kept l) as Hx
      by (apply elem_of_kept; eauto).
    rewrite Hk in Hx. by apply elem_of_nil in Hx.
Qed.

(** The function is the same in both modes. *)
Lemma get_non_highlight_annotations_standard me fs path page_filter :
  get_non_highlight_annotations me fs path page_filter
  = _get_annotations_standard fs path page_filter.
Proof.
  unfold get_non_highlight_annotations. destruct me; [|done].
  apply memory_efficient_standard.
Qed.

(** A page of the source has an annotation that is not a highlight. *)
Definition has_non_highlight (doc : document) (p : nat) : Prop :=
  exists pg a, doc !! p = Some pg /\ Ok a ∈ pg
               /\ PyStr.lower (snd (type a)) <> "highlight".

(** The annotation [a] is among those extracted for page [p]. *)
Definition extracted (d : Dict.t (list annot_data)) (p : nat) (a : annot) : Prop :=
  exists l, Dict.get d p = Some l
            /\ _extract_annotation_data a (snd (type a)) ∈ l.

Lemma standard_readable fs path page_filter doc :
  open fs path = Ok doc ->
  readable doc (pages_to_process (length doc) page_filter) ->
  exists d, _get_annotations_standard fs path page_filter = Ok d
    /\ forall p, Dict.get d p =
         if decide (p ∈ pages_to_process (length doc) page_filter /\ stored doc p <> [])
         then Some (stored doc p) else None.
Proof.
  intros Ho Hr. unfold _get_annotations_standard. rewrite Ho. simpl.
  destruct (process_pages_readable doc _ [] Hr) as (d & -> & Hd).
  exists d. split; [done|]. intros p. by rewrite Hd.
Qed.

Lemma standard_open_fails fs path page_filter e :
  open fs path = Raise e -> _get_annotations_standard fs path page_filter = Ok [].
Proof. intros Ho. unfold _get_annotations_standard. by rewrite Ho. Qed.

Lemma standard_broken fs path page_filter doc p pg e :
  open fs path = Ok doc ->
  p ∈ pages_to_process (length doc) page_filter ->
  doc !! p = Some pg -> Raise e ∈ pg ->
  _get_annotations_standard fs path page_filter = Ok [].
Proof.
  intros Ho Hp Hpg He. unfold _get_annotations_standard. rewrite Ho. simpl.
  destruct (process_pages_broken doc _ p pg e [] Hp Hpg He) as [e' ->]. done.
Qed.

Lemma standard_total fs path page_filter :
  exists d, _get_annotations_standard fs path page_filter = Ok d.
Proof.
  unfold _get_annotations_standard, try_except.
  destruct (let* doc := open fs path in _); eauto.
Qed.

End CopyExtractSpec.

(** ** copy_pdf_annotations.py: copying to the target and [main] *)

Module CopyApply.
Import Fitz CopyExtract.

(** The calls [_copy_single_annotation] makes into the library, on the
    page and on the annotation it has just created there. *)
Inductive lib_call : Type :=
| AddAnnotation (annot_type : Z) (r : rect)
| SetContent (c : string)
| SetFlags (f : Z)
| SetColorsStroke (c : color)
| SetColorsFill (c : color)
| SetBorder (b : list (string * Q))
| SetLineEnds (a b : Z)
| SetOpacity (o : Q)
| SetInfo (title subject : string)
| SetFontsize (s : Q)
| SetFontname (n : string)
| Update.

(** ['key' in d] *)
Fixpoint assoc_mem {V} (d : list (string * V)) (key : string) : bool :=
  match d with
  | [] => false
  | (k, _) :: rest => String.eqb k key || assoc_mem rest key
  end.

Definition opt_list {A} (o : option A) : list A :=
  match o with Some a => [a] | None => [] end.

(** The calls of [_copy_single_annotation] for one extracted annotation,
    in the order of the source (lines 503-547). *)
Definition copy_calls (annot_data : annot_data) : list lib_call :=
  let cs := d_colors annot_data in
  [ AddAnnotation (fst (d_type annot_data)) (d_rect annot_data);
    SetContent (d_content annot_data);
    SetFlags (d_flags annot_data) ]
  ++ (match cs with
      | [] => []
      | _ => (if assoc_mem cs "stroke" then [SetColorsStroke (assoc_get cs "stroke" [])] else [])
             ++ (if assoc_mem cs "fill" then [SetColorsFill (assoc_get cs "fill" [])] else [])
      end)
  ++ (match d_border annot_data with [] => [] | b => [SetBorder b] end)
  ++ (match d_line_ends annot_data with Some (a, b) => [SetLineEnds a b] | None => [] end)
  ++ [ SetOpacity (d_opacity annot_data);
       SetInfo (d_author annot_data) (d_subject annot_data) ]
  ++ (match d_fontsize annot_data with
      | Some fs =>
          if is_text_type (snd (d_type annot_data))
          then SetFontsize fs
               :: (SetFontname <$> opt_list (d_fontname annot_data))
               ++ (SetColorsStroke <$> opt_list (d_text_color annot_data))
          else []
      | None => []
      end)
  ++ [ Update ].

Section library.
(** The wrapped library: what a call does to the page, or that it
    raises.  The scripts only sequence these calls. *)
Variable call : lib_call -> page -> result page.

(** The configuration constant at the top of the script. *)
Variable BATCH_SIZE : nat.
Variable MEMORY_EFFICIENT : bool.

(** [try: ...calls...; return True  except Exception: return False]:
    the page keeps what the calls before the failing one did. *)
Fixpoint run_calls (cs : list lib_call) (pg : page) : page * bool :=
  match cs with
  | [] => (pg, true)
  | c :: rest =>
      match call c pg with
      | Ok pg' => run_calls rest pg'
      | Raise _ => (pg, false)
      end
  end.

Definition _copy_single_annotation (pg : page) (annot_data : annot_data) : page * bool :=
  run_calls (copy_calls annot_data) pg.

(** The inner loop [for annot_data in annotations] on one page;
    returns the page and the number copied. *)
Fixpoint copy_to_page (pg : page) (annotations : list annot_data) (copied : nat) : page * nat :=
  match annotations with
  | [] => (pg, copied)
  | annot_data :: rest =>
      let '(pg', ok) := _copy_single_annotation pg annot_data in
      copy_to_page pg' rest (if ok then S copied else copied)
  end.

(** The standard loop over [annotations_by_page.items()]: pages the
    target does not have are skipped. *)
Fixpoint copy_standard (doc : document) (items : list (nat * list annot_data))
    (total_copied : nat) : document * nat :=
  match items with
  | [] => (doc, total_copied)
  | (page_num, annotations) :: rest =>
      match doc !! page_num with
      | None => copy_standard doc rest total_copied
      | Some pg =>
          let '(pg', n) := copy_to_page pg annotations total_copied in
          copy_standard (<[page_num := pg']> doc) rest n
      end
  end.

(** [_copy_annotations_batched]: the flattened list... *)
Definition flatten (items : list (nat * list annot_data)) : list (nat * annot_data) :=
  concat (map (fun '(page_num, annotations) => map (pair page_num) annotations) items).

(** ...and the loop over one batch. *)
Fixpoint copy_batch (doc : document) (batch : list (nat * annot_data))
    (total_copied : nat) : document * nat :=
  match batch with
  | [] => (doc, total_copied)
  | (page_num, annot_data) :: rest =>
      match doc !! page_num with
      | None => copy_batch doc rest total_copied
      | Some pg =>
          let '(pg', ok) := _copy_single_annotation pg annot_data in
          copy_batch (<[page_num := pg']> doc) rest
                     (if ok then S total_copied else total_copied)
      end
  end.

Fixpoint copy_batches (doc : document) (batches : list (list (nat * annot_data)))
    (total_copied : nat) : document * nat :=
  match batches with
  | [] => (doc, total_copied)
  | batch :: rest =>
      let '(doc', n) := copy_batch doc batch total_copied in
      copy_batches doc' rest n
  end.

Definition _copy_annotations_batched (doc : document)
    (annotations_by_page : Dict.t (list annot_data)) : document * nat :=
  let all_annotations := flatten annotations_by_page in
  let n := length all_annotations in
  copy_batches doc
    (map (fun batch_start =>
            slice all_annotations batch_start (Nat.min (batch_start + BATCH_SIZE) n))
         (range_step n BATCH_SIZE))
    0.

(** [sum(len(annotations) for annotations in annotations_by_page.values())] *)
Definition total_annotations (annotations_by_page : Dict.t (list annot_data)) : nat :=
  foldr (fun l n => (length l + n)%nat) 0%nat (Dict.values annotations_by_page).

(** [copy_annotations_to_pdf]: the target is opened, changed in memory
    and saved under [output_path]; every exception is caught and
    printed, so the function returns the file system it leaves. *)
Definition copy_annotations_to_pdf (fs : gmap string file) (target_pdf_path : string)
    (annotations_by_page : Dict.t (list annot_data)) (output_path : string) :
    gmap string file :=
  match
    (let* doc := open fs target_pdf_path in
     let total := total_annotations annotations_by_page in
     let '(doc', _) :=
       if (0 <? BATCH_SIZE)%nat && (BATCH_SIZE <? total)%nat
       then _copy_annotations_batched doc annotations_by_page
       else copy_standard doc annotations_by_page 0 in
     save doc' target_pdf_path output_path fs)
  with
  | Ok fs' => fs'
  | Raise _ => fs
  end.

(** [validate_pages_exist] *)
Definition validate_pages_exist (fs : gmap string file) (pdf_path : string)
    (page_filter : gset nat) : result (gset nat) :=
  match open fs pdf_path with
  | Raise _ => Raise (FileNotFoundError pdf_path)
  | Ok doc =>
      let total_pages := length doc in
      let valid_pages := filter (fun p => (p < total_pages)%nat) page_filter in
      if decide (valid_pages = ∅)
      then Raise (ValueError (NoValidPages total_pages
                    (foldr Nat.max 0%nat ((fun p => S p) <$> elements page_filter))))
      else Ok valid_pages
  end.

(** How a run of the script ends. *)
Inductive status : Type :=
| Completed
| Exit (code : Z)
| Uncaught (e : exn).

(** [main], after the paths and the page specification have been taken
    from the command line or from the configuration variables.
    [with open(path, 'rb')] succeeds when the path exists. *)
Definition main (fs : gmap string file) (source_pdf target_pdf output_pdf : string)
    (pages_spec : option string) : status * gmap string file :=
  match fs !! source_pdf with
  | None => (Exit 1, fs)
  | Some _ =>
  match fs !! target_pdf with
  | None => (Exit 1, fs)
  | Some _ =>
      let page_filter : result (option (gset nat)) :=
        match pages_spec with
        | None | Some EmptyString => Ok None
        | Some spec =>
            let* pf := PageSpec.parse_page_specification spec in
            let* pf := validate_pages_exist fs source_pdf pf in
            let* pf := validate_pages_exist fs target_pdf pf in
            Ok (Some pf)
        end in
      match page_filter with
      | Raise (ValueError _) => (Exit 1, fs)
      | Raise e => (Uncaught e, fs)
      | Ok page_filter =>
          match get_non_highlight_annotations MEMORY_EFFICIENT fs source_pdf page_filter with
          | Raise e => (Uncaught e, fs)
          | Ok [] => (Exit 0, fs)
          | Ok annotations =>
              (Completed, copy_annotations_to_pdf fs target_pdf annotations output_pdf)
          end
      end
  end
  end.

End library.
End CopyApply.

Module CopyApplyFacts.
Import Fitz CopyExtract CopyApply.

Section library.
Variable call : lib_call -> page -> result page.
Variable BATCH_SIZE : nat.
Variable MEMORY_EFFICIENT : bool.

Lemma save_inv doc name filename (fs fs' : gmap string file) :
  save doc name filename fs = Ok fs' ->
  filename <> name /\ fs' = <[filename := Pdf doc]> fs.
Proof.
  unfold save. destruct (String.eqb_spec filename name); [done|].
  by intros [= <-].
Qed.

(** What [copy_annotations_to_pdf] leaves: the file system as it was, or
    with one file written at the output path, which is then not the
    target's path. *)
Lemma copy_annotations_to_pdf_inv (fs : gmap string file) target annotations output :
  copy_annotations_to_pdf call BATCH_SIZE fs target annotations output = fs
  \/ (output <> target /\ exists doc',
        copy_annotations_to_pdf call BATCH_SIZE fs target annotations output
        = <[output := Pdf doc']> fs).
Proof.
  unfold copy_annotations_to_pdf.
  destruct (open fs target) as [doc|e]; simpl; [|by left].
  destruct (if _ : bool then _ else _) as [doc' n].
  destruct (save doc' target output fs) as [fs'|e] eqn:Hs; [|by left].
  apply save_inv in Hs as [Hne ->]. right. eauto.
Qed.

End library.
End CopyApplyFacts.

(** ** Sample documents, to run the embedding on *)

Module Sample.
Import Fitz.

Definition annot_of (code : Z) (name : string) (text : string) : annot :=
  {| type := (code, name); content := text;
     arect := {| x0 := 10; y0 := 10; x1 := 60; y1 := 30 |};
     page_ref := 0; flags := 4; line_ends := None; border := [("width", 1%Q)];
     colors := [("stroke", [1%Q; 0%Q; 0%Q])];
     info := [("title", "alice")]; opacity := None;
     fontsize := None; fontname := None |}.

Definition highlight : annot := annot_of 8 "Highlight" "".
Definition note : annot := annot_of 0 "Text" "check this".
Definition square : annot := annot_of 4 "Square" "".

(** Three pages: a highlight and a note; nothing; a highlight only. *)
Definition source_doc : document := [[Ok highlight; Ok note]; []; [Ok highlight]].
Definition target_doc : document := [[]; []; []].
Definition broken_doc : document := [[Ok note]; [Raise (LibraryError "bad xref")]].

Definition fs : gmap string file :=
  <["source.pdf" := Pdf source_doc]>
    (<["target.pdf" := Pdf target_doc]>
       (<["broken.pdf" := Pdf broken_doc]> ∅)).

(** A second target, with two pages only. *)
Definition short_doc : document := [[]; [Ok square]].
Definition fs2 : gmap string file := <["short.pdf" := Pdf short_doc]> fs.

(** A dictionary of extracted annotations; the target has no page 7. *)
Definition items : Dict.t (list CopyExtract.annot_data) :=
  [ (0%nat, [CopyExtract._extract_annotation_data note "Text";
             CopyExtract._extract_annotation_data square "Square"]);
    (7%nat, [CopyExtract._extract_annotation_data square "Square"]);
    (2%nat, [CopyExtract._extract_annotation_data note "Text"]) ].

(** A library in which [add_annotation] puts a blank annotation of the
    given type on the page and the setters are accepted. *)
Definition call (c : CopyApply.lib_call) (pg : page) : result page :=
  match c with
  | CopyApply.AddAnnotation code r =>
      Ok (pg ++ [Ok {| type := (code, ""); content := ""; arect := r; page_ref := 0;
                        flags := 0; line_ends := None; border := []; colors := [];
                        info := []; opacity := None; fontsize := None; fontname := None |}])%list
  | _ => Ok pg
  end.

(** Paths of the working directory: "./name" names the file "name". *)
Definition normalize (path : string) : string :=
  match path with
  | String c1 (String c2 rest) =>
      if Ascii.eqb c1 "." && Ascii.eqb c2 "/" then rest else path
  | _ => path
  end.

End Sample.

Example extract_sample :
  CopyExtract.get_non_highlight_annotations true Sample.fs "source.pdf" None
  = Ok [(0%nat, [CopyExtract._extract_annotation_data Sample.note "Text"])].
Proof. vm_compute. reflexivity. Qed.

Example extract_broken :
  CopyExtract.get_non_highlight_annotations true Sample.fs "broken.pdf" None = Ok [].
Proof. vm_compute. reflexivity. Qed.

Example main_sample :
  (CopyApply.main Sample.call 100 true Sample.fs "source.pdf" "target.pdf" "output.pdf" None).2
    !! "output.pdf"
  = Some (Fitz.Pdf
      [[Ok {| Fitz.type := (0, ""); Fitz.content := ""; Fitz.arect := Fitz.arect Sample.note;
              Fitz.page_ref := 0; Fitz.flags := 0; Fitz.line_ends := None; Fitz.border := [];
              Fitz.colors := []; Fitz.info := []; Fitz.opacity := None;
              Fitz.fontsize := None; Fitz.fontname := None |}]; []; []]).
Proof. vm_compute. reflexivity. Qed.

Lemma sample_source_readable :
  CopyExtractFacts.readable Sample.source_doc
    (CopyExtract.pages_to_process (length Sample.source_doc) None).
Proof.
  intros p Hp. apply elem_of_seq in Hp. simpl in Hp.
  destruct p as [|[|[|p]]]; [..|lia];
    (eexists; split; [reflexivity|eexists; reflexivity]).
Defined.

(** ** The copy utility on a file system where several paths name one file

    The scripts hold paths; the file system holds files.  "target.pdf",
    "./target.pdf", an absolute path and a link are different strings
    that name one file.  Here the file system is keyed by files, and
    [resolve path] is the file that [path] names.  The library compares
    paths as strings (the test of [save]) and reads and writes the files
    they name. *)

Module Disk.
Import Fitz CopyExtract CopyApply.

Section files.
Variable resolve : string -> string.
Variable call : lib_call -> page -> result page.
Variable BATCH_SIZE : nat.
Variable MEMORY_EFFICIENT : bool.

(** [fitz.open(path)]: the file that the path names is read. *)
Definition open (disk : gmap string file) (path : string) : result document :=
  match disk !! resolve path with
  | Some (Pdf doc) => Ok doc
  | Some NotPdf => Raise (LibraryError "cannot open document")
  | None => Raise (FileNotFoundError path)
  end.

(** [doc.save(filename)] for a document opened as [name]: the library
    refuses the path the document was opened from, compared as a string;
    otherwise the file that [filename] names is written. *)
Definition save (doc : document) (name filename : string)
    (disk : gmap string file) : result (gmap string file) :=
  if String.eqb filename name
  then Raise (LibraryError "save to original must be incremental")
  else Ok (<[resolve filename := Pdf doc]> disk).

(** [validate_pages_exist] *)
Definition validate_pages_exist (disk : gmap string file) (pdf_path : string)
    (page_filter : gset nat) : result (gset nat) :=
  match open disk pdf_path with
  | Raise _ => Raise (FileNotFoundError pdf_path)
  | Ok doc =>
      let total_pages := length doc in
      let valid_pages := filter (fun p => (p < total_pages)%nat) page_filter in
      if decide (valid_pages = ∅)
      then Raise (ValueError (NoValidPages total_pages
                    (foldr Nat.max 0%nat ((fun p => S p) <$> elements page_filter))))
      else Ok valid_pages
  end.

(** [copy_annotations_to_pdf] *)
Definition copy_annotations_to_pdf (disk : gmap string file) (target_pdf_path : string)
    (annotations_by_page : Dict.t (list annot_data)) (output_path : string) :
    gmap string file :=
  match
    (let* doc := open disk target_pdf_path in
     let total := total_annotations annotations_by_page in
     let '(doc', _) :=
       if (0 <? BATCH_SIZE)%nat && (BATCH_SIZE <? total)%nat
       then _copy_annotations_batched call BATCH_SIZE doc annotations_by_page
       else copy_standard call doc annotations_by_page 0 in
     save doc' target_pdf_path output_path disk)
  with
  | Ok disk' => disk'
  | Raise _ => disk
  end.

(** [main].  [get_non_highlight_annotations] only opens its path and
    catches every exception, so it is run on the file the source path
    names. *)
Definition main (disk : gmap string file) (source_pdf target_pdf output_pdf : string)
    (pages_spec : option string) : status * gmap string file :=
  match disk !! resolve source_pdf with
  | None => (Exit 1, disk)
  | Some _ =>
  match disk !! resolve target_pdf with
  | None => (Exit 1, disk)
  | Some _ =>
      let page_filter : result (option (gset nat)) :=
        match pages_spec with
        | None | Some EmptyString => Ok None
        | Some spec =>
            let* pf := PageSpec.parse_page_specification spec in
            let* pf := validate_pages_exist disk source_pdf pf in
            let* pf := validate_pages_exist disk target_pdf pf in
            Ok (Some pf)
        end in
      match page_filter with
      | Raise (ValueError _) => (Exit 1, disk)
      | Raise e => (Uncaught e, disk)
      | Ok page_filter =>
          match get_non_highlight_annotations MEMORY_EFFICIENT disk (resolve source_pdf)
                  page_filter with
          | Raise e => (Uncaught e, disk)
          | Ok [] => (Exit 0, disk)
          | Ok annotations =>
              (Completed, copy_annotations_to_pdf disk target_pdf annotations output_pdf)
          end
      end
  end
  end.

End files.
End Disk.

Module DiskFacts.
Import Fitz CopyExtract CopyApply.

(** When every file has one path, the run is the run of [CopyApply]. *)
Lemma main_one_path_per_file call BATCH_SIZE MEMORY_EFFICIENT
    (fs : gmap string file) source target output pages_spec :
  Disk.main (fun path => path) call BATCH_SIZE MEMORY_EFFICIENT fs
    source target output pages_spec
  = CopyApply.main call BATCH_SIZE MEMORY_EFFICIENT fs source target output pages_spec.
Proof. reflexivity. Qed.

Section files.
Variable resolve : string -> string.
Variable call : lib_call -> page -> result page.
Variable BATCH_SIZE : nat.
Variable MEMORY_EFFICIENT : bool.

Lemma disk_save_inv doc name filename (disk disk' : gmap string file) :
  Disk.save resolve doc name filename disk = Ok disk' ->
  filename <> name /\ disk' = <[resolve filename := Pdf doc]> disk.
Proof.
  unfold Disk.save. destruct (String.eqb_spec filename name); [done|].
  by intros [= <-].
Qed.

(** What [copy_annotations_to_pdf] leaves: the files as they were, or
    one file written, the one the output path names; the output path is
    then not the target path as a string. *)
Lemma disk_copy_annotations_to_pdf_inv (disk : gmap string file) target annotations output :
  Disk.copy_annotations_to_pdf resolve call BATCH_SIZE disk target annotations output = disk
  \/ (output <> target /\ exists doc',
        Disk.copy_annotations_to_pdf resolve call BATCH_SIZE disk target annotations output
        = <[resolve output := Pdf doc']> disk).
Proof.
  unfold Disk.copy_annotations_to_pdf.
  destruct (Disk.open resolve disk target) as [doc|e]; simpl; [|by left].
  destruct (if _ : bool then _ else _) as [doc' n].
  destruct (Disk.save resolve doc' target output disk) as [disk'|e] eqn:Hs; [|by left].
  apply disk_save_inv in Hs as [Hne ->]. right. eauto.
Qed.

Lemma disk_main_inv (disk : gmap string file) source target output pages_spec :
  (Disk.main resolve call BATCH_SIZE MEMORY_EFFICIENT disk
     source target output pages_spec).2 = disk
  \/ exists annotations,
      (Disk.main resolve call BATCH_SIZE MEMORY_EFFICIENT disk
         source target output pages_spec).2
      = Disk.copy_annotations_to_pdf resolve call BATCH_SIZE disk target annotations output.
Proof.
  unfold Disk.main.
  destruct (disk !! resolve source); [|by left].
  destruct (disk !! resolve target); [|by left].
  destruct (match pages_spec with Some _ => _ | None => _ end) as [pf|[]]; try by left.
  destruct (get_non_highlight_annotations _ _ _ _) as [[|x d]|e]; try by left.
  right. eauto.
Qed.

(** A run writes no file but the one the output path names. *)
Lemma disk_main_frame (disk : gmap string file) source target output pages_spec (f : string) :
  f <> resolve output ->
  (Disk.main resolve call BATCH_SIZE MEMORY_EFFICIENT disk
     source target output pages_spec).2 !! f = disk !! f.
Proof.
  intros Hf.
  destruct (disk_main_inv disk source target output pages_spec) as [->|[annotations ->]]; [done|].
  destruct (disk_copy_annotations_to_pdf_inv disk target annotations output)
    as [->|(_ & doc' & ->)]; [done|].
  by rewrite lookup_insert_ne.
Qed.

End files.
End DiskFacts.

(** ** detect_flattened_annotations.py *)

Module Flattened.

(** The OpenCV constants the script passes. *)
Inductive color_code : Type := COLOR_RGB2GRAY | COLOR_RGB2BGR | COLOR_BGR2GRAY.
Inductive thresh_type : Type := THRESH_BINARY | THRESH_BINARY_INV | THRESH_TRUNC | THRESH_TOZERO.
Inductive retrieval_mode : Type := RETR_EXTERNAL | RETR_LIST | RETR_CCOMP | RETR_TREE.
Inductive approx_mode : Type := CHAIN_APPROX_NONE | CHAIN_APPROX_SIMPLE.

(** An entry of the list [analyze_contours] returns.  Floats are
    modelled by exact rationals. *)
Record annotation : Type := {
  a_type : string;
  a_bbox : Z * Z * Z * Z;
  a_area : Qc;
  a_aspect_ratio : Qc
}.

(** The [if]/[elif] chain of [analyze_contours] (source lines 79-86).
    The source compares the double [w / h] with the doubles nearest to 0.2,
    0.8 and 1.2; for integer widths and heights below 2^50 these
    comparisons have the outcome of the exact ones, which are modelled. *)
Definition classify (aspect_ratio : Qc) : string :=
  if bool_decide (Qc_of_Z 5 < aspect_ratio)%Qc || bool_decide (aspect_ratio < Q2Qc (2 # 10))%Qc
  then "line/arrow"
  else if bool_decide (Q2Qc (8 # 10) ≤ aspect_ratio)%Qc
          && bool_decide (aspect_ratio ≤ Q2Qc (12 # 10))%Qc
  then "square/circle"
  else if bool_decide (Qc_of_Z 2 < aspect_ratio)%Qc
  then "text/rectangle"
  else "rectangle/shape".

Inductive flat_exn : Type :=
| ZeroDivisionError
| PageNotInDocument (page_num : nat)
| CannotOpen (path : string).

Section library.
(** The wrapped libraries: PyMuPDF pages and their rendering, PIL images,
    OpenCV arrays and contours. *)
Variables Page Image Gray Contour : Type.
Variable render : Page -> Z -> Image.                 (* get_pixmap at a dpi, as a PIL image *)
Variable size : Image -> nat * nat.                   (* (width, height) *)
Variable resize : Image -> nat * nat -> Image.
Variable difference : Image -> Image -> Image.        (* ImageChops.difference *)
Variable cvtColor : Image -> color_code -> Gray.
Variable threshold : Gray -> Z -> Z -> thresh_type -> Gray.
Variable findContours : Gray -> retrieval_mode -> approx_mode -> list Contour.
Variable contourArea : Contour -> Qc.
Variable boundingRect : Contour -> Z * Z * Z * Z.     (* (x, y, w, h) *)

(** [pdf_page_to_image(pdf_path, page_num, dpi=150)] *)
Definition pdf_page_to_image (fs : gmap string (list Page)) (pdf_path : string)
    (page_num : nat) (dpi : Z) : flat_exn + Image :=
  match fs !! pdf_path with
  | None => inl (CannotOpen pdf_path)
  | Some doc =>
      match doc !! page_num with
      | None => inl (PageNotInDocument page_num)
      | Some page => inr (render page dpi)
      end
  end.

Definition find_differences (original_img annotated_img : Image) :
    Image * list Contour * Gray :=
  let '(original_img, annotated_img) :=
    if decide (size original_img <> size annotated_img)
    then
      let min_width := Nat.min (size original_img).1 (size annotated_img).1 in
      let min_height := Nat.min (size original_img).2 (size annotated_img).2 in
      (resize original_img (min_width, min_height),
       resize annotated_img (min_width, min_height))
    else (original_img, annotated_img) in
  let diff := difference original_img annotated_img in
  let gray_diff := cvtColor diff COLOR_RGB2GRAY in
  let thresh := threshold gray_diff 30 255 THRESH_BINARY in
  let contours := findContours thresh RETR_EXTERNAL CHAIN_APPROX_SIMPLE in
  (diff, contours, thresh).

(** [analyze_contours(contours, min_area=100)]; [w / h] raises when the
    height is 0. *)
Fixpoint analyze_contours (contours : list Contour) (min_area : Qc) :
    flat_exn + list annotation :=
  match contours with
  | [] => inr []
  | contour :: rest =>
      let area := contourArea contour in
      if bool_decide (area < min_area)%Qc then analyze_contours rest min_area
      else
        let '(x, y, w, h) := boundingRect contour in
        if (h =? 0)%Z then inl ZeroDivisionError
        else
          let aspect_ratio := (Qc_of_Z w / Qc_of_Z h)%Qc in
          match analyze_contours rest min_area with
          | inl e => inl e
          | inr annotations =>
              inr ({| a_type := classify aspect_ratio; a_bbox := (x, y, w, h);
                      a_area := area; a_aspect_ratio := aspect_ratio |} :: annotations)
          end
  end.

(** What one turn of the page loop has computed and written. *)
Record page_report : Type := {
  r_page : nat;
  r_original : Image;
  r_annotated : Image;
  r_diff : Image;
  r_contours : list Contour;
  r_thresh : Gray;
  r_annotations : list annotation;
  r_saved : bool                     (* the two analysis images were written *)
}.

(** The body of [for page_num in range(min_pages)]. *)
Definition analyse_page (fs : gmap string (list Page)) (original_pdf annotated_pdf : string)
    (page_num : nat) : flat_exn + page_report :=
  match pdf_page_to_image fs original_pdf page_num 150 with
  | inl e => inl e
  | inr original_img =>
      match pdf_page_to_image fs annotated_pdf page_num 150 with
      | inl e => inl e
      | inr annotated_img =>
          let '(diff_img, contours, thresh) := find_differences original_img annotated_img in
          match analyze_contours contours (Qc_of_Z 100) with
          | inl e => inl e
          | inr annotations =>
              inr {| r_page := page_num; r_original := original_img;
                     r_annotated := annotated_img; r_diff := diff_img;
                     r_contours := contours; r_thresh := thresh;
                     r_annotations := annotations;
                     r_saved := match annotations with [] => false | _ => true end |}
          end
      end
  end.

(** The loop; an exception ends it, what was done before stays done. *)
Fixpoint analyse_pages (fs : gmap string (list Page)) (original_pdf annotated_pdf : string)
    (pages : list nat) : list page_report * option flat_exn :=
  match pages with
  | [] => ([], None)
  | page_num :: rest =>
      match analyse_page fs original_pdf annotated_pdf page_num with
      | inl e => ([], Some e)
      | inr report =>
          let '(reports, e) := analyse_pages fs original_pdf annotated_pdf rest in
          (report :: reports, e)
      end
  end.

(** [detect_flattened_annotations]: the reports of the pages analysed and
    the value returned. *)
Definition detect_flattened_annotations (fs : gmap string (list Page))
    (original_pdf annotated_pdf : string) : list page_report * bool :=
  match fs !! original_pdf, fs !! annotated_pdf with
  | Some orig_doc, Some annot_doc =>
      let min_pages := Nat.min (length orig_doc) (length annot_doc) in
      let '(reports, e) := analyse_pages fs original_pdf annotated_pdf (seq 0 min_pages) in
      match e with
      | Some _ => (reports, false)
      | None =>
          let total_annotations :=
            foldr (fun r n => (length (r_annotations r) + n)%nat) 0%nat reports in
          (reports, bool_decide (0 < total_annotations)%nat)
      end
  | _, _ => ([], false)
  end.

End library.
End Flattened.

Module FlattenedFacts.
Import Flattened.

(** Order goals on [Qc] are sent to [lra] on [Q]. *)
Ltac qc_order :=
  unfold Qclt, Qcle in *; cbn [this Q2Qc Qc_of_Z] in *;
  repeat match goal with H : context [Qred _] |- _ => rewrite Qred_correct in H end;
  rewrite ?Qred_correct; unfold inject_Z in *; lra.

Lemma classify_spec (r : Qc) :
  ((Qc_of_Z 5 < r \/ r < Q2Qc (2 # 10))%Qc -> classify r = "line/arrow")
  /\ ((Q2Qc (8 # 10) ≤ r ≤ Q2Qc (12 # 10))%Qc -> classify r = "square/circle")
  /\ ((Qc_of_Z 2 < r ≤ Qc_of_Z 5)%Qc -> classify r = "text/rectangle")
  /\ ((Q2Qc (2 # 10) ≤ r < Q2Qc (8 # 10) \/ Q2Qc (12 # 10) < r ≤ Qc_of_Z 2)%Qc ->
      classify r = "rectangle/shape").
Proof.
  unfold classify.
  repeat case_bool_decide; simpl; repeat split; intros; try reflexivity; exfalso;
    destruct_or?; destruct_and?; qc_order.
Qed.

Lemma classify_label (r : Qc) :
  classify r ∈ ["line/arrow"; "square/circle"; "text/rectangle"; "rectangle/shape"].
Proof.
  unfold classify. repeat case_bool_decide; simpl; apply list_elem_of_In; simpl; auto.
Qed.

Section library.
Variables Page Image Gray Contour : Type.
Variable render : Page -> Z -> Image.
Variable size : Image -> nat * nat.
Variable resize : Image -> nat * nat -> Image.
Variable difference : Image -> Image -> Image.
Variable cvtColor : Image -> color_code -> Gray.
Variable threshold : Gray -> Z -> Z -> thresh_type -> Gray.
Variable findContours : Gray -> retrieval_mode -> approx_mode -> list Contour.
Variable contourArea : Contour -> Qc.
Variable boundingRect : Contour -> Z * Z * Z * Z.

(** The contours [analyze_contours] keeps. *)
Definition kept_contours (contours : list Contour) (min_area : Qc) : list Contour :=
  filter (fun c => ¬ (contourArea c < min_area)%Qc) contours.

(** The entry made for a kept contour. *)
Definition entry_of (c : Contour) : annotation :=
  let b := boundingRect c in
  {| a_type := classify (Qc_of_Z b.1.2 / Qc_of_Z b.2)%Qc; a_bbox := b;
     a_area := contourArea c; a_aspect_ratio := (Qc_of_Z b.1.2 / Qc_of_Z b.2)%Qc |}.

Lemma analyze_contours_ok contours min_area :
  (forall c, c ∈ contours -> (boundingRect c).2 <> 0%Z) ->
  analyze_contours Contour contourArea boundingRect contours min_area
  = inr (entry_of <$> kept_contours contours min_area).
Proof.
  unfold kept_contours.
  induction contours as [|c contours IH]; intros Hh; simpl; [done|].
  rewrite filter_cons. case_bool_decide as Ha.
  - rewrite decide_False by tauto. apply IH. intros c' Hc'. apply Hh, elem_of_cons. by right.
  - rewrite decide_True by done.
    pose proof (Hh c ltac:(apply elem_of_cons; by left)) as Hc.
    rewrite fmap_cons. unfold entry_of at 1.
    destruct (boundingRect c) as [[[x y] w] h]. simpl in Hc |- *.
    apply Z.eqb_neq in Hc. rewrite Hc.
    rewrite IH; [done|]. intros c' Hc'. apply Hh, elem_of_cons. by right.
Qed.

(** What [find_differences] computes from the two renders. *)
Definition pipeline (r : page_report Image Gray Contour) : Prop :=
  let o := r_original _ _ _ r in
  let a := r_annotated _ _ _ r in
  let dims := (Nat.min (size o).1 (size a).1, Nat.min (size o).2 (size a).2) in
  r_diff _ _ _ r = (if decide (size o <> size a)
                    then difference (resize o dims) (resize a dims)
                    else difference o a)
  /\ r_thresh _ _ _ r = threshold (cvtColor (r_diff _ _ _ r) COLOR_RGB2GRAY) 30 255 THRESH_BINARY
  /\ r_contours _ _ _ r = findContours (r_thresh _ _ _ r) RETR_EXTERNAL CHAIN_APPROX_SIMPLE.

Definition renders_of (orig_doc annot_doc : list Page)
    (r : page_report Image Gray Contour) : Prop :=
  exists p1 p2,
    orig_doc !! r_page _ _ _ r = Some p1 /\ annot_doc !! r_page _ _ _ r = Some p2
    /\ r_original _ _ _ r = render p1 150 /\ r_annotated _ _ _ r = render p2 150.

Hypothesis boundingRect_height :
  forall gray c,
    c ∈ findContours gray RETR_EXTERNAL CHAIN_APPROX_SIMPLE -> (boundingRect c).2 <> 0%Z.

Lemma analyse_page_ok (fs : gmap string (list Page)) original annotated
    orig_doc annot_doc page_num :
  fs !! original = Some orig_doc -> fs !! annotated = Some annot_doc ->
  (page_num < length orig_doc)%nat -> (page_num < length annot_doc)%nat ->
  exists r,
    analyse_page Page Image Gray Contour render size resize difference cvtColor threshold
      findContours contourArea boundingRect fs original annotated page_num = inr r
    /\ r_page _ _ _ r = page_num /\ renders_of orig_doc annot_doc r /\ pipeline r.
Proof.
  intros Ho Ha H1 H2. unfold analyse_page, pdf_page_to_image. rewrite Ho, Ha.
  destruct (lookup_lt_is_Some_2 orig_doc page_num H1) as [p1 Hp1].
  destruct (lookup_lt_is_Some_2 annot_doc page_num H2) as [p2 Hp2].
  rewrite Hp1, Hp2. unfold find_differences.
  destruct (decide (size (render p1 150) <> size (render p2 150))) as [Hne|Heq].
  - rewrite analyze_contours_ok by apply boundingRect_height.
    eexists. split; [done|]. split; [done|]. split.
    + exists p1, p2. done.
    + unfold pipeline. simpl. by rewrite decide_True.
  - rewrite analyze_contours_ok by apply boundingRect_height.
    eexists. split; [done|]. split; [done|]. split.
    + exists p1, p2. done.
    + unfold pipeline. simpl. by rewrite decide_False.
Qed.

Lemma analyse_pages_ok (fs : gmap string (list Page)) original annotated
    orig_doc annot_doc pages :
  fs !! original = Some orig_doc -> fs !! annotated = Some annot_doc ->
  (forall p, p ∈ pages -> (p < length orig_doc)%nat /\ (p < length annot_doc)%nat) ->
  exists reports,
    analyse_pages Page Image Gray Contour render size resize difference cvtColor threshold
      findContours contourArea boundingRect fs original annotated pages = (reports, None)
    /\ map (r_page _ _ _) reports = pages
    /\ Forall (fun r => renders_of orig_doc annot_doc r /\ pipeline r) reports.
Proof.
  intros Ho Ha. induction pages as [|p pages IH]; intros Hp; simpl.
  - exists []. done.
  - destruct (Hp p ltac:(apply elem_of_cons; by left)) as [H1 H2].
    destruct (analyse_page_ok fs original annotated orig_doc annot_doc p Ho Ha H1 H2)
      as (r & -> & Hr & Hrest).
    destruct IH as (reports & -> & Hm & Hf).
    { intros q Hq. apply Hp, elem_of_cons. by right. }
    exists (r :: reports). split; [done|]. split; [simpl; congruence|].
    by constructor.
Qed.

End library.
End FlattenedFacts.

(** A toy instance of the libraries: an image is its size, the one
    contour found is the bounding box of the whole image. *)
Module ToyVision.
Definition render (p : nat * nat) (dpi : Z) : nat * nat := p.
Definition size (i : nat * nat) : nat * nat := i.
Definition resize (i : nat * nat) (d : nat * nat) : nat * nat := d.
Definition difference (a b : nat * nat) : nat * nat := a.
Definition cvtColor (i : nat * nat) (c : Flattened.color_code) : nat * nat := i.
Definition threshold (g : nat * nat) (t m : Z) (k : Flattened.thresh_type) : nat * nat := g.
Definition findContours (g : nat * nat) (r : Flattened.retrieval_mode)
    (a : Flattened.approx_mode) : list (Z * Z * Z * Z) :=
  [(0, 0, Z.of_nat g.1, Z.of_nat g.2 + 1)].
Definition contourArea (c : Z * Z * Z * Z) : Qc := Qc_of_Z (c.1.2 * c.2).
Definition boundingRect (c : Z * Z * Z * Z) : Z * Z * Z * Z := c.
Definition fs : gmap string (list (nat * nat)) :=
  <["clean.pdf" := [(600, 800); (600, 800)]%nat]>
    (<["annotated.pdf" := [(600, 800); (590, 800); (600, 800)]%nat]> ∅).
End ToyVision.

Example classify_examples :
  Flattened.classify (Qc_of_Z 600 / Qc_of_Z 80)%Qc = "line/arrow"
  /\ Flattened.classify (Qc_of_Z 100 / Qc_of_Z 100)%Qc = "square/circle"
  /\ Flattened.classify (Qc_of_Z 300 / Qc_of_Z 100)%Qc = "text/rectangle"
  /\ Flattened.classify (Qc_of_Z 150 / Qc_of_Z 100)%Qc = "rectangle/shape".
Proof. repeat split; vm_compute; reflexivity. Qed.

(** ** debug_annotations.py *)

Module Debug.
Import Fitz.
Local Open Scope list_scope.

(** The lines the script prints, one constructor per [print]. *)
Inductive line : Type :=
| NotFound (path : string)
| Header (path : string) (total_pages : nat)
| PageHeader (number : nat)
| NoAnnotationsOnPage
| FoundAnnotation (type_str : string) (code : Z) (text : string) (r : rect)
| IsHighlightExcluded          (* "--> This is a HIGHLIGHT (would be EXCLUDED by main script)" *)
| NotHighlightIncluded         (* "--> This is NOT a highlight (would be INCLUDED by main script)" *)
| PageTotal (number count : nat)
| Summary (total : nat) (non_highlight : Z)
| TypeCount (name : string) (count : nat) (excluded : bool)
| NoAnnotationsDetected
| ErrorReading (e : exn).

Record state : Type := {
  out : list line;
  total_annotations : nat;
  annotation_types : list (string * nat)
}.

(** [annotation_types[k] += 1], or [= 1] for a new key *)
Fixpoint count_type (types : list (string * nat)) (k : string) : list (string * nat) :=
  match types with
  | [] => [(k, 1%nat)]
  | (k', n) :: rest =>
      if String.eqb k' k then (k', S n) :: rest else (k', n) :: count_type rest k
  end.

(** [annotation_types.get(k, 0)] *)
Fixpoint type_count (types : list (string * nat)) (k : string) : nat :=
  match types with
  | [] => 0
  | (k', n) :: rest => if String.eqb k' k then n else type_count rest k
  end.

Definition is_highlight (annot_type_str : string) : bool :=
  String.eqb (PyStr.lower annot_type_str) "highlight".

(** The body of [for annot in annot_list] (source lines 41-66). *)
Definition report_annot (st : state) (a : annot) : state :=
  let annot_type_num := (type a).1 in
  let annot_type_str := (type a).2 in
  {| out := out st
            ++ [ FoundAnnotation annot_type_str annot_type_num (content a) (arect a);
                 if is_highlight annot_type_str
                 then IsHighlightExcluded else NotHighlightIncluded ];
     total_annotations := S (total_annotations st);
     annotation_types := count_type (annotation_types st) annot_type_str |}.

Definition print (st : state) (l : line) : state :=
  {| out := out st ++ [l];
     total_annotations := total_annotations st;
     annotation_types := annotation_types st |}.

(** The body of [for page_num in range(len(doc))]; an exception leaves
    with what has been printed so far. *)
Definition debug_page (page_num : nat) (pg : page) (st : state) : state * option exn :=
  let st := print st (PageHeader (page_num + 1)) in
  match annots pg with
  | Raise e => (st, Some e)
  | Ok [] => (print st NoAnnotationsOnPage, None)
  | Ok annot_list =>
      let st := foldl report_annot st annot_list in
      (print st (PageTotal (page_num + 1) (length annot_list)), None)
  end.

Fixpoint debug_pages (pages : list page) (page_num : nat) (st : state) : state * option exn :=
  match pages with
  | [] => (st, None)
  | pg :: rest =>
      match debug_page page_num pg st with
      | (st', Some e) => (st', Some e)
      | (st', None) => debug_pages rest (S page_num) st'
      end
  end.

(** [debug_pdf_annotations(pdf_path)]: what is printed and what is
    returned. *)
Definition debug_pdf_annotations (fs : gmap string file) (pdf_path : string) :
    list line * bool :=
  match fs !! pdf_path with
  | None => ([NotFound pdf_path], false)
  | Some _ =>
      match open fs pdf_path with
      | Raise e => ([ErrorReading e], false)
      | Ok doc =>
          let st0 := {| out := [Header pdf_path (length doc)];
                        total_annotations := 0; annotation_types := [] |} in
          match debug_pages doc 0 st0 with
          | (st, Some e) => (out st ++ [ErrorReading e], false)
          | (st, None) =>
              let total := total_annotations st in
              let types := annotation_types st in
              (out st
               ++ [Summary total (Z.of_nat total - Z.of_nat (type_count types "Highlight"))]
               ++ (match types with
                   | [] => [NoAnnotationsDetected]
                   | _ => (fun '(t, n) => TypeCount t n (is_highlight t)) <$> types
                   end),
               bool_decide (0 < total)%nat)
          end
      end
  end.

(** *** Reading the output *)

(** The lines that report annotations, and the page headers. *)
Definition is_report (l : line) : bool :=
  match l with
  | FoundAnnotation _ _ _ _ | IsHighlightExcluded | NotHighlightIncluded => true
  | _ => false
  end.

Definition is_page_header (l : line) : bool :=
  match l with PageHeader _ => true | _ => false end.

Definition reports (o : list line) : list line := List.filter is_report o.
Definition page_headers (o : list line) : list line := List.filter is_page_header o.

(** What the script is to say about one annotation. *)
Definition expected_report (a : annot) : list line :=
  [ FoundAnnotation (type a).2 (type a).1 (content a) (arect a);
    if decide (PyStr.lower (type a).2 = "highlight")
    then IsHighlightExcluded else NotHighlightIncluded ].

(** The annotations of a page that can be read. *)
Definition page_annots (pg : page) : list annot :=
  match annots pg with Ok l => l | Raise _ => [] end.

End Debug.

Example debug_sample :
  Debug.reports (Debug.debug_pdf_annotations Sample.fs "source.pdf").1
  = [ Debug.FoundAnnotation "Highlight" 8 "" (Fitz.arect Sample.highlight);
      Debug.IsHighlightExcluded;
      Debug.FoundAnnotation "Text" 0 "check this" (Fitz.arect Sample.note);
      Debug.NotHighlightIncluded;
      Debug.FoundAnnotation "Highlight" 8 "" (Fitz.arect Sample.highlight);
      Debug.IsHighlightExcluded ]
  /\ (Debug.debug_pdf_annotations Sample.fs "source.pdf").2 = true
  /\ (Debug.debug_pdf_annotations Sample.fs "target.pdf").2 = false.
Proof. repeat split; vm_compute; reflexivity. Qed.

Module DebugFacts.
Import Fitz Debug.
Local Open Scope list_scope.

Lemma reports_app o1 o2 : reports (o1 ++ o2) = (reports o1 ++ reports o2)%list.
Proof. apply List.filter_app. Qed.

Lemma page_headers_app o1 o2 :
  page_headers (o1 ++ o2) = (page_headers o1 ++ page_headers o2)%list.
Proof. apply List.filter_app. Qed.

Lemma is_highlight_decide t :
  (if is_highlight t then IsHighlightExcluded else NotHighlightIncluded)
  = (if decide (PyStr.lower t = "highlight") then IsHighlightExcluded else NotHighlightIncluded).
Proof.
  unfold is_highlight. destruct (String.eqb_spec (PyStr.lower t) "highlight");
    [by rewrite decide_True|by rewrite decide_False].
Qed.

Lemma reports_expected a : reports (expected_report a) = expected_report a.
Proof. unfold expected_report. simpl. by case_decide. Qed.

Lemma page_headers_expected a : page_headers (expected_report a) = [].
Proof. unfold expected_report. simpl. by case_decide. Qed.

Lemma report_annot_out st a : out (report_annot st a) = (out st ++ expected_report a)%list.
Proof. unfold report_annot, expected_report. simpl. by rewrite is_highlight_decide. Qed.

Lemma foldl_report_annot l st :
  reports (out (foldl report_annot st l))
    = (reports (out st) ++ flat_map expected_report l)%list
  /\ page_headers (out (foldl report_annot st l)) = page_headers (out st)
  /\ total_annotations (foldl report_annot st l) = (total_annotations st + length l)%nat.
Proof.
  revert st. induction l as [|a l IH]; intros st.
  - simpl. by rewrite app_nil_r, Nat.add_0_r.
  - change (foldl report_annot st (a :: l)) with (foldl report_annot (report_annot st a) l).
    destruct (IH (report_annot st a)) as (-> & -> & ->).
    rewrite report_annot_out, reports_app, page_headers_app, reports_expected,
      page_headers_expected, app_nil_r.
    change (flat_map expected_report (a :: l))
      with (expected_report a ++ flat_map expected_report l)%list.
    rewrite <- app_assoc. simpl. repeat split; lia.
Qed.

Lemma debug_page_readable page_num pg st l :
  annots pg = Ok l ->
  exists st', debug_page page_num pg st = (st', None)
    /\ reports (out st') = (reports (out st) ++ flat_map expected_report l)%list
    /\ page_headers (out st') = (page_headers (out st) ++ [PageHeader (page_num + 1)])%list
    /\ total_annotations st' = (total_annotations st + length l)%nat.
Proof.
  intros Hl. unfold debug_page. rewrite Hl. destruct l as [|a l].
  - eexists. split; [done|]. simpl.
    rewrite !reports_app, !page_headers_app. simpl. rewrite !app_nil_r.
    repeat split; lia.
  - eexists. split; [done|].
    destruct (foldl_report_annot (a :: l) (print st (PageHeader (page_num + 1))))
      as (Hr & Hh & Ht).
    cbn [print out total_annotations]. 
    rewrite reports_app, page_headers_app, Hr, Hh, Ht. simpl out.
    rewrite reports_app, page_headers_app. simpl. rewrite !app_nil_r.
    repeat split; lia.
Qed.

Lemma debug_pages_readable pages page_num st :
  Forall (fun pg => exists l, annots pg = Ok l) pages ->
  exists st', debug_pages pages page_num st = (st', None)
    /\ reports (out st')
       = (reports (out st)
          ++ flat_map (fun pg => flat_map expected_report (page_annots pg)) pages)%list
    /\ page_headers (out st')
       = (page_headers (out st) ++ (PageHeader <$> seq (page_num + 1) (length pages)))%list
    /\ total_annotations st'
       = (total_annotations st + length (flat_map page_annots pages))%nat.
Proof.
  intros Hr. revert page_num st.
  induction Hr as [|pg pages [l Hl] _ IH]; intros page_num st.
  - exists st. simpl. rewrite !app_nil_r. repeat split; lia.
  - simpl debug_pages.
    destruct (debug_page_readable page_num pg st l Hl) as (st1 & -> & Hr1 & Hh1 & Ht1).
    destruct (IH (S page_num) st1) as (st2 & -> & Hr2 & Hh2 & Ht2).
    exists st2. split; [done|].
    assert (page_annots pg = l) as Hpa by (unfold page_annots; by rewrite Hl).
    rewrite Hr2, Hh2, Ht2, Hr1, Hh1, Ht1. simpl. rewrite Hpa.
    rewrite <- !app_assoc, length_app. simpl.
    replace (page_num + 1)%nat with (S page_num) by lia.
    split; [done|split; [done|]]. lia.
Qed.

Lemma annots_Ok_elem pg l a : annots pg = Ok l -> (Ok a ∈ pg <-> a ∈ l).
Proof.
  revert l. induction pg as [|[b|e] pg IH]; intros l; simpl.
  - intros [= <-]. by rewrite !elem_of_nil.
  - destruct (annots pg) as [l'|e] eqn:Hl; simpl; [|done]. intros [= <-].
    rewrite !elem_of_cons, (IH l' eq_refl). split; intros [H|H]; auto; left; congruence.
  - done.
Qed.

End DebugFacts.

Module DebugSummary.
Import Fitz Debug.
Local Open Scope list_scope.

Lemma summary_lines total nh (types : list (string * nat)) :
  let tail :=
    Summary total nh
    :: match types with
       | [] => [NoAnnotationsDetected]
       | _ => (fun '(t, n) => TypeCount t n (is_highlight t)) <$> types
       end in
  reports tail = [] /\ page_headers tail = [].
Proof.
  simpl. destruct types as [|[t n] types]; [done|].
  generalize ((t, n) :: types). intros l.
  induction l as [|[t' n'] l [IH1 IH2]]; [done|]. simpl in *. done.
Qed.

Lemma exists_annotation (doc : document) :
  Forall (fun pg => exists l, annots pg = Ok l) doc ->
  (0 < length (flat_map page_annots doc))%nat <-> exists pg a, pg ∈ doc /\ Ok a ∈ pg.
Proof.
  intros Hr. split.
  - destruct (flat_map page_annots doc) as [|a l] eqn:Hf; simpl; [lia|]. intros _.
    assert (In a (flat_map page_annots doc)) as Hin by (rewrite Hf; by left).
    apply in_flat_map in Hin as (pg & Hpg & Ha). apply list_elem_of_In in Hpg.
    exists pg, a. split; [done|].
    destruct (proj1 (Forall_forall _ _) Hr pg Hpg) as [l' Hl'].
    apply (DebugFacts.annots_Ok_elem pg l' a Hl').
    unfold page_annots in Ha. rewrite Hl' in Ha. by apply list_elem_of_In.
  - intros (pg & a & Hpg & Ha).
    destruct (proj1 (Forall_forall _ _) Hr pg Hpg) as [l' Hl'].
    apply (DebugFacts.annots_Ok_elem pg l' a Hl') in Ha.
    assert (In a (flat_map page_annots doc)) as Hin.
    { apply in_flat_map. exists pg. split; [by apply list_elem_of_In|].
      unfold page_annots. rewrite Hl'. by apply list_elem_of_In. }
    destruct (flat_map page_annots doc); [done|simpl; lia].
Qed.

End DebugSummary.

(** ** ocr_annotation_detector.py *)

(** [defaultdict(int)] used as a counter: keys in insertion order. *)
Module Counter.
Section counter.
Context {K : Type} `{EqDecision K}.

Definition t : Type := list (K * nat).

(** [c[k] += 1] *)
Fixpoint incr (c : t) (k : K) : t :=
  match c with
  | [] => [(k, 1%nat)]
  | (k', n) :: rest =>
      if decide (k' = k) then (k', S n) :: rest else (k', n) :: incr rest k
  end.

(** The count stored for [k], 0 when [k] is not a key. *)
Fixpoint get (c : t) (k : K) : nat :=
  match c with
  | [] => 0
  | (k', n) :: rest => if decide (k' = k) then n else get rest k
  end.

(** [max(items, key=lambda x: x[1])]: the first item of greatest count. *)
Fixpoint max_item (best : K * nat) (items : list (K * nat)) : K * nat :=
  match items with
  | [] => best
  | x :: rest => max_item (if (best.2 <? x.2)%nat then x else best) rest
  end.

(** [max(c.items(), key=lambda x: x[1])[0] if c else default] *)
Definition most_common (c : t) (default : K) : K :=
  match c with
  | [] => default
  | x :: rest => (max_item x rest).1
  end.

(** How often [k] occurs in a list. *)
Definition occ (k : K) (l : list K) : nat := length (filter (fun x => x = k) l).

End counter.
Arguments t K : clear implicits.
End Counter.

Module Ocr.
Local Open Scope list_scope.

(** The dictionary [page.get_text("dict")] returns, as far as the script
    reads it.  Floats are modelled by exact rationals. *)
Record span : Type := {
  font : string;
  size : Qc;
  color : option Z;                 (* [None]: no "color" key *)
  text : option string;             (* [None]: no "text" key *)
  bbox : Qc * Qc * Qc * Qc          (* (x0, y0, x1, y1) *)
}.
Record text_line : Type := { spans : list span }.
Record block : Type := { lines : option (list text_line) }.   (* image blocks have no "lines" *)
Record text_dict : Type := {
  blocks : list block;
  width : option Qc;
  height : option Qc
}.

(** The spans the three nested loops visit, in order; blocks without
    "lines" are skipped. *)
Definition all_spans (text_blocks : text_dict) : list span :=
  flat_map (fun b => match lines b with
                     | None => []
                     | Some ls => flat_map spans ls
                     end)
           (blocks text_blocks).

Record characteristics : Type := {
  main_font : string;
  main_size : Qc;
  main_color : Z;
  all_fonts : Counter.t string;
  all_sizes : Counter.t Qc;
  all_colors : Counter.t Z
}.

(** [span.get("color", 0)] *)
Definition span_color (s : span) : Z := default 0 (color s).

Section round.
(** Python's [round(x, 1)]. *)
Variable round1 : Qc -> Qc.

Definition analyze_text_characteristics (text_blocks : text_dict) : characteristics :=
  let sp := all_spans text_blocks in
  let fonts := foldl (fun c s => Counter.incr c (font s)) [] sp in
  let font_sizes := foldl (fun c s => Counter.incr c (round1 (size s))) [] sp in
  let colors := foldl (fun c s => Counter.incr c (span_color s)) [] sp in
  {| main_font := Counter.most_common fonts "unknown";
     main_size := Counter.most_common font_sizes (Qc_of_Z 12);
     main_color := Counter.most_common colors 0;
     all_fonts := fonts; all_sizes := font_sizes; all_colors := colors |}.
End round.

(** An entry of the list [find_potential_annotation_text] returns. *)
Record potential : Type := {
  p_text : string;
  p_font : string;
  p_size : Qc;
  p_color : Z;
  p_bbox : Qc * Qc * Qc * Qc;
  p_score : nat;
  p_reasons : list string;
  p_in_margin : bool
}.

(** [if cond: annotation_score += points; reasons.append(reason)] *)
Definition add_reason (cond : bool) (points : nat) (reason : string)
    (acc : nat * list string) : nat * list string :=
  if cond then ((acc.1 + points)%nat, acc.2 ++ [reason]) else acc.

(** The body of the innermost loop (source lines 101-172): [None] when
    the span is skipped or stays under the threshold.  The margin tests
    are taken on exact rationals; they only add to the score. *)
Definition score_span (text_blocks : text_dict) (ch : characteristics) (s : span) :
    option potential :=
  let text := PyStr.strip (default "" (text s)) in
  let '(bx0, by0, bx1, by1) := bbox s in
  if PageSpec.is_empty text then None
  else
    let is_different_font := negb (String.eqb (font s) (main_font ch)) in
    let is_different_size := bool_decide (Qc_of_Z 2 < Qcabs (size s - main_size ch))%Qc in
    let is_different_color := negb (Z.eqb (span_color s) (main_color ch)) in
    let page_width := default (Qc_of_Z 595) (width text_blocks) in
    let page_height := default (Qc_of_Z 842) (height text_blocks) in
    let x_center := ((bx0 + bx1) / Qc_of_Z 2)%Qc in
    let y_center := ((by0 + by1) / Qc_of_Z 2)%Qc in
    let left_margin := bool_decide (x_center < page_width * Q2Qc (1 # 10))%Qc in
    let right_margin := bool_decide (page_width * Q2Qc (9 # 10) < x_center)%Qc in
    let top_margin := bool_decide (y_center < page_height * Q2Qc (1 # 10))%Qc in
    let bottom_margin := bool_decide (page_height * Q2Qc (9 # 10) < y_center)%Qc in
    let in_margin := left_margin || right_margin || top_margin || bottom_margin in
    let acc := (0%nat, []) in
    let acc := add_reason is_different_font 2 "different font" acc in
    let acc := add_reason is_different_size 2 "different size" acc in
    let acc := add_reason is_different_color 3 "different color" acc in
    let acc := add_reason in_margin 2 "in margin" acc in
    let acc := add_reason (String.length text <? 50)%nat 1 "short text" acc in
    let acc :=
      if bool_decide (size s < main_size ch - Qc_of_Z 3)%Qc
      then add_reason true 1 "smaller text" acc
      else add_reason (bool_decide (main_size ch + Qc_of_Z 5 < size s)%Qc) 1 "larger text" acc in
    if (3 <=? acc.1)%nat
    then Some {| p_text := text; p_font := font s; p_size := size s;
                 p_color := span_color s; p_bbox := bbox s;
                 p_score := acc.1; p_reasons := acc.2; p_in_margin := in_margin |}
    else None.

Definition find_potential_annotation_text (text_blocks : text_dict) (ch : characteristics) :
    list potential :=
  omap (score_span text_blocks ch) (all_spans text_blocks).

(** *** The calls into the libraries, as a trace *)

Inductive event : Type :=
| EvExists (path : string)            (* os.path.exists *)
| EvOpen (path : string)              (* fitz.open *)
| EvClose
| EvLoadPage (page_num : nat)         (* doc[page_num] *)
| EvGetText                           (* page.get_text("dict") *)
| EvGetPixmap (dpi : Z)               (* page.get_pixmap: the render of the page *)
| EvOcr.                              (* pytesseract.image_to_data *)

Section library.
Variable round1 : Qc -> Qc.
Variables Image OcrData : Type.
Variable get_pixmap : text_dict -> Z -> Image.
Variable image_to_data : Image -> OcrData.

(** [pdf_page_to_image(pdf_path, page_num, dpi=200)] *)
Definition pdf_page_to_image (fs : gmap string (list text_dict)) (pdf_path : string)
    (page_num : nat) (dpi : Z) : list event * option Image :=
  match fs !! pdf_path with
  | None => ([EvOpen pdf_path], None)
  | Some doc =>
      match doc !! page_num with
      | None => ([EvOpen pdf_path; EvLoadPage page_num], None)
      | Some page =>
          ([EvOpen pdf_path; EvLoadPage page_num; EvGetPixmap dpi; EvClose],
           Some (get_pixmap page dpi))
      end
  end.

(** [ocr_page(image)] *)
Definition ocr_page (image : Image) : list event * OcrData :=
  ([EvOcr], image_to_data image).

(** [get_pdf_text_blocks(pdf_path, page_num)] *)
Definition get_pdf_text_blocks (fs : gmap string (list text_dict)) (pdf_path : string)
    (page_num : nat) : list event * option text_dict :=
  match fs !! pdf_path with
  | None => ([EvOpen pdf_path], None)
  | Some doc =>
      match doc !! page_num with
      | None => ([EvOpen pdf_path; EvLoadPage page_num], None)
      | Some page => ([EvOpen pdf_path; EvLoadPage page_num; EvGetText; EvClose], Some page)
      end
  end.

(** The loop [for page_num in range(total_pages)] of
    [detect_annotation_text] (source lines 191-222): the trace, the
    potential annotations collected, and whether an exception ended it. *)
Fixpoint detect_pages (fs : gmap string (list text_dict)) (pdf_path : string)
    (pages : list nat) : list event * list potential * bool :=
  match pages with
  | [] => ([], [], true)
  | page_num :: rest =>
      match get_pdf_text_blocks fs pdf_path page_num with
      | (tr, None) => (tr, [], false)
      | (tr, Some text_blocks) =>
          let ch := analyze_text_characteristics round1 text_blocks in
          let potential_annotations := find_potential_annotation_text text_blocks ch in
          let '(tr', found, ok) := detect_pages fs pdf_path rest in
          (tr ++ tr', potential_annotations ++ found, ok)
      end
  end.

(** [detect_annotation_text(pdf_path)]: the trace of library calls and the
    value returned. *)
Definition detect_annotation_text (fs : gmap string (list text_dict)) (pdf_path : string) :
    list event * bool :=
  match fs !! pdf_path with
  | None => ([EvExists pdf_path], false)
  | Some doc =>
      let total_pages := length doc in
      let '(tr, all_annotations, ok) := detect_pages fs pdf_path (seq 0 total_pages) in
      ([EvExists pdf_path; EvOpen pdf_path; EvClose] ++ tr,
       if ok then bool_decide (0 < length all_annotations)%nat else false)
  end.

End library.
End Ocr.

Module CounterFacts.
Import Counter.
Local Open Scope list_scope.
Section facts.
Context {K : Type} `{EqDecision K}.
Implicit Types (c : Counter.t K) (k : K).

Lemma get_incr c k k' :
  get (incr c k) k' = if decide (k = k') then S (get c k') else get c k'.
Proof.
  induction c as [|[k0 n] c IH]; simpl.
  - by repeat case_decide.
  - destruct (decide (k0 = k)) as [->|Hne]; simpl.
    + by repeat case_decide.
    + rewrite IH. repeat case_decide; congruence.
Qed.

Lemma occ_cons k x (l : list K) :
  occ k (x :: l) = if decide (x = k) then S (occ k l) else occ k l.
Proof. unfold occ. rewrite filter_cons. by case_decide. Qed.

Lemma get_foldl_incr {A} (f : A -> K) (l : list A) c k :
  get (foldl (fun c s => incr c (f s)) c l) k = (get c k + occ k (f <$> l))%nat.
Proof.
  revert c. induction l as [|s l IH]; intros c; simpl.
  - unfold occ. simpl. lia.
  - rewrite IH, get_incr, occ_cons. unfold fmap. destruct (decide (f s = k)); lia.
Qed.

Lemma keys_incr c k :
  (incr c k).*1 = if decide (k ∈ c.*1) then c.*1 else c.*1 ++ [k].
Proof.
  induction c as [|[k0 n] c IH]; [done|].
  cbn [incr]. rewrite (fmap_cons fst (k0, n) c). cbn [fst].
  destruct (decide (k0 = k)) as [->|Hne]; rewrite fmap_cons; cbn [fst].
  - rewrite decide_True; [done|]. apply elem_of_cons. by left.
  - rewrite IH. destruct (decide (k ∈ c.*1)) as [Hin|Hnin].
    + rewrite decide_True; [done|]. apply elem_of_cons. by right.
    + rewrite decide_False; [done|]. rewrite elem_of_cons. intros [?|?]; congruence.
Qed.

Lemma NoDup_incr c k : NoDup c.*1 -> NoDup (incr c k).*1.
Proof.
  intros Hnd. rewrite keys_incr. case_decide as Hin; [done|].
  apply NoDup_app. split; [done|]. split; [|apply NoDup_singleton].
  intros x Hx Hk. apply list_elem_of_singleton in Hk as ->. done.
Qed.

Lemma elem_of_keys_incr c k x : x ∈ (incr c k).*1 -> x = k \/ x ∈ c.*1.
Proof.
  rewrite keys_incr. case_decide; [by right|].
  rewrite elem_of_app, list_elem_of_singleton. tauto.
Qed.

Lemma NoDup_foldl_incr {A} (f : A -> K) (l : list A) c :
  NoDup c.*1 -> NoDup (foldl (fun c s => incr c (f s)) c l).*1.
Proof.
  revert c. induction l as [|s l IH]; intros c Hc; simpl; [done|].
  by apply IH, NoDup_incr.
Qed.

Lemma elem_of_keys_foldl_incr {A} (f : A -> K) (l : list A) c x :
  x ∈ (foldl (fun c s => incr c (f s)) c l).*1 -> x ∈ c.*1 \/ x ∈ f <$> l.
Proof.
  revert c. induction l as [|s l IH]; intros c; simpl; [by left|].
  intros Hx. destruct (IH _ Hx) as [Hc|Hl].
  - destruct (elem_of_keys_incr _ _ _ Hc) as [->|?]; [|by left].
    right. apply elem_of_cons. by left.
  - right. apply elem_of_cons. by right.
Qed.

Lemma incr_nonempty c k : incr c k <> [].
Proof. destruct c as [|[k0 n] c]; simpl; [done|]. by case_decide. Qed.

Lemma foldl_incr_nonempty {A} (f : A -> K) (l : list A) c :
  c <> [] \/ l <> [] -> foldl (fun c s => incr c (f s)) c l <> [].
Proof.
  revert c. induction l as [|s l IH]; intros c; simpl.
  - by intros [?|?].
  - intros _. apply IH. left. apply incr_nonempty.
Qed.

Lemma get_entry c k n : NoDup c.*1 -> (k, n) ∈ c -> get c k = n.
Proof.
  induction c as [|[k0 n0] c IH]; simpl; intros Hnd Hin.
  - by apply elem_of_nil in Hin.
  - apply NoDup_cons in Hnd as [Hk0 Hnd].
    apply elem_of_cons in Hin as [[= <- <-]|Hin].
    + by rewrite decide_True.
    + rewrite decide_False; [by apply IH|]. intros ->. apply Hk0.
      apply list_elem_of_fmap. by exists (k, n).
Qed.

Lemma get_bound c k (m : nat) :
  (forall x, x ∈ c -> (x.2 <= m)%nat) -> (get c k <= m)%nat.
Proof.
  induction c as [|[k0 n0] c IH]; simpl; intros Hb; [lia|].
  case_decide.
  - apply (Hb (k0, n0)). apply elem_of_cons. by left.
  - apply IH. intros x Hx. apply Hb. apply elem_of_cons. by right.
Qed.

Lemma max_item_spec (best : K * nat) items :
  max_item best items ∈ best :: items
  /\ forall x, x ∈ best :: items -> (x.2 <= (max_item best items).2)%nat.
Proof.
  revert best. induction items as [|y items IH]; intros best; simpl.
  - split; [apply elem_of_cons; by left|].
    intros x Hx. apply list_elem_of_singleton in Hx as ->. lia.
  - destruct (IH (if (best.2 <? y.2)%nat then y else best)) as [Hin Hmax]. split.
    + apply elem_of_cons in Hin as [->|Hin].
      * destruct (best.2 <? y.2)%nat; [apply elem_of_cons; right|]; apply elem_of_cons; by left.
      * apply elem_of_cons. right. apply elem_of_cons. by right.
    + intros x Hx.
      assert (((if (best.2 <? y.2)%nat then y else best).2
               <= (max_item (if (best.2 <? y.2)%nat then y else best) items).2)%nat) as Hb.
      { apply Hmax. apply elem_of_cons. by left. }
      apply elem_of_cons in Hx as [->|Hx]; [|apply elem_of_cons in Hx as [->|Hx]].
      * destruct (Nat.ltb_spec best.2 y.2); lia.
      * destruct (Nat.ltb_spec best.2 y.2); lia.
      * apply Hmax. apply elem_of_cons. by right.
Qed.

(** The key [most_common] returns is a key of the counter, and no key has
    a greater count. *)
Lemma most_common_spec c (d : K) :
  NoDup c.*1 -> c <> [] ->
  most_common c d ∈ c.*1 /\ forall k, (get c k <= get c (most_common c d))%nat.
Proof.
  intros Hnd Hne. destruct c as [|x c]; [done|]. unfold most_common.
  destruct (max_item_spec x c) as [Hin Hmax].
  destruct (max_item x c) as [km nm] eqn:Hm. cbn [fst snd] in *. split.
  - apply list_elem_of_fmap. by exists (km, nm).
  - intros k. rewrite (get_entry (x :: c) km nm Hnd Hin).
    by apply (get_bound (x :: c)).
Qed.

(** Counting a list from the empty counter. *)
Lemma most_common_counts {A} (f : A -> K) (l : list A) (d : K) :
  let m := most_common (foldl (fun c s => incr c (f s)) [] l) d in
  (l = [] -> m = d)
  /\ (l <> [] -> m ∈ f <$> l /\ forall k, (occ k (f <$> l) <= occ m (f <$> l))%nat).
Proof.
  intros m. split.
  - intros ->. done.
  - intros Hne. subst m.
    set (c := foldl (fun c s => incr c (f s)) [] l).
    assert (NoDup c.*1) as Hnd by (apply NoDup_foldl_incr; constructor).
    assert (c <> []) as Hc by (apply foldl_incr_nonempty; by right).
    destruct (most_common_spec c d Hnd Hc) as [Hin Hmax]. split.
    + destruct (elem_of_keys_foldl_incr f l [] _ Hin) as [H0|?]; [|done].
      by apply elem_of_nil in H0.
    + intros k. pose proof (Hmax k) as Hk. unfold c in Hk.
      rewrite !get_foldl_incr in Hk. simpl in Hk. done.
Qed.

End facts.
End CounterFacts.

Module OcrFacts.
Import Ocr.
Local Open Scope list_scope.

Lemma is_empty_false s : s <> EmptyString -> PageSpec.is_empty s = false.
Proof. by destruct s. Qed.

(** A colour that differs from the main colour is enough for the
    threshold, whatever the other tests say. *)
Lemma score_span_color (text_blocks : text_dict) (ch : characteristics) (s : span) :
  PyStr.strip (default "" (text s)) <> EmptyString ->
  span_color s <> main_color ch ->
  exists p,
    score_span text_blocks ch s = Some p
    /\ p_text p = PyStr.strip (default "" (text s))
    /\ p_font p = font s /\ p_size p = size s /\ p_color p = span_color s
    /\ p_bbox p = bbox s
    /\ (3 <= p_score p)%nat
    /\ "different color" ∈ p_reasons p.
Proof.
  intros Htext Hcolor. unfold score_span.
  destruct (bbox s) as [[[bx0 by0] bx1] by1].
  rewrite (is_empty_false _ Htext).
  apply Z.eqb_neq in Hcolor. rewrite Hcolor.
  generalize (negb (String.eqb (font s) (main_font ch))).
  generalize (bool_decide (Qc_of_Z 2 < Qcabs (size s - main_size ch))%Qc).
  generalize (String.length (PyStr.strip (default "" (text s))) <? 50)%nat.
  generalize (bool_decide (size s < main_size ch - Qc_of_Z 3)%Qc).
  generalize (bool_decide (main_size ch + Qc_of_Z 5 < size s)%Qc).
  match goal with
  | |- context [p_in_margin] => idtac
  | |- context [?a || ?b || ?c || ?d] => generalize (a || b || c || d)
  end.
  intros [] [] [] [] [] []; cbn;
    (eexists; split; [reflexivity|]; cbn; repeat split; try lia;
     apply list_elem_of_In; cbn; tauto).
Qed.

Lemma find_potential_elem (text_blocks : text_dict) (ch : characteristics) (p : potential) :
  p ∈ find_potential_annotation_text text_blocks ch
  <-> exists s, s ∈ all_spans text_blocks /\ score_span text_blocks ch s = Some p.
Proof. unfold find_potential_annotation_text. apply list_elem_of_omap. Qed.

(** The events that render a page or run the OCR engine. *)
Definition is_ocr_event (e : event) : bool :=
  match e with EvGetPixmap _ | EvOcr => true | _ => false end.

Lemma get_pdf_text_blocks_no_ocr (fs : gmap string (list text_dict)) path page_num :
  forallb (fun e => negb (is_ocr_event e)) (get_pdf_text_blocks fs path page_num).1 = true.
Proof.
  unfold get_pdf_text_blocks. destruct (fs !! path) as [doc|]; [|done].
  by destruct (doc !! page_num).
Qed.

Lemma detect_pages_no_ocr round1 (fs : gmap string (list text_dict)) path pages :
  forallb (fun e => negb (is_ocr_event e)) (detect_pages round1 fs path pages).1.1 = true.
Proof.
  induction pages as [|page_num pages IH]; simpl; [done|].
  pose proof (get_pdf_text_blocks_no_ocr fs path page_num) as Hg.
  destruct (get_pdf_text_blocks fs path page_num) as [tr [text_blocks|]]; simpl in *; [|done].
  destruct (detect_pages round1 fs path pages) as [[tr' found] ok]. simpl in *.
  by rewrite forallb_app, Hg, IH.
Qed.

Lemma detect_annotation_text_no_ocr round1 (fs : gmap string (list text_dict)) path :
  forallb (fun e => negb (is_ocr_event e)) (detect_annotation_text round1 fs path).1 = true.
Proof.
  unfold detect_annotation_text. destruct (fs !! path) as [doc|]; [|done].
  pose proof (detect_pages_no_ocr round1 fs path (seq 0 (length doc))) as Hd.
  destruct (detect_pages round1 fs path (seq 0 (length doc))) as [[tr found] ok].
  simpl in *. done.
Qed.

End OcrFacts.

(** A sample page: two body spans in black, a one-blank span in red, and
    a red note. *)
Module OcrSample.
Import Ocr.

(** Rounding to one decimal on exact rationals (halves up). *)
Definition round1 (q : Qc) : Qc :=
  Q2Qc (Qmake (Qfloor (this q * 10 + (1 # 2))) 10).

Definition box (a b c d : Z) : Qc * Qc * Qc * Qc :=
  (Qc_of_Z a, Qc_of_Z b, Qc_of_Z c, Qc_of_Z d).

Definition body (t : string) : span :=
  {| font := "Times"; size := Qc_of_Z 12; color := Some 0; text := Some t;
     bbox := box 100 300 500 314 |}.
Definition blank : span :=
  {| font := "Times"; size := Qc_of_Z 12; color := Some 16711680; text := Some " ";
     bbox := box 200 320 204 334 |}.
Definition note : span :=
  {| font := "Times"; size := Qc_of_Z 12; color := Some 16711680; text := Some "see p. 4";
     bbox := box 200 400 260 414 |}.

Definition page_of (sp : list span) : text_dict :=
  {| blocks := [ {| lines := None |}; {| lines := Some [ {| spans := sp |} ] |} ];
     width := Some (Qc_of_Z 595); height := Some (Qc_of_Z 842) |}.

Definition page_blank : text_dict := page_of [body "Lorem ipsum"; body "dolor sit"; blank].
Definition page_note : text_dict := page_of [body "Lorem ipsum"; body "dolor sit"; note].

Definition fs : gmap string (list text_dict) := <["scan.pdf" := [page_note]]> ∅.

End OcrSample.

Example analyze_sample :
  Ocr.main_font (Ocr.analyze_text_characteristics OcrSample.round1 OcrSample.page_note) = "Times"
  /\ Ocr.main_color (Ocr.analyze_text_characteristics OcrSample.round1 OcrSample.page_note) = 0
  /\ Ocr.all_colors (Ocr.analyze_text_characteristics OcrSample.round1 OcrSample.page_note)
     = [(0, 2%nat); (16711680, 1%nat)].
Proof. repeat split; vm_compute; reflexivity. Qed.

Example find_sample :
  map (fun p => (Ocr.p_text p, Ocr.p_score p, Ocr.p_reasons p))
      (Ocr.find_potential_annotation_text OcrSample.page_note
         (Ocr.analyze_text_characteristics OcrSample.round1 OcrSample.page_note))
  = [("see p. 4", 4%nat, ["different color"; "short text"])].
Proof. vm_compute. reflexivity. Qed.

Example detect_sample_trace :
  Ocr.detect_annotation_text OcrSample.round1 OcrSample.fs "scan.pdf"
  = ([Ocr.EvExists "scan.pdf"; Ocr.EvOpen "scan.pdf"; Ocr.EvClose;
      Ocr.EvOpen "scan.pdf"; Ocr.EvLoadPage 0; Ocr.EvGetText; Ocr.EvClose], true).
Proof. vm_compute. reflexivity. Qed.

(** ** More about the page specification *)

Module PageSpecMore.
Import PyStr PyStrFacts PageSpec PageSpecFacts.

Lemma contains_split_once sep s :
  contains sep s = true -> exists a b, split_once sep s = Some (a, b).
Proof.
  induction s as [|c r IH]; simpl; [done|].
  rewrite (Ascii.eqb_sym sep c). destruct (Ascii.eqb c sep); simpl; [eauto|].
  intros Hr. destruct (IH Hr) as (a & b & ->). eauto.
Qed.

(** A component that is not defective is accepted. *)
Lemma parse_component_sound spec pages :
  ~ defect spec -> exists pages', parse_component spec pages = Ok pages'.
Proof.
  intros Hnd. unfold parse_component.
  destruct (contains "-" (strip spec)) eqn:Hc.
  - destruct (contains_split_once _ _ Hc) as (a & b & Hs). rewrite Hs, !int_strip.
    destruct (int a) as [start|] eqn:Ha;
      [|destruct Hnd; apply (range_not_numeric spec a b); auto].
    destruct (int b) as [stop|] eqn:Hb;
      [|destruct Hnd; apply (range_not_numeric spec a b); auto].
    destruct ((start <? 1) || (stop <? 1)) eqn:Hlt.
    { destruct Hnd. apply (range_below_one spec a b start stop); auto.
      apply orb_true_iff in Hlt. rewrite !Z.ltb_lt in Hlt. done. }
    destruct (start >? stop) eqn:Hgt; [|eauto].
    destruct Hnd. apply (range_start_after_end spec a b start stop); auto.
    rewrite Z.gtb_ltb in Hgt. apply Z.ltb_lt in Hgt. lia.
  - rewrite int_strip.
    destruct (int (strip spec)) as [page|] eqn:Hi;
      [|destruct Hnd; by apply page_not_numeric].
    destruct (page <? 1) eqn:Hlt; [|eauto].
    destruct Hnd. apply (page_below_one spec page); auto. by apply Z.ltb_lt.
Qed.

Lemma parse_component_ok_iff spec pages :
  (exists pages', parse_component spec pages = Ok pages') <-> ~ defect spec.
Proof.
  split; [|apply parse_component_sound].
  intros [pages' Hok] Hd. destruct (parse_component_defect spec pages Hd) as [v Hv].
  congruence.
Qed.

Lemma parse_components_ok_iff specs pages :
  (exists pages', parse_components specs pages = Ok pages')
  <-> forall spec, spec ∈ specs -> ~ defect spec.
Proof.
  revert pages. induction specs as [|s specs IH]; intros pages; simpl.
  - split; [|eauto]. intros _ spec Hin. by apply elem_of_nil in Hin.
  - split.
    + intros [pages' Hok] spec Hin.
      destruct (parse_component s pages) as [p1|e] eqn:Hs; simpl in Hok; [|done].
      apply elem_of_cons in Hin as [->|Hin].
      * apply (parse_component_ok_iff s pages). eauto.
      * apply (proj1 (IH p1)); eauto.
    + intros Hall.
      destruct (parse_component_sound s pages) as [p1 ->].
      { apply Hall, elem_of_cons. by left. }
      simpl. apply IH. intros spec Hin. apply Hall, elem_of_cons. by right.
Qed.

(** What a component adds does not depend on the set it is added to. *)
Lemma parse_component_union spec pages :
  parse_component spec pages
  = (let* added := parse_component spec ∅ in Ok (pages ∪ added)).
Proof.
  unfold parse_component.
  repeat match goal with
         | |- context [match ?x with _ => _ end] => destruct x; simpl; try done
         end.
  - f_equal. apply set_eq. intros i. rewrite elem_of_union, !add_range_elem.
    rewrite elem_of_empty. tauto.
  - f_equal. apply set_eq. intros i. rewrite !elem_of_union, elem_of_empty. tauto.
Qed.

Lemma parse_components_union specs pages :
  parse_components specs pages
  = (let* added := parse_components specs ∅ in Ok (pages ∪ added)).
Proof.
  revert pages. induction specs as [|s specs IH]; intros pages; simpl.
  - f_equal. apply set_eq. intros i. rewrite elem_of_union, elem_of_empty. tauto.
  - rewrite (parse_component_union s pages).
    destruct (parse_component s ∅) as [a|e]; simpl; [|done].
    rewrite (IH (pages ∪ a)), (IH a).
    destruct (parse_components specs ∅) as [b|e]; simpl; [|done].
    f_equal. apply set_eq. intros i. rewrite !elem_of_union. tauto.
Qed.

Lemma parse_components_app l1 l2 pages :
  parse_components (l1 ++ l2)%list pages
  = (let* p1 := parse_components l1 pages in parse_components l2 p1).
Proof.
  revert pages. induction l1 as [|s l1 IH]; intros pages; simpl; [done|].
  destruct (parse_component s pages); simpl; [apply IH|done].
Qed.

(** A component that is accepted adds a page. *)
Lemma parse_component_adds spec pages pages' :
  parse_component spec pages = Ok pages' -> pages' <> ∅.
Proof.
  unfold parse_component.
  repeat match goal with
         | |- context [match ?x with _ => _ end] => destruct x eqn:?; simpl; try done
         end.
  - intros [= <-] He.
    assert (Z.to_nat (z - 1) ∈ add_range z z0 pages) as Hin.
    { apply add_range_elem. right.
      match goal with H : _ || _ = false |- _ => apply orb_false_iff in H as [H1 H2] end.
      apply Z.ltb_ge in H1, H2.
      match goal with H : (_ >? _) = false |- _ =>
        rewrite Z.gtb_ltb in H; apply Z.ltb_ge in H end.
      lia. }
    rewrite He in Hin. by apply elem_of_empty in Hin.
  - intros [= <-] He.
    assert (Z.to_nat (z - 1) ∈ pages ∪ {[Z.to_nat (z - 1)]}) as Hin.
    { apply elem_of_union. right. by apply elem_of_singleton. }
    rewrite He in Hin. by apply elem_of_empty in Hin.
Qed.

Lemma parse_components_grows specs pages pages' i :
  parse_components specs pages = Ok pages' -> i ∈ pages -> i ∈ pages'.
Proof.
  revert pages. induction specs as [|s specs IH]; intros pages; simpl.
  - by intros [= <-].
  - rewrite (parse_component_union s pages).
    destruct (parse_component s ∅) as [a|e]; simpl; [|done].
    intros Hok Hi. apply (IH _ Hok). apply elem_of_union. by left.
Qed.

Lemma parse_components_nonempty specs pages pages' :
  specs <> [] -> parse_components specs pages = Ok pages' -> pages' <> ∅.
Proof.
  destruct specs as [|s specs]; [done|]. intros _. simpl.
  destruct (parse_component s pages) as [p1|e] eqn:Hs; simpl; [|done].
  intros Hok He. pose proof (parse_component_adds s pages p1 Hs) as Hne.
  apply Hne. apply set_eq. intros i. rewrite elem_of_empty. split; [|done].
  intros Hi. pose proof (parse_components_grows specs p1 pages' i Hok Hi) as Hi'.
  rewrite He in Hi'. by apply elem_of_empty in Hi'.
Qed.

Lemma split_nonempty sep s : split sep s <> [].
Proof.
  destruct s as [|c r]; simpl; [done|].
  destruct (Ascii.eqb c sep); [done|]. by destruct (split sep r).
Qed.

(** [(a + sep + b).split(sep) == a.split(sep) + b.split(sep)] *)
Lemma split_app sep a b :
  split sep (a ++ String sep b) = (split sep a ++ split sep b)%list.
Proof.
  induction a as [|c r IH]; simpl.
  - by rewrite Ascii.eqb_refl.
  - destruct (Ascii.eqb c sep); simpl; [by rewrite IH|].
    rewrite IH. pose proof (split_nonempty sep r) as Hne.
    by destruct (split sep r).
Qed.

Lemma blank_iff s :
  is_empty s || is_empty (strip s) = true <-> strip s = EmptyString.
Proof.
  destruct s as [|c r]; [done|].
  cbn [is_empty orb]. by destruct (strip (String c r)).
Qed.

Lemma lstrip_app_not_blank a b :
  strip a <> EmptyString -> lstrip (a ++ b) = (lstrip a ++ b)%string.
Proof.
  unfold strip. induction a as [|c r IH]; simpl; [done|].
  destruct (is_space c); [apply IH|done].
Qed.

Lemma rstrip_app_not_blank a b :
  rstrip a <> EmptyString -> rstrip (a ++ b) <> EmptyString.
Proof.
  induction a as [|c r IH]; simpl; [done|].
  destruct (rstrip r) as [|d r'] eqn:Hr.
  - destruct (is_space c) eqn:Hc; [done|]. intros _.
    by destruct (rstrip (r ++ b)).
  - intros _. assert (rstrip (r ++ b) <> EmptyString) as Hne by (by apply IH).
    by destruct (rstrip (r ++ b)).
Qed.

Lemma strip_app_not_blank a b :
  strip a <> EmptyString -> strip (a ++ b) <> EmptyString.
Proof.
  intros Ha. unfold strip. rewrite (lstrip_app_not_blank a b Ha).
  by apply rstrip_app_not_blank.
Qed.

End PageSpecMore.

Module ValidateFacts.
Import Fitz CopyApply.

Lemma validate_ok (fs : gmap string file) path (page_filter valid : gset nat) :
  validate_pages_exist fs path page_filter = Ok valid ->
  exists doc, open fs path = Ok doc
    /\ valid <> ∅
    /\ forall p, p ∈ valid <-> p ∈ page_filter /\ (p < length doc)%nat.
Proof.
  unfold validate_pages_exist. destruct (open fs path) as [doc|e]; [|done].
  case_decide as Hv; [done|]. intros [= <-]. exists doc. split; [done|]. split; [done|].
  intros p. rewrite elem_of_filter. tauto.
Qed.

Lemma validate_value_error (fs : gmap string file) path (page_filter : gset nat) v :
  validate_pages_exist fs path page_filter = Raise (ValueError v) ->
  exists doc, open fs path = Ok doc
    /\ forall p, p ∈ page_filter -> (length doc <= p)%nat.
Proof.
  unfold validate_pages_exist. destruct (open fs path) as [doc|e]; [|done].
  case_decide as Hv; [|done]. intros _. exists doc. split; [done|].
  intros p Hp. destruct (Nat.le_gt_cases (length doc) p) as [?|Hlt]; [done|].
  assert (p ∈ filter (fun p => (p < length doc)%nat) page_filter) as Hin
    by (apply elem_of_filter; done).
  rewrite Hv in Hin. by apply elem_of_empty in Hin.
Qed.

End ValidateFacts.

Module CopyExtractMore.
Import Fitz CopyExtract CopyExtractFacts.
Local Open Scope list_scope.

(** *** The pages visited are in increasing order *)

Lemma StronglySorted_lt_seq j n : StronglySorted lt (seq j n).
Proof.
  revert j. induction n as [|n IH]; intros j; simpl; constructor; [apply IH|].
  apply Forall_forall. intros x Hx. apply elem_of_seq in Hx. lia.
Qed.

Lemma StronglySorted_le_lt (l : list nat) :
  StronglySorted le l -> NoDup l -> StronglySorted lt l.
Proof.
  induction 1 as [|x l Hs IH Hall]; intros Hnd; constructor.
  - apply IH. by apply NoDup_cons in Hnd as [_ ?].
  - apply NoDup_cons in Hnd as [Hx _].
    apply Forall_forall. intros y Hy.
    pose proof (proj1 (Forall_forall _ _) Hall y Hy) as Hle.
    assert (x <> y) by (intros ->; done). lia.
Qed.

Lemma StronglySorted_filter {A} (R : relation A) (P : A -> Prop)
    `{forall x, Decision (P x)} (l : list A) :
  StronglySorted R l -> StronglySorted R (filter P l).
Proof.
  induction 1 as [|x l Hs IH Hall]; [constructor|].
  rewrite filter_cons. case_decide; [|done]. constructor; [done|].
  apply Forall_forall. intros y Hy. apply list_elem_of_filter in Hy as [_ Hy].
  by apply (proj1 (Forall_forall _ _) Hall).
Qed.

Lemma pages_to_process_sorted total page_filter :
  StronglySorted lt (pages_to_process total page_filter).
Proof.
  destruct page_filter as [f|]; simpl; [|apply StronglySorted_lt_seq].
  apply StronglySorted_filter, StronglySorted_le_lt.
  - unfold sorted. apply (StronglySorted_merge_sort Nat.le).
  - unfold sorted. rewrite merge_sort_Permutation. apply NoDup_elements.
Qed.

Lemma StronglySorted_lt_NoDup (l : list nat) : StronglySorted lt l -> NoDup l.
Proof.
  induction 1 as [|x l Hs IH Hall]; constructor; [|done].
  intros Hx. pose proof (proj1 (Forall_forall _ _) Hall x Hx). lia.
Qed.

(** *** The batches of the memory-efficient mode *)

Lemma batch_size_bounds n : (1 <= batch_size_of n <= 10)%nat.
Proof. unfold batch_size_of. lia. Qed.

Lemma slice_length {A} (l : list A) a b :
  length (slice l a b) = Nat.min (b - a) (length l - a).
Proof. unfold slice. by rewrite length_take, length_drop. Qed.

Lemma batches_of_lengths pages :
  Forall (fun b => (1 <= length b <= 10)%nat) (batches_of pages).
Proof.
  unfold batches_of, range_step. set (n := length pages). set (bs := batch_size_of n).
  pose proof (batch_size_bounds n) as Hbs. fold bs in Hbs.
  apply Forall_forall. intros b Hb.
  apply list_elem_of_fmap in Hb as (start & -> & Hstart).
  apply list_elem_of_fmap in Hstart as (k & -> & Hk).
  apply elem_of_seq in Hk. rewrite slice_length. fold n.
  pose proof (Nat.div_mod (n + bs - 1) bs ltac:(lia)) as Hdm.
  pose proof (Nat.mod_upper_bound (n + bs - 1) bs ltac:(lia)) as Hub.
  assert (k * bs < n)%nat by nia. lia.
Qed.

(** *** What the dictionary holds *)

(** The entries made for a list of pages of a document. *)
Definition entries (doc : document) (pages : list nat) : Dict.t (list annot_data) :=
  flat_map (fun p => match stored doc p with [] => [] | l => [(p, l)] end) pages.

Lemma dict_set_fresh {V} (d : Dict.t V) k v :
  k ∉ Dict.keys d -> Dict.set d k v = d ++ [(k, v)].
Proof.
  unfold Dict.keys. induction d as [|[k0 v0] d IH]; simpl; [done|].
  rewrite not_elem_of_cons. intros [Hne Hk].
  apply Nat.eqb_neq in Hne. rewrite Hne. by rewrite IH.
Qed.

Lemma process_page_inv doc p acc d :
  process_page doc p acc = Ok d -> p ∉ Dict.keys acc ->
  d = acc ++ entries doc [p].
Proof.
  unfold process_page, getitem, entries, stored. simpl.
  destruct (doc !! p) as [pg|]; simpl; [|done].
  destruct (annots pg) as [l|e] eqn:Hl; simpl; [|done].
  rewrite (page_annotations_readable pg l Hl). simpl.
  destruct (kept l) as [|x k]; intros [= <-] Hp; [by rewrite app_nil_r|].
  by apply dict_set_fresh.
Qed.

Lemma keys_app {V} (d1 d2 : Dict.t V) : Dict.keys (d1 ++ d2) = Dict.keys d1 ++ Dict.keys d2.
Proof. unfold Dict.keys. apply map_app. Qed.

Lemma keys_entries doc pages :
  Dict.keys (entries doc pages) = filter (fun p => stored doc p <> []) pages.
Proof.
  unfold entries, Dict.keys. induction pages as [|p pages IH]; [done|].
  rewrite filter_cons. cbn [flat_map]. rewrite map_app, IH.
  destruct (stored doc p) as [|x l] eqn:Hs.
  - rewrite decide_False by (intros H; by apply H). done.
  - rewrite decide_True by done. done.
Qed.

Lemma entries_cons doc p pages :
  entries doc (p :: pages) = entries doc [p] ++ entries doc pages.
Proof. unfold entries. simpl. by rewrite app_nil_r. Qed.

Lemma process_pages_inv doc pages acc d :
  NoDup pages -> (forall p, p ∈ pages -> p ∉ Dict.keys acc) ->
  process_pages doc pages acc = Ok d ->
  d = acc ++ entries doc pages.
Proof.
  revert acc. induction pages as [|p pages IH]; intros acc Hnd Hfresh; simpl.
  - intros [= <-]. by rewrite app_nil_r.
  - destruct (process_page doc p acc) as [d1|e] eqn:Hp; simpl; [|done].
    apply NoDup_cons in Hnd as [Hp_new Hnd].
    apply process_page_inv in Hp; [|apply Hfresh, elem_of_cons; by left].
    intros Hok. apply IH in Hok; [|done|].
    + rewrite Hok, Hp, <- app_assoc. f_equal. f_equal.
      unfold entries. simpl. apply app_nil_r.
    + intros q Hq. rewrite Hp, keys_app, keys_entries, elem_of_app.
      intros [Hin|Hin].
      * apply (Hfresh q); [apply elem_of_cons; by right|done].
      * apply list_elem_of_filter in Hin as [_ Hin].
        apply list_elem_of_singleton in Hin as ->. done.
Qed.

(** The standard extraction returns the entries of the pages visited, or
    nothing. *)
Lemma standard_inv fs path page_filter :
  _get_annotations_standard fs path page_filter = Ok []
  \/ exists doc, open fs path = Ok doc
       /\ _get_annotations_standard fs path page_filter
          = Ok (entries doc (pages_to_process (length doc) page_filter)).
Proof.
  unfold _get_annotations_standard.
  destruct (open fs path) as [doc|e] eqn:Ho; simpl; [|by left].
  destruct (process_pages doc _ []) as [d|e] eqn:Hp; simpl; [|by left].
  right. exists doc. split; [done|]. f_equal.
  apply process_pages_inv in Hp; [done| |].
  - apply StronglySorted_lt_NoDup, pages_to_process_sorted.
  - intros p _ Hin. by apply elem_of_nil in Hin.
Qed.

Lemma elem_of_entries doc pages p l :
  (p, l) ∈ entries doc pages <-> p ∈ pages /\ l <> [] /\ l = stored doc p.
Proof.
  unfold entries. split.
  - intros Hin. apply list_elem_of_In, in_flat_map in Hin as (q & Hq & Hs).
    apply list_elem_of_In in Hq.
    destruct (stored doc q) as [|x k] eqn:Hst; [done|].
    destruct Hs as [[= <- <-]|[]]. by rewrite Hst.
  - intros (Hp & Hne & ->). apply list_elem_of_In, in_flat_map.
    exists p. split; [by apply list_elem_of_In|].
    destruct (stored doc p); [done|by left].
Qed.

End CopyExtractMore.

Module CopyExtractReadable.
Import Fitz CopyExtract CopyExtractFacts CopyExtractMore.

(** On a source read without failure the standard extraction returns the
    entries of the pages visited. *)
Lemma standard_readable_entries fs path page_filter doc :
  open fs path = Ok doc ->
  readable doc (pages_to_process (length doc) page_filter) ->
  _get_annotations_standard fs path page_filter
  = Ok (entries doc (pages_to_process (length doc) page_filter)).
Proof.
  intros Ho Hr. unfold _get_annotations_standard. rewrite Ho. simpl.
  destruct (process_pages_readable doc _ [] Hr) as (d & Hd & _). rewrite Hd. simpl.
  f_equal. apply process_pages_inv in Hd; [done| |].
  - apply StronglySorted_lt_NoDup, pages_to_process_sorted.
  - intros p _ Hin. by apply elem_of_nil in Hin.
Qed.

Lemma readable_all (doc : document) :
  Forall (fun pg => exists l, annots pg = Ok l) doc ->
  readable doc (pages_to_process (length doc) None).
Proof.
  intros Hall p Hp. apply elem_of_seq in Hp.
  destruct (lookup_lt_is_Some_2 doc p ltac:(lia)) as [pg Hpg].
  exists pg. split; [done|].
  apply (proj1 (Forall_forall _ _) Hall pg). by apply list_elem_of_lookup_2 in Hpg.
Qed.

End CopyExtractReadable.

Module CopyApplyMore.
Import Fitz CopyExtract CopyApply.
Local Open Scope list_scope.

Section library.
Variable call : lib_call -> page -> result page.
Variable BATCH_SIZE : nat.

Lemma copy_batch_app doc l1 l2 n :
  copy_batch call doc (l1 ++ l2) n
  = (let '(d, m) := copy_batch call doc l1 n in copy_batch call d l2 m).
Proof.
  revert doc n. induction l1 as [|[p a] l1 IH]; intros doc n; simpl; [done|].
  destruct (doc !! p) as [pg|]; [|apply IH].
  destruct (_copy_single_annotation call pg a) as [pg' ok]. apply IH.
Qed.

Lemma copy_batches_concat doc batches n :
  copy_batches call doc batches n = copy_batch call doc (concat batches) n.
Proof.
  revert doc n. induction batches as [|b batches IH]; intros doc n; simpl; [done|].
  rewrite copy_batch_app. destruct (copy_batch call doc b n) as [d m]. apply IH.
Qed.

Lemma copy_batch_page doc p pg anns n :
  doc !! p = Some pg ->
  copy_batch call doc (map (pair p) anns) n
  = (let '(pg', m) := copy_to_page call pg anns n in (<[p := pg']> doc, m)).
Proof.
  revert doc pg n. induction anns as [|a anns IH]; intros doc pg n Hp;
    cbn [map copy_batch copy_to_page].
  - f_equal. symmetry. by apply list_insert_id.
  - rewrite Hp. destruct (_copy_single_annotation call pg a) as [pg1 ok].
    assert (p < length doc)%nat as Hlt by (by apply lookup_lt_Some in Hp).
    rewrite (IH (<[p := pg1]> doc) pg1); [|by apply list_lookup_insert_eq].
    destruct (copy_to_page call pg1 anns _) as [pg' m].
    f_equal. apply list_insert_insert_eq.
Qed.

Lemma copy_batch_missing doc p anns n :
  doc !! p = None -> copy_batch call doc (map (pair p) anns) n = (doc, n).
Proof.
  intros Hp. induction anns as [|a anns IH]; simpl; [done|]. by rewrite Hp.
Qed.

Lemma copy_batch_flatten doc items n :
  copy_batch call doc (flatten items) n = copy_standard call doc items n.
Proof.
  revert doc n. induction items as [|[p anns] items IH]; intros doc n; [done|].
  unfold flatten. simpl. fold (flatten items). rewrite copy_batch_app.
  destruct (doc !! p) as [pg|] eqn:Hp.
  - rewrite (copy_batch_page doc p pg anns n Hp).
    destruct (copy_to_page call pg anns n) as [pg' m]. apply IH.
  - rewrite (copy_batch_missing doc p anns n Hp). apply IH.
Qed.

(** The batched loop does what the standard loop does. *)
Lemma batched_standard doc items :
  (1 <= BATCH_SIZE)%nat ->
  _copy_annotations_batched call BATCH_SIZE doc items = copy_standard call doc items 0.
Proof.
  intros Hb. unfold _copy_annotations_batched, range_step.
  rewrite copy_batches_concat, (CopyExtractFacts.concat_slices (flatten items) BATCH_SIZE).
  rewrite take_ge; [apply copy_batch_flatten|].
  set (n := length (flatten items)).
  pose proof (Nat.div_mod (n + BATCH_SIZE - 1) BATCH_SIZE ltac:(lia)) as Hdm.
  pose proof (Nat.mod_upper_bound (n + BATCH_SIZE - 1) BATCH_SIZE ltac:(lia)) as Hub.
  nia.
Qed.




End library.
End CopyApplyMore.

Module DebugMore.
Import Fitz Debug.
Local Open Scope list_scope.

(** The number of "would be INCLUDED" marks in the output. *)
Definition included_marks (o : list line) : nat :=
  length (List.filter (fun l => match l with NotHighlightIncluded => true | _ => false end) o).

Lemma count_type_incr (types : list (string * nat)) k :
  count_type types k = Counter.incr types k.
Proof.
  induction types as [|[k' n] types IH]; simpl; [done|].
  destruct (String.eqb_spec k' k) as [->|Hne].
  - by rewrite decide_True.
  - rewrite decide_False by done. by rewrite IH.
Qed.

Lemma type_count_get (types : list (string * nat)) k :
  type_count types k = Counter.get types k.
Proof.
  induction types as [|[k' n] types IH]; simpl; [done|].
  destruct (String.eqb_spec k' k) as [->|Hne].
  - by rewrite decide_True.
  - by rewrite decide_False.
Qed.

Lemma foldl_report_annot_types l st :
  annotation_types (foldl report_annot st l)
  = foldl (fun c a => Counter.incr c (type a).2) (annotation_types st) l.
Proof.
  revert st. induction l as [|a l IH]; intros st; simpl; [done|].
  rewrite IH. simpl. by rewrite count_type_incr.
Qed.

Lemma debug_page_types page_num pg st l :
  annots pg = Ok l ->
  annotation_types (debug_page page_num pg st).1
  = foldl (fun c a => Counter.incr c (type a).2) (annotation_types st) l.
Proof.
  intros Hl. unfold debug_page. rewrite Hl. destruct l as [|a l]; [done|].
  cbn [fst print annotation_types]. by rewrite foldl_report_annot_types.
Qed.

Lemma debug_pages_types pages page_num st :
  Forall (fun pg => exists l, annots pg = Ok l) pages ->
  annotation_types (debug_pages pages page_num st).1
  = foldl (fun c a => Counter.incr c (type a).2) (annotation_types st)
          (flat_map page_annots pages).
Proof.
  intros Hr. revert page_num st.
  induction Hr as [|pg pages [l Hl] _ IH]; intros page_num st; [done|].
  simpl debug_pages.
  pose proof (debug_page_types page_num pg st l Hl) as Ht.
  destruct (DebugFacts.debug_page_readable page_num pg st l Hl) as (st1 & Hst1 & _).
  rewrite Hst1 in Ht |- *. simpl in Ht. rewrite IH, Ht.
  simpl. unfold page_annots at 2. rewrite Hl. by rewrite foldl_app.
Qed.

(** A page that cannot be read ends the loop with an exception. *)
Lemma debug_page_broken page_num pg st e :
  Raise e ∈ pg -> exists st' e', debug_page page_num pg st = (st', Some e').
Proof.
  intros Hin. unfold debug_page.
  destruct (CopyExtractFacts.annots_broken pg e Hin) as [e' ->]. eauto.
Qed.

Lemma debug_pages_broken pages page_num st pg e :
  pg ∈ pages -> Raise e ∈ pg ->
  exists st' e', debug_pages pages page_num st = (st', Some e').
Proof.
  intros Hpg He. revert page_num st.
  induction pages as [|q pages IH]; intros page_num st; [by apply elem_of_nil in Hpg|].
  simpl. destruct (debug_page page_num q st) as [st1 [e1|]] eqn:Hq; [eauto|].
  apply elem_of_cons in Hpg as [->|Hpg]; [|by apply IH].
  destruct (debug_page_broken page_num q st e He) as (st' & e' & Hb). congruence.
Qed.

Lemma included_marks_app o1 o2 :
  included_marks (o1 ++ o2) = (included_marks o1 + included_marks o2)%nat.
Proof. unfold included_marks. by rewrite List.filter_app, length_app. Qed.

Lemma included_marks_reports o : included_marks (reports o) = included_marks o.
Proof.
  unfold included_marks, reports. induction o as [|l o IH]; simpl; [done|].
  destruct l; simpl; rewrite ?IH; done.
Qed.

Lemma included_marks_expected (l : list annot) :
  included_marks (flat_map expected_report l)
  = length (filter (fun a => CopyExtract.not_highlight (type a).2 = true) l).
Proof.
  induction l as [|a l IH]; [done|].
  cbn [flat_map]. rewrite included_marks_app, IH, filter_cons.
  unfold expected_report, CopyExtract.not_highlight.
  destruct (decide (PyStr.lower (type a).2 = "highlight")) as [Heq|Hne].
  - rewrite Heq. by rewrite decide_False.
  - apply String.eqb_neq in Hne. rewrite Hne. by rewrite decide_True.
Qed.

(** The number of extracted annotations of the pages [from], [from+1], ...
    of a document. *)
Lemma total_annotations_app (d1 d2 : Dict.t (list CopyExtract.annot_data)) :
  CopyApply.total_annotations (d1 ++ d2)
  = (CopyApply.total_annotations d1 + CopyApply.total_annotations d2)%nat.
Proof.
  unfold CopyApply.total_annotations, Dict.values.
  induction d1 as [|[k v] d1 IH]; simpl; [done|]. rewrite IH. lia.
Qed.

Lemma total_annotations_entry doc p :
  CopyApply.total_annotations (CopyExtractMore.entries doc [p])
  = length (CopyExtractFacts.stored doc p).
Proof.
  unfold CopyExtractMore.entries, CopyApply.total_annotations, Dict.values.
  cbn [flat_map]. rewrite app_nil_r.
  destruct (CopyExtractFacts.stored doc p); simpl; lia.
Qed.

Lemma total_entries (pre pages : list page) :
  Forall (fun pg => exists l, annots pg = Ok l) pages ->
  CopyApply.total_annotations
    (CopyExtractMore.entries (pre ++ pages) (seq (length pre) (length pages)))
  = length (filter (fun a => CopyExtract.not_highlight (type a).2 = true)
                   (flat_map page_annots pages)).
Proof.
  intros Hr. revert pre. induction Hr as [|pg pages [l Hl] _ IH]; intros pre; [done|].
  cbn [length seq flat_map]. rewrite CopyExtractMore.entries_cons.
  rewrite total_annotations_app, total_annotations_entry, filter_app, length_app.
  specialize (IH (pre ++ [pg])). rewrite length_app, <- app_assoc in IH. simpl in IH.
  replace (length pre + 1)%nat with (S (length pre)) in IH by lia.
  rewrite IH. f_equal.
  assert (CopyExtractFacts.stored (pre ++ pg :: pages) (length pre)
          = CopyExtractFacts.kept l) as ->.
  { unfold CopyExtractFacts.stored.
    assert ((pre ++ pg :: pages) !! length pre = Some pg) as Hm
      by (by apply list_lookup_middle).
    unfold document in *. rewrite Hm. by rewrite Hl. }
  unfold page_annots. rewrite Hl. unfold CopyExtractFacts.kept. by rewrite length_map.
Qed.

End DebugMore.

Module CounterMore.
Import Counter CounterFacts.
Local Open Scope list_scope.
Section facts.
Context {K : Type} `{EqDecision K}.

Lemma occ_pos (k : K) (l : list K) : (0 < occ k l)%nat <-> k ∈ l.
Proof.
  unfold occ. split.
  - destruct (filter (fun x => x = k) l) as [|x r] eqn:Hf; simpl; [lia|]. intros _.
    assert (x ∈ filter (fun x => x = k) l) as Hx by (rewrite Hf; apply elem_of_cons; by left).
    apply list_elem_of_filter in Hx as [-> ?]. done.
  - intros Hin.
    assert (k ∈ filter (fun x => x = k) l) as Hk by (by apply list_elem_of_filter).
    destruct (filter (fun x => x = k) l); [by apply elem_of_nil in Hk|simpl; lia].
Qed.

Lemma get_pos_entry (c : Counter.t K) k : (0 < get c k)%nat -> (k, get c k) ∈ c.
Proof.
  induction c as [|[k0 n0] c IH]; simpl; [lia|].
  case_decide as Hk.
  - subst. intros _. apply elem_of_cons. by left.
  - intros Hpos. apply elem_of_cons. right. by apply IH.
Qed.

(** The counter built from a list holds each element of the list once,
    with the number of its occurrences. *)
Lemma counted_entries {A} (f : A -> K) (l : list A) :
  let c := foldl (fun c s => incr c (f s)) [] l in
  NoDup c.*1
  /\ forall k n, (k, n) ∈ c <-> n = occ k (f <$> l) /\ (0 < n)%nat.
Proof.
  intros c. assert (NoDup c.*1) as Hnd by (apply NoDup_foldl_incr; constructor).
  split; [done|]. intros k n.
  assert (forall k, get c k = occ k (f <$> l)) as Hget.
  { intros k'. unfold c. by rewrite get_foldl_incr. }
  split.
  - intros Hin. pose proof (get_entry c k n Hnd Hin) as Hn. rewrite Hget in Hn.
    split; [done|]. subst n. apply occ_pos.
    assert (k ∈ c.*1) as Hk by (apply list_elem_of_fmap; by exists (k, occ k (f <$> l))).
    destruct (elem_of_keys_foldl_incr f l [] k Hk) as [H0|?]; [|done].
    by apply elem_of_nil in H0.
  - intros [-> Hpos]. rewrite <- Hget. apply get_pos_entry. by rewrite Hget.
Qed.

End facts.
End CounterMore.

Module DebugOutput.
Import Fitz Debug.
Local Open Scope list_scope.

Lemma flat_map_flat_map {A B C} (f : A -> list B) (g : B -> list C) (l : list A) :
  flat_map (fun x => flat_map g (f x)) l = flat_map g (flat_map f l).
Proof.
  induction l as [|x l IH]; simpl; [done|]. by rewrite IH, flat_map_app.
Qed.

(** The state in which the page loop ends on a document that is read
    without failure. *)
Lemma debug_pages_final (pdf_path : string) (doc : document) :
  Forall (fun pg => exists l, annots pg = Ok l) doc ->
  let all := flat_map page_annots doc in
  exists st,
    debug_pages doc 0 {| out := [Header pdf_path (length doc)];
                         total_annotations := 0; annotation_types := [] |} = (st, None)
    /\ reports (out st) = flat_map expected_report all
    /\ total_annotations st = length all
    /\ annotation_types st = foldl (fun c a => Counter.incr c (type a).2) [] all.
Proof.
  intros Hr all.
  pose proof (DebugMore.debug_pages_types doc 0
                {| out := [Header pdf_path (length doc)];
                   total_annotations := 0; annotation_types := [] |} Hr) as Ht.
  destruct (DebugFacts.debug_pages_readable doc 0
              {| out := [Header pdf_path (length doc)];
                 total_annotations := 0; annotation_types := [] |} Hr)
    as (st & Hst & Hrep & _ & Htot).
  rewrite Hst in Ht. exists st. split; [done|]. split; [|split].
  - rewrite Hrep. simpl. apply flat_map_flat_map.
  - rewrite Htot. done.
  - exact Ht.
Qed.

End DebugOutput.

Module QcTactics.

(** Every [Qred x] is replaced by a variable equal to [x]. *)
Ltac qred_vars :=
  repeat match goal with
  | |- context [Qred ?x] =>
      let q := fresh "q" in let H := fresh "Hq" in
      pose proof (Qred_correct x) as H; set (q := Qred x) in *; clearbody q
  | _ : context [Qred ?x] |- _ =>
      let q := fresh "q" in let H := fresh "Hq" in
      pose proof (Qred_correct x) as H; set (q := Qred x) in *; clearbody q
  end.

(** Linear goals on [Qc], sent to [lra] on [Q]. *)
Ltac qc_lra :=
  unfold Qclt, Qcle, Qcminus, Qcplus, Qcopp, Qcmult in *;
  cbn [this Q2Qc Qc_of_Z] in *; qred_vars; unfold inject_Z in *; lra.

Lemma ratio_lt (w h : Z) (a : Z) (b : positive) :
  (0 < h)%Z ->
  ((Qc_of_Z w / Qc_of_Z h < Q2Qc (a # b))%Qc <-> (w * Z.pos b < a * h)%Z).
Proof.
  intros Hh. unfold Qclt, Qcdiv, Qcmult, Qcinv. cbn [this Q2Qc Qc_of_Z].
  rewrite !Qred_correct.
  assert (0 < inject_Z h)%Q as Hq by (unfold Qlt, inject_Z; simpl; lia).
  rewrite <- (Qmult_lt_r _ _ (inject_Z h) Hq).
  assert (inject_Z w * / inject_Z h * inject_Z h == inject_Z w)%Q as ->.
  { field. intros H0. rewrite H0 in Hq. by apply Qlt_irrefl in Hq. }
  unfold Qlt, inject_Z. simpl. lia.
Qed.

Lemma ratio_gt (w h : Z) (a : Z) (b : positive) :
  (0 < h)%Z ->
  ((Q2Qc (a # b) < Qc_of_Z w / Qc_of_Z h)%Qc <-> (a * h < w * Z.pos b)%Z).
Proof.
  intros Hh. unfold Qclt, Qcdiv, Qcmult, Qcinv. cbn [this Q2Qc Qc_of_Z].
  rewrite !Qred_correct.
  assert (0 < inject_Z h)%Q as Hq by (unfold Qlt, inject_Z; simpl; lia).
  rewrite <- (Qmult_lt_r _ _ (inject_Z h) Hq).
  assert (inject_Z w * / inject_Z h * inject_Z h == inject_Z w)%Q as ->.
  { field. intros H0. rewrite H0 in Hq. by apply Qlt_irrefl in Hq. }
  unfold Qlt, inject_Z. simpl. lia.
Qed.

Lemma ratio_gt_int (w h a : Z) :
  (0 < h)%Z ->
  ((Qc_of_Z a < Qc_of_Z w / Qc_of_Z h)%Qc <-> (a * h < w)%Z).
Proof.
  intros Hh. unfold Qclt, Qcdiv, Qcmult, Qcinv. cbn [this Q2Qc Qc_of_Z].
  rewrite !Qred_correct.
  assert (0 < inject_Z h)%Q as Hq by (unfold Qlt, inject_Z; simpl; lia).
  rewrite <- (Qmult_lt_r _ _ (inject_Z h) Hq).
  assert (inject_Z w * / inject_Z h * inject_Z h == inject_Z w)%Q as ->.
  { field. intros H0. rewrite H0 in Hq. by apply Qlt_irrefl in Hq. }
  unfold Qlt, inject_Z. simpl. lia.
Qed.

End QcTactics.

Module FlattenedMore.
Import Flattened FlattenedFacts.
Local Open Scope list_scope.

Lemma classify_line_arrow (r : Qc) :
  classify r = "line/arrow" <-> (Qc_of_Z 5 < r \/ r < Q2Qc (2 # 10))%Qc.
Proof.
  unfold classify. repeat case_bool_decide; simpl; split; try done; try tauto.
  all: intros [?|?]; done.
Qed.

(** A contour is a line or an arrow when one side of its bounding
    rectangle is more than five times the other. *)
Lemma line_arrow_sides (w h : Z) :
  (0 < w)%Z -> (0 < h)%Z ->
  classify (Qc_of_Z w / Qc_of_Z h)%Qc = "line/arrow" <-> (5 * h < w \/ 5 * w < h)%Z.
Proof.
  intros Hw Hh. rewrite classify_line_arrow.
  rewrite (QcTactics.ratio_gt_int w h 5 Hh), (QcTactics.ratio_lt w h 2 10 Hh). lia.
Qed.

Section library.
Variables Page Image Gray Contour : Type.
Variable render : Page -> Z -> Image.
Variable size : Image -> nat * nat.
Variable resize : Image -> nat * nat -> Image.
Variable difference : Image -> Image -> Image.
Variable cvtColor : Image -> color_code -> Gray.
Variable threshold : Gray -> Z -> Z -> thresh_type -> Gray.
Variable findContours : Gray -> retrieval_mode -> approx_mode -> list Contour.
Variable contourArea : Contour -> Qc.
Variable boundingRect : Contour -> Z * Z * Z * Z.

Abbreviation analyze := (analyze_contours Contour contourArea boundingRect).
Abbreviation kept := (kept_contours Contour contourArea).
Abbreviation entry := (entry_of Contour contourArea boundingRect).
Abbreviation page_analysis :=
  (analyse_page Page Image Gray Contour render size resize difference cvtColor threshold
     findContours contourArea boundingRect).
Abbreviation pages_analysis :=
  (analyse_pages Page Image Gray Contour render size resize difference cvtColor threshold
     findContours contourArea boundingRect).

(** [analyze_contours] fails only by dividing by the height 0 of a
    contour it keeps. *)
Lemma analyze_contours_cases contours min_area :
  match analyze contours min_area with
  | inr annotations =>
      annotations = entry <$> kept contours min_area
      /\ forall c, c ∈ kept contours min_area -> (boundingRect c).2 <> 0%Z
  | inl e =>
      e = ZeroDivisionError
      /\ exists c, c ∈ contours /\ ¬ (contourArea c < min_area)%Qc
                   /\ (boundingRect c).2 = 0%Z
  end.
Proof.
  unfold kept_contours.
  induction contours as [|c contours IH]; simpl.
  - split; [done|]. intros c Hc. by apply elem_of_nil in Hc.
  - rewrite filter_cons. case_bool_decide as Ha.
    + rewrite decide_False by tauto.
      destruct (analyze contours min_area) as [e|anns].
      * destruct IH as (-> & c' & Hc' & Hk & Hz). split; [done|].
        exists c'. split; [apply elem_of_cons; by right|done].
      * done.
    + rewrite decide_True by done. rewrite fmap_cons. unfold entry_of at 1.
      destruct (boundingRect c) as [[[x y] w] h] eqn:Hb. cbn [fst snd].
      destruct (Z.eqb_spec h 0) as [->|Hh].
      * split; [done|]. exists c. split; [apply elem_of_cons; by left|].
        split; [done|]. by rewrite Hb.
      * destruct (analyze contours min_area) as [e|anns].
        -- destruct IH as (-> & c' & Hc' & Hk & Hz). split; [done|].
           exists c'. split; [apply elem_of_cons; by right|done].
        -- destruct IH as [-> Hall]. split; [done|].
           intros c' Hc'. apply elem_of_cons in Hc' as [->|Hc']; [by rewrite Hb|by apply Hall].
Qed.

(** What a report says about its contours. *)
Definition report_ok (r : page_report Image Gray Contour) : Prop :=
  r_annotations _ _ _ r = entry <$> kept (r_contours _ _ _ r) (Qc_of_Z 100)
  /\ (r_saved _ _ _ r = true
      <-> exists c, c ∈ r_contours _ _ _ r /\ ¬ (contourArea c < Qc_of_Z 100)%Qc).

Lemma kept_contours_nonempty contours min_area :
  (exists c, c ∈ contours /\ ¬ (contourArea c < min_area)%Qc)
  <-> entry <$> kept contours min_area <> [].
Proof.
  unfold kept_contours. split.
  - intros (c & Hc & Hk) He.
    assert (c ∈ filter (fun c => ¬ (contourArea c < min_area)%Qc) contours) as Hin
      by (by apply list_elem_of_filter).
    destruct (filter _ contours); [by apply elem_of_nil in Hin|done].
  - destruct (filter _ contours) as [|c l] eqn:Hf; [done|]. intros _.
    assert (c ∈ filter (fun c => ¬ (contourArea c < min_area)%Qc) contours) as Hin
      by (rewrite Hf; apply elem_of_cons; by left).
    apply list_elem_of_filter in Hin as [? ?]. eauto.
Qed.

Lemma analyse_page_report (fs : gmap string (list Page)) original annotated page_num r :
  page_analysis fs original annotated page_num = inr r ->
  r_page _ _ _ r = page_num /\ report_ok r.
Proof.
  unfold analyse_page.
  destruct (pdf_page_to_image _ _ _ fs original page_num 150) as [e|o]; [done|].
  destruct (pdf_page_to_image _ _ _ fs annotated page_num 150) as [e|a]; [done|].
  destruct (find_differences _ _ _ _ _ _ _ _ _ o a) as [[diff contours] thresh].
  pose proof (analyze_contours_cases contours (Qc_of_Z 100)) as Hc.
  destruct (analyze contours (Qc_of_Z 100)) as [e|anns]; [done|].
  destruct Hc as [-> _]. intros [= <-]. split; [done|]. split; [done|]. cbn.
  rewrite kept_contours_nonempty. by destruct (entry <$> kept contours (Qc_of_Z 100)).
Qed.

(** The pages analysed are an initial segment of the pages given, and all
    of them exactly when no exception ended the loop. *)
Lemma analyse_pages_prefix (fs : gmap string (list Page)) original annotated pages :
  exists done_ rest,
    pages = done_ ++ rest
    /\ map (r_page _ _ _) (pages_analysis fs original annotated pages).1 = done_
    /\ Forall report_ok (pages_analysis fs original annotated pages).1
    /\ ((pages_analysis fs original annotated pages).2 = None <-> rest = []).
Proof.
  induction pages as [|p pages IH]; simpl.
  - exists [], []. done.
  - destruct (page_analysis fs original annotated p) as [e|r] eqn:Hp.
    + exists [], (p :: pages). done.
    + destruct (analyse_page_report fs original annotated p r Hp) as [Hr Hok].
      destruct IH as (done_ & rest & -> & Hm & Hall & Hnone).
      destruct (pages_analysis fs original annotated (done_ ++ rest)) as [reports e].
      simpl in *. exists (p :: done_), rest. split; [done|]. split; [by rewrite Hr, Hm|].
      split; [by constructor|done].
Qed.

Lemma total_positive (reports : list (page_report Image Gray Contour)) :
  (0 < foldr (fun r n => (length (r_annotations _ _ _ r) + n)%nat) 0%nat reports)%nat
  <-> exists r, r ∈ reports /\ r_annotations _ _ _ r <> [].
Proof.
  induction reports as [|r reports IH]; simpl.
  - split; [lia|]. intros (r & Hr & _). by apply elem_of_nil in Hr.
  - split.
    + intros Hpos. destruct (r_annotations _ _ _ r) as [|a l] eqn:Ha.
      * simpl in Hpos. apply IH in Hpos as (r' & Hr' & Hne).
        exists r'. split; [apply elem_of_cons; by right|done].
      * exists r. split; [apply elem_of_cons; by left|]. by rewrite Ha.
    + intros (r' & Hr' & Hne). apply elem_of_cons in Hr' as [->|Hr'].
      * destruct (r_annotations _ _ _ r); [done|simpl; lia].
      * assert (0 < foldr (fun r n => (length (r_annotations _ _ _ r) + n)%nat) 0%nat reports)%nat
          by (apply IH; eauto).
        lia.
Qed.

Lemma report_saved_annotations r :
  report_ok r -> (r_saved _ _ _ r = true <-> r_annotations _ _ _ r <> []).
Proof. intros [Ha Hs]. rewrite Hs, Ha. apply kept_contours_nonempty. Qed.

End library.
End FlattenedMore.

Module OcrMore.
Import Ocr.
Local Open Scope list_scope.

(** The points the source adds for each reason. *)
Definition reason_points (reason : string) : nat :=
  if String.eqb reason "different font" then 2
  else if String.eqb reason "different size" then 2
  else if String.eqb reason "different color" then 3
  else if String.eqb reason "in margin" then 2
  else if String.eqb reason "short text" then 1
  else if String.eqb reason "smaller text" then 1
  else if String.eqb reason "larger text" then 1
  else 0.

Definition sum_points (reasons : list string) : nat :=
  foldr (fun r n => (reason_points r + n)%nat) 0%nat reasons.

(** A size within 2 of the main size is neither "smaller" nor "larger". *)
Lemma same_size_not_smaller_larger (size main : Qc) :
  bool_decide (Qc_of_Z 2 < Qcabs (size - main))%Qc = false ->
  bool_decide (size < main - Qc_of_Z 3)%Qc = false
  /\ bool_decide (main + Qc_of_Z 5 < size)%Qc = false.
Proof.
  intros Hd. apply bool_decide_eq_false in Hd. apply Qcnot_lt_le in Hd.
  apply Qcabs_diff_Qcle_condition in Hd as [H1 H2].
  split; apply bool_decide_eq_false; intros H3; QcTactics.qc_lra.
Qed.

Lemma is_empty_false_inv s : PageSpec.is_empty s = false -> s <> EmptyString.
Proof. by destruct s. Qed.

End OcrMore.

Module OcrInv.
Import Ocr OcrMore.
Local Open Scope list_scope.

Ltac solve_mem :=
  first [ reflexivity
        | apply list_elem_of_In; cbn; tauto
        | let H := fresh in
          intros H;
          first [ reflexivity
                | discriminate H
                | apply list_elem_of_In; cbn; tauto
                | apply list_elem_of_In in H; cbn in H; intuition discriminate ]
        | (left; reflexivity)
        | (right; left; reflexivity)
        | (right; right; left; reflexivity)
        | (right; right; right; reflexivity) ].

Ltac solve_nodup :=
  repeat (constructor;
          [ let H := fresh in intros H; apply list_elem_of_In in H; cbn in H;
            intuition discriminate | ]);
  constructor.

(** Everything [score_span] promises about an entry it makes. *)
Lemma score_span_inv (text_blocks : text_dict) (ch : characteristics) (s : span) (p : potential) :
  score_span text_blocks ch s = Some p ->
  (PyStr.strip (default "" (text s)) <> EmptyString
   /\ p_text p = PyStr.strip (default "" (text s))
   /\ p_font p = font s /\ p_size p = size s /\ p_color p = span_color s
   /\ p_bbox p = bbox s)
  /\ (3 <= p_score p <= 11)%nat
  /\ p_score p = sum_points (p_reasons p)
  /\ NoDup (p_reasons p)
  /\ (negb (String.eqb (font s) (main_font ch)) = true <-> "different font" ∈ p_reasons p)
  /\ (bool_decide (Qc_of_Z 2 < Qcabs (size s - main_size ch))%Qc = true
      <-> "different size" ∈ p_reasons p)
  /\ (negb (Z.eqb (span_color s) (main_color ch)) = true <-> "different color" ∈ p_reasons p)
  /\ (p_in_margin p = true <-> "in margin" ∈ p_reasons p)
  /\ (negb (String.eqb (font s) (main_font ch)) = true
      \/ bool_decide (Qc_of_Z 2 < Qcabs (size s - main_size ch))%Qc = true
      \/ negb (Z.eqb (span_color s) (main_color ch)) = true
      \/ p_in_margin p = true).
Proof.
  unfold score_span.
  pose proof (same_size_not_smaller_larger (size s) (main_size ch)) as Hlink.
  destruct (bbox s) as [[[bx0 by0] bx1] by1] eqn:Hbbox.
  destruct (PageSpec.is_empty (PyStr.strip (default "" (text s)))) eqn:Hempty; [done|].
  apply is_empty_false_inv in Hempty.
  revert Hlink.
  generalize (negb (String.eqb (font s) (main_font ch))).
  generalize (negb (Z.eqb (span_color s) (main_color ch))).
  generalize (String.length (PyStr.strip (default "" (text s))) <? 50)%nat.
  generalize (bool_decide (Qc_of_Z 2 < Qcabs (size s - main_size ch))%Qc).
  generalize (bool_decide (size s < main_size ch - Qc_of_Z 3)%Qc).
  generalize (bool_decide (main_size ch + Qc_of_Z 5 < size s)%Qc).
  match goal with
  | |- context [?a || ?b || ?c || ?d] => generalize (a || b || c || d)
  end.
  intros margin larger smaller dsize short dcolor dfont Hlink.
  destruct dsize.
  - clear Hlink.
    destruct margin, larger, smaller, short, dcolor, dfont; cbn;
      intros [= <-]; cbn;
      (split; [done|]); (split; [lia|]); (split; [reflexivity|]);
      (split; [solve_nodup|]);
      repeat split; try solve_mem; try discriminate; auto.
  - destruct (Hlink eq_refl) as [-> ->].
    destruct margin, short, dcolor, dfont; cbn;
      intros [= <-]; cbn;
      (split; [done|]); (split; [lia|]); (split; [reflexivity|]);
      (split; [solve_nodup|]);
      repeat split; try solve_mem; try discriminate; auto.
Qed.

End OcrInv.

Module OcrDetect.
Import Ocr.
Local Open Scope list_scope.

Lemma omap_length_le {A B} (f : A -> option B) (l : list A) :
  (length (omap f l) <= length l)%nat.
Proof.
  induction l as [|x l IH]; [done|].
  change (omap f (x :: l)) with (match f x with Some y => y :: omap f l | None => omap f l end).
  destruct (f x); simpl; lia.
Qed.

(** The calls made for one page. *)
Definition page_trace (pdf_path : string) (page_num : nat) : list event :=
  [EvOpen pdf_path; EvLoadPage page_num; EvGetText; EvClose].

Lemma detect_pages_all round1 (fs : gmap string (list text_dict)) pdf_path
    (pre pages : list text_dict) :
  fs !! pdf_path = Some (pre ++ pages) ->
  detect_pages round1 fs pdf_path (seq (length pre) (length pages))
  = (flat_map (page_trace pdf_path) (seq (length pre) (length pages)),
     flat_map (fun tb => find_potential_annotation_text tb
                           (analyze_text_characteristics round1 tb)) pages,
     true).
Proof.
  revert pre. induction pages as [|tb pages IH]; intros pre Hfs; [done|].
  cbn [length seq detect_pages flat_map]. unfold get_pdf_text_blocks. rewrite Hfs.
  rewrite (list_lookup_middle pre pages tb (length pre) eq_refl).
  specialize (IH (pre ++ [tb])). rewrite length_app, <- app_assoc in IH. simpl in IH.
  replace (length pre + 1)%nat with (S (length pre)) in IH by lia.
  rewrite (IH Hfs). done.
Qed.

Lemma found_positive {A B} (f : A -> list B) (l : list A) :
  (0 < length (flat_map f l))%nat <-> exists x, x ∈ l /\ f x <> [].
Proof.
  induction l as [|x l IH]; simpl.
  - split; [lia|]. intros (x & Hx & _). by apply elem_of_nil in Hx.
  - rewrite length_app. split.
    + intros Hpos. destruct (f x) as [|y r] eqn:Hf.
      * simpl in Hpos. apply IH in Hpos as (x' & Hx' & Hne).
        exists x'. split; [apply elem_of_cons; by right|done].
      * exists x. split; [apply elem_of_cons; by left|]. by rewrite Hf.
    + intros (x' & Hx' & Hne). apply elem_of_cons in Hx' as [->|Hx'].
      * destruct (f x); [done|simpl; lia].
      * assert (0 < length (flat_map f l))%nat by (apply IH; eauto). lia.
Qed.

End OcrDetect.

Module CopyCalls.
Import Fitz CopyExtract CopyApply.
Local Open Scope list_scope.

(** A call that sets a font property. *)
Definition is_font_call (c : lib_call) : bool :=
  match c with SetFontsize _ | SetFontname _ => true | _ => false end.

Lemma middle_exists {A} (pre a b c d e : list A) (u : A) :
  exists middle,
    pre ++ a ++ b ++ c ++ d ++ e ++ [u] = pre ++ middle ++ [u].
Proof.
  exists (a ++ b ++ c ++ d ++ e). by rewrite <- !app_assoc.
Qed.

Section library.
Variable call : lib_call -> page -> result page.

(** The calls made one after the other, when none raises. *)
Fixpoint apply_calls (cs : list lib_call) (pg : page) : result page :=
  match cs with
  | [] => Ok pg
  | c :: rest => let* pg' := call c pg in apply_calls rest pg'
  end.

Lemma run_calls_true cs pg pg' :
  run_calls call cs pg = (pg', true) <-> apply_calls cs pg = Ok pg'.
Proof.
  revert pg. induction cs as [|c cs IH]; intros pg; simpl.
  - split; intros [= <-]; done.
  - destruct (call c pg) as [pg1|e]; simpl; [apply IH|done].
Qed.

Lemma run_calls_false cs pg pg' :
  run_calls call cs pg = (pg', false) ->
  exists done_ failing rest e,
    cs = done_ ++ failing :: rest
    /\ apply_calls done_ pg = Ok pg'
    /\ call failing pg' = Raise e.
Proof.
  revert pg. induction cs as [|c cs IH]; intros pg; simpl; [done|].
  destruct (call c pg) as [pg1|e] eqn:Hc.
  - intros Hr. destruct (IH pg1 Hr) as (done_ & failing & rest & e & -> & Ha & Hf).
    exists (c :: done_), failing, rest, e. split; [done|]. split; [|done].
    simpl. by rewrite Hc.
  - intros [= <-]. exists [], c, cs, e. done.
Qed.

End library.
End CopyCalls.

(** C8. [parse_page_specification], given a comma-separated string of
    1-based page numbers and ranges a-b with 1 <= a <= b, returns exactly
    the set of zero-based page indices covered: a number p contributes
    p-1, a range a-b contributes a-1 through b-1.  It raises [ValueError]
    when the string is empty or only whitespace, and when any of its
    components is defective: a page number below 1, a range whose start
    is after its end, or a component that is not numeric. *)
Theorem parse_page_specification_correct :
  (forall its : list PageSpec.item,
      its <> [] -> Forall PageSpec.item_valid its ->
      exists pages : gset nat,
        PageSpec.parse_page_specification (PageSpec.render its) = Ok pages
        /\ forall i : nat,
            i ∈ pages <-> exists it, it ∈ its /\ PageSpec.covers it i)
  /\ (forall s : string,
        PyStr.strip s = EmptyString ->
        PageSpec.parse_page_specification s = Raise (ValueError EmptySpecification))
  /\ (forall (s spec : string),
        spec ∈ PyStr.split "," s -> PageSpec.defect spec ->
        exists v, PageSpec.parse_page_specification s = Raise (ValueError v)).
Proof.
  split; [|split].
  - intros its Hne Hv. unfold PageSpec.parse_page_specification.
    rewrite (PageSpecFacts.render_not_blank its Hne).
    rewrite (PageSpecFacts.split_render its Hne).
    destruct (PageSpecFacts.parse_components_render its ∅ Hv) as (pages & Hp & Hi).
    exists pages. split; [done|]. intros i. rewrite Hi.
    split; [intros [H|H]; [by apply elem_of_empty in H|done]|by right].
  - intros s Hs. unfold PageSpec.parse_page_specification.
    rewrite Hs. simpl. by rewrite orb_true_r.
  - intros s spec Hin Hd. unfold PageSpec.parse_page_specification.
    destruct (_ || _); [eauto|].
    by apply (PageSpecFacts.parse_components_defect _ spec).
Qed.

Lemma parse_page_specification_correct_witness :
  (exists pages : gset nat,
      PageSpec.parse_page_specification "1-3,7" = Ok pages
      /\ forall i : nat,
          i ∈ pages <->
          exists it, it ∈ [PageSpec.Span 1 3; PageSpec.Single 7] /\ PageSpec.covers it i)
  /\ PageSpec.parse_page_specification "   " = Raise (ValueError EmptySpecification)
  /\ (exists v, PageSpec.parse_page_specification "2,0" = Raise (ValueError v))
  /\ (exists v, PageSpec.parse_page_specification "5-3" = Raise (ValueError v))
  /\ (exists v, PageSpec.parse_page_specification "1,x" = Raise (ValueError v)).
Proof.
  destruct parse_page_specification_correct as (Hok & Hblank & Hbad).
  split; [|split; [|split; [|split]]].
  - apply (Hok [PageSpec.Span 1 3; PageSpec.Single 7]); [discriminate|].
    repeat constructor. simpl. lia.
  - apply Hblank. reflexivity.
  - apply (Hbad "2,0" "0").
    + apply list_elem_of_In. simpl. auto.
    + apply (PageSpec.page_below_one "0" 0); [reflexivity|reflexivity|lia].
  - apply (Hbad "5-3" "5-3").
    + apply list_elem_of_In. simpl. auto.
    + apply (PageSpec.range_start_after_end "5-3" "5" "3" 5 3); [reflexivity..|lia].
  - apply (Hbad "1,x" "x").
    + apply list_elem_of_In. simpl. auto.
    + apply (PageSpec.page_not_numeric "x"); reflexivity.
Defined.

(** C1. For every annotation on a processed page of the source PDF (one
    that is read without failure), the copy utility extracts it for copying
    if and only if its type string, lowered, is not "highlight"; highlight
    is the only excluded type.  This holds in both extraction modes. *)
Theorem non_highlight_extracted_iff
    (MEMORY_EFFICIENT : bool) (fs : gmap string Fitz.file) (pdf_path : string)
    (page_filter : option (gset nat)) (doc : Fitz.document) :
  Fitz.open fs pdf_path = Ok doc ->
  CopyExtractFacts.readable doc
    (CopyExtract.pages_to_process (length doc) page_filter) ->
  exists d,
    CopyExtract.get_non_highlight_annotations MEMORY_EFFICIENT fs pdf_path page_filter = Ok d
    /\ forall (p : nat) (pg : Fitz.page) (a : Fitz.annot),
        p ∈ CopyExtract.pages_to_process (length doc) page_filter ->
        doc !! p = Some pg -> Ok a ∈ pg ->
        (CopyExtractSpec.extracted d p a
         <-> PyStr.lower (snd (Fitz.type a)) <> "highlight").
Proof.
  intros Ho Hr.
  rewrite CopyExtractSpec.get_non_highlight_annotations_standard.
  destruct (CopyExtractSpec.standard_readable fs pdf_path page_filter doc Ho Hr)
    as (d & Hd & Hget).
  exists d. split; [done|]. intros p pg a Hp Hpg Ha.
  destruct (Hr p Hp) as (pg' & Hpg' & l & Hl).
  assert (pg' = pg) as -> by congruence.
  assert (CopyExtractFacts.stored doc p = CopyExtractFacts.kept l) as Hs.
  { unfold CopyExtractFacts.stored. by rewrite Hpg, Hl. }
  apply (CopyExtractFacts.annots_elem pg l a Hl) in Ha.
  rewrite <- CopyExtractSpec.not_highlight_spec.
  unfold CopyExtractSpec.extracted. rewrite Hget, Hs. split.
  - intros (l0 & Hl0 & Hin). case_decide as Hdec; [|done].
    injection Hl0 as <-.
    apply CopyExtractSpec.elem_of_kept in Hin as (a' & _ & Hn & Heq).
    assert (Fitz.type a = Fitz.type a') as ->; [|done].
    by apply (f_equal CopyExtract.d_type) in Heq.
  - intros Hn.
    assert (CopyExtract._extract_annotation_data a (snd (Fitz.type a))
              ∈ CopyExtractFacts.kept l) as Hin.
    { apply CopyExtractSpec.elem_of_kept. eauto. }
    exists (CopyExtractFacts.kept l). split; [|done].
    rewrite decide_True; [done|]. split; [done|].
    apply CopyExtractSpec.kept_nonempty. eauto.
Qed.

(** C10. [get_non_highlight_annotations] never propagates an exception:
    it always returns a dictionary.  When the source cannot be opened, or
    an annotation of a processed page cannot be read, the dictionary is
    empty; when everything is read, its keys are exactly the processed page
    indices that have at least one non-highlight annotation. *)
Theorem get_non_highlight_annotations_never_raises
    (MEMORY_EFFICIENT : bool) (fs : gmap string Fitz.file) (pdf_path : string)
    (page_filter : option (gset nat)) :
  exists d,
    CopyExtract.get_non_highlight_annotations MEMORY_EFFICIENT fs pdf_path page_filter = Ok d
    /\ ((exists e, Fitz.open fs pdf_path = Raise e) -> d = [])
    /\ (forall doc p pg e,
          Fitz.open fs pdf_path = Ok doc ->
          p ∈ CopyExtract.pages_to_process (length doc) page_filter ->
          doc !! p = Some pg -> Raise e ∈ pg -> d = [])
    /\ (forall doc,
          Fitz.open fs pdf_path = Ok doc ->
          CopyExtractFacts.readable doc
            (CopyExtract.pages_to_process (length doc) page_filter) ->
          forall p : nat,
            p ∈ Dict.keys d <->
            p ∈ CopyExtract.pages_to_process (length doc) page_filter
            /\ CopyExtractSpec.has_non_highlight doc p).
Proof.
  rewrite CopyExtractSpec.get_non_highlight_annotations_standard.
  destruct (CopyExtractSpec.standard_total fs pdf_path page_filter) as [d Hd].
  exists d. split; [done|]. split; [|split].
  - intros [e He].
    rewrite (CopyExtractSpec.standard_open_fails fs pdf_path page_filter e He) in Hd.
    congruence.
  - intros doc p pg e Ho Hp Hpg He.
    rewrite (CopyExtractSpec.standard_broken fs pdf_path page_filter doc p pg e Ho Hp Hpg He) in Hd.
    congruence.
  - intros doc Ho Hr p.
    destruct (CopyExtractSpec.standard_readable fs pdf_path page_filter doc Ho Hr)
      as (d' & Hd' & Hget).
    assert (d' = d) as -> by congruence.
    rewrite DictFacts.elem_of_keys, Hget.
    split.
    + intros [v Hv]. case_decide as Hdec; [|done]. destruct Hdec as [Hp Hne].
      split; [done|]. destruct (Hr p Hp) as (pg & Hpg & l & Hl).
      unfold CopyExtractFacts.stored in Hne. rewrite Hpg, Hl in Hne.
      apply CopyExtractSpec.kept_nonempty in Hne as (a & Ha & Hn).
      exists pg, a. split; [done|]. split.
      * by apply (CopyExtractFacts.annots_elem pg l a Hl).
      * by apply CopyExtractSpec.not_highlight_spec.
    + intros (Hp & pg & a & Hpg & Ha & Hn).
      destruct (Hr p Hp) as (pg' & Hpg' & l & Hl).
      assert (pg' = pg) as -> by congruence.
      rewrite decide_True; [eauto|]. split; [done|].
      unfold CopyExtractFacts.stored. rewrite Hpg, Hl.
      apply CopyExtractSpec.kept_nonempty. exists a. split.
      * by apply (CopyExtractFacts.annots_elem pg l a Hl).
      * by apply CopyExtractSpec.not_highlight_spec.
Qed.

Lemma non_highlight_extracted_iff_witness :
  exists d,
    CopyExtract.get_non_highlight_annotations true Sample.fs "source.pdf" None = Ok d
    /\ forall (p : nat) (pg : Fitz.page) (a : Fitz.annot),
        p ∈ CopyExtract.pages_to_process (length Sample.source_doc) None ->
        Sample.source_doc !! p = Some pg -> Ok a ∈ pg ->
        (CopyExtractSpec.extracted d p a
         <-> PyStr.lower (snd (Fitz.type a)) <> "highlight").
Proof.
  apply (non_highlight_extracted_iff true Sample.fs "source.pdf" None Sample.source_doc).
  - reflexivity.
  - apply sample_source_readable.
Defined.

Lemma get_non_highlight_annotations_never_raises_witness :
  (exists d,
      CopyExtract.get_non_highlight_annotations true Sample.fs "missing.pdf" None = Ok d
      /\ d = [])
  /\ (exists d,
      CopyExtract.get_non_highlight_annotations true Sample.fs "broken.pdf" None = Ok d
      /\ d = [])
  /\ (exists d,
      CopyExtract.get_non_highlight_annotations true Sample.fs "source.pdf" None = Ok d
      /\ forall p : nat,
          p ∈ Dict.keys d <->
          p ∈ CopyExtract.pages_to_process (length Sample.source_doc) None
          /\ CopyExtractSpec.has_non_highlight Sample.source_doc p).
Proof.
  split; [|split].
  - destruct (get_non_highlight_annotations_never_raises true Sample.fs "missing.pdf" None)
      as (d & Hd & Hopen & _).
    exists d. split; [exact Hd|]. apply Hopen. eexists. reflexivity.
  - destruct (get_non_highlight_annotations_never_raises true Sample.fs "broken.pdf" None)
      as (d & Hd & _ & Hbroken & _).
    exists d. split; [exact Hd|].
    apply (Hbroken Sample.broken_doc 1%nat [Raise (LibraryError "bad xref")]
             (LibraryError "bad xref")).
    + reflexivity.
    + apply elem_of_seq. simpl. lia.
    + reflexivity.
    + apply elem_of_cons. by left.
  - destruct (get_non_highlight_annotations_never_raises true Sample.fs "source.pdf" None)
      as (d & Hd & _ & _ & Hkeys).
    exists d. split; [exact Hd|].
    apply (Hkeys Sample.source_doc); [reflexivity|apply sample_source_readable].
Defined.

(** C4 (as the code has it).  For every run of the copy utility whose
    output path names neither the file the source path names nor the
    file the target path names, the source file and the target file are
    left as they were, and no file other than the one the output path
    names is written. *)
Theorem copy_run_leaves_source_and_target_files
    (resolve : string -> string)
    (call : CopyApply.lib_call -> Fitz.page -> result Fitz.page)
    (BATCH_SIZE : nat) (MEMORY_EFFICIENT : bool)
    (disk : gmap string Fitz.file) (source_pdf target_pdf output_pdf : string)
    (pages_spec : option string) :
  resolve output_pdf <> resolve source_pdf ->
  resolve output_pdf <> resolve target_pdf ->
  let disk' := (Disk.main resolve call BATCH_SIZE MEMORY_EFFICIENT disk
                  source_pdf target_pdf output_pdf pages_spec).2 in
  disk' !! resolve source_pdf = disk !! resolve source_pdf
  /\ disk' !! resolve target_pdf = disk !! resolve target_pdf
  /\ forall f : string, f <> resolve output_pdf -> disk' !! f = disk !! f.
Proof.
  intros Hs Ht disk'. subst disk'. split; [|split].
  - apply DiskFacts.disk_main_frame. congruence.
  - apply DiskFacts.disk_main_frame. congruence.
  - intros f Hf. by apply DiskFacts.disk_main_frame.
Qed.

Lemma copy_run_leaves_source_and_target_files_witness :
  let disk' := (Disk.main Sample.normalize Sample.call 100 true Sample.fs
                  "./source.pdf" "target.pdf" "./output.pdf" None).2 in
  disk' !! "source.pdf" = Sample.fs !! "source.pdf"
  /\ disk' !! "target.pdf" = Sample.fs !! "target.pdf"
  /\ forall f : string, f <> "output.pdf" -> disk' !! f = Sample.fs !! f.
Proof.
  apply (copy_run_leaves_source_and_target_files Sample.normalize Sample.call 100 true
           Sample.fs "./source.pdf" "target.pdf" "./output.pdf" None);
    vm_compute; discriminate.
Defined.

(** C4 as stated fails, and it fails also for an output path that is
    different from the source path and from the target path: the output
    path "./target.pdf" is not the string "target.pdf", so [save] accepts
    it, and the run overwrites the target file; the output path
    "source.pdf" overwrites the source file. *)
Lemma copy_run_overwrites_target_or_source :
  ("./target.pdf" <> "target.pdf" /\ "./target.pdf" <> "source.pdf"
   /\ (Disk.main Sample.normalize Sample.call 100 true Sample.fs
         "source.pdf" "target.pdf" "./target.pdf" None).2 !! "target.pdf"
       <> Sample.fs !! "target.pdf")
  /\ (Disk.main Sample.normalize Sample.call 100 true Sample.fs
        "source.pdf" "target.pdf" "source.pdf" None).2 !! "source.pdf"
      <> Sample.fs !! "source.pdf".
Proof.
  split; [split; [discriminate|split; [discriminate|]]|]; vm_compute; discriminate.
Qed.

(** C5. For contours as OpenCV finds them (bounding rectangles of
    non-zero height), [analyze_contours] discards a contour when its area
    is below [min_area] and keeps the others in order; every kept contour
    gets one of four labels, decided by the aspect ratio w/h of its
    bounding rectangle alone: "line/arrow" when w/h > 5 or w/h < 0.2,
    "square/circle" when 0.8 <= w/h <= 1.2, "text/rectangle" when
    2 < w/h <= 5, and "rectangle/shape" in the remaining cases. *)
Theorem analyze_contours_classifies
    (Contour : Type) (contourArea : Contour -> Qc)
    (boundingRect : Contour -> Z * Z * Z * Z)
    (contours : list Contour) (min_area : Qc) :
  (forall c, c ∈ contours -> (boundingRect c).2 <> 0%Z) ->
  exists annotations,
    Flattened.analyze_contours Contour contourArea boundingRect contours min_area
      = inr annotations
    /\ map (fun a => (Flattened.a_bbox a, Flattened.a_area a)) annotations
       = map (fun c => (boundingRect c, contourArea c))
             (filter (fun c => ¬ (contourArea c < min_area)%Qc) contours)
    /\ forall a, a ∈ annotations ->
         let r := Flattened.a_aspect_ratio a in
         r = (Qc_of_Z (Flattened.a_bbox a).1.2 / Qc_of_Z (Flattened.a_bbox a).2)%Qc
         /\ Flattened.a_type a
              ∈ ["line/arrow"; "square/circle"; "text/rectangle"; "rectangle/shape"]
         /\ ((Qc_of_Z 5 < r \/ r < Q2Qc (2 # 10))%Qc -> Flattened.a_type a = "line/arrow")
         /\ ((Q2Qc (8 # 10) ≤ r ≤ Q2Qc (12 # 10))%Qc -> Flattened.a_type a = "square/circle")
         /\ ((Qc_of_Z 2 < r ≤ Qc_of_Z 5)%Qc -> Flattened.a_type a = "text/rectangle")
         /\ ((Q2Qc (2 # 10) ≤ r < Q2Qc (8 # 10) \/ Q2Qc (12 # 10) < r ≤ Qc_of_Z 2)%Qc ->
             Flattened.a_type a = "rectangle/shape").
Proof.
  intros Hh.
  exists (FlattenedFacts.entry_of Contour contourArea boundingRect
            <$> FlattenedFacts.kept_contours Contour contourArea contours min_area).
  split; [by apply FlattenedFacts.analyze_contours_ok|]. split.
  - unfold FlattenedFacts.kept_contours.
    generalize (filter (fun c => ¬ (contourArea c < min_area)%Qc) contours).
    intros l. induction l as [|c l IH]; simpl; [done|]. by f_equal.
  - intros a Ha. apply list_elem_of_fmap in Ha as (c & -> & _). simpl.
    split; [done|]. split; [apply FlattenedFacts.classify_label|].
    apply FlattenedFacts.classify_spec.
Qed.

Lemma analyze_contours_classifies_witness :
  exists annotations,
    Flattened.analyze_contours _ ToyVision.contourArea ToyVision.boundingRect
      [(0, 0, 3, 3); (10, 10, 120, 20); (5, 5, 30, 10)]%Z (Qc_of_Z 100) = inr annotations
    /\ map (fun a => (Flattened.a_bbox a, Flattened.a_area a)) annotations
       = map (fun c => (ToyVision.boundingRect c, ToyVision.contourArea c))
             (filter (fun c => ¬ (ToyVision.contourArea c < Qc_of_Z 100)%Qc)
                     [(0, 0, 3, 3); (10, 10, 120, 20); (5, 5, 30, 10)]%Z)
    /\ forall a, a ∈ annotations ->
         let r := Flattened.a_aspect_ratio a in
         r = (Qc_of_Z (Flattened.a_bbox a).1.2 / Qc_of_Z (Flattened.a_bbox a).2)%Qc
         /\ Flattened.a_type a
              ∈ ["line/arrow"; "square/circle"; "text/rectangle"; "rectangle/shape"]
         /\ ((Qc_of_Z 5 < r \/ r < Q2Qc (2 # 10))%Qc -> Flattened.a_type a = "line/arrow")
         /\ ((Q2Qc (8 # 10) ≤ r ≤ Q2Qc (12 # 10))%Qc -> Flattened.a_type a = "square/circle")
         /\ ((Qc_of_Z 2 < r ≤ Qc_of_Z 5)%Qc -> Flattened.a_type a = "text/rectangle")
         /\ ((Q2Qc (2 # 10) ≤ r < Q2Qc (8 # 10) \/ Q2Qc (12 # 10) < r ≤ Qc_of_Z 2)%Qc ->
             Flattened.a_type a = "rectangle/shape").
Proof.
  apply (analyze_contours_classifies _ ToyVision.contourArea ToyVision.boundingRect).
  intros c Hc. apply list_elem_of_In in Hc. simpl in Hc.
  destruct Hc as [<-|[<-|[<-|[]]]]; discriminate.
Defined.

(** C3. For two input PDFs with n and m pages, the detector processes
    exactly the pages 0 .. min(n, m) - 1, in order; for each of them it
    renders the page of both PDFs, resizes both renders to the smaller
    width and the smaller height when their sizes differ, takes their
    difference, thresholds the gray difference at 30 (binary, maximum 255)
    and extracts the external contours of the thresholded image. *)
Theorem detect_flattened_pipeline
    (Page Image Gray Contour : Type)
    (render : Page -> Z -> Image) (size : Image -> nat * nat)
    (resize : Image -> nat * nat -> Image) (difference : Image -> Image -> Image)
    (cvtColor : Image -> Flattened.color_code -> Gray)
    (threshold : Gray -> Z -> Z -> Flattened.thresh_type -> Gray)
    (findContours : Gray -> Flattened.retrieval_mode -> Flattened.approx_mode -> list Contour)
    (contourArea : Contour -> Qc) (boundingRect : Contour -> Z * Z * Z * Z)
    (fs : gmap string (list Page)) (original_pdf annotated_pdf : string)
    (orig_doc annot_doc : list Page) :
  (forall gray c,
      c ∈ findContours gray Flattened.RETR_EXTERNAL Flattened.CHAIN_APPROX_SIMPLE ->
      (boundingRect c).2 <> 0%Z) ->
  fs !! original_pdf = Some orig_doc ->
  fs !! annotated_pdf = Some annot_doc ->
  let reports :=
    (Flattened.detect_flattened_annotations Page Image Gray Contour render size resize
       difference cvtColor threshold findContours contourArea boundingRect
       fs original_pdf annotated_pdf).1 in
  map (Flattened.r_page _ _ _) reports
    = seq 0 (Nat.min (length orig_doc) (length annot_doc))
  /\ Forall (fun r =>
       (exists p1 p2,
           orig_doc !! Flattened.r_page _ _ _ r = Some p1
           /\ annot_doc !! Flattened.r_page _ _ _ r = Some p2
           /\ Flattened.r_original _ _ _ r = render p1 150
           /\ Flattened.r_annotated _ _ _ r = render p2 150)
       /\ (let o := Flattened.r_original _ _ _ r in
           let a := Flattened.r_annotated _ _ _ r in
           let dims := (Nat.min (size o).1 (size a).1, Nat.min (size o).2 (size a).2) in
           Flattened.r_diff _ _ _ r
             = (if decide (size o <> size a)
                then difference (resize o dims) (resize a dims)
                else difference o a)
           /\ Flattened.r_thresh _ _ _ r
                = threshold (cvtColor (Flattened.r_diff _ _ _ r) Flattened.COLOR_RGB2GRAY)
                            30 255 Flattened.THRESH_BINARY
           /\ Flattened.r_contours _ _ _ r
                = findContours (Flattened.r_thresh _ _ _ r)
                               Flattened.RETR_EXTERNAL Flattened.CHAIN_APPROX_SIMPLE))
     reports.
Proof.
  intros Hh Ho Ha reports. subst reports.
  unfold Flattened.detect_flattened_annotations. rewrite Ho, Ha.
  destruct (FlattenedFacts.analyse_pages_ok Page Image Gray Contour render size resize
              difference cvtColor threshold findContours contourArea boundingRect Hh
              fs original_pdf annotated_pdf orig_doc annot_doc
              (seq 0 (Nat.min (length orig_doc) (length annot_doc))) Ho Ha)
    as (reports & -> & Hm & Hf).
  { intros p Hp. apply elem_of_seq in Hp. lia. }
  simpl. split; [done|]. exact Hf.
Qed.

Lemma detect_flattened_pipeline_witness :
  map (Flattened.r_page _ _ _)
      (Flattened.detect_flattened_annotations _ _ _ _ ToyVision.render ToyVision.size
         ToyVision.resize ToyVision.difference ToyVision.cvtColor ToyVision.threshold
         ToyVision.findContours ToyVision.contourArea ToyVision.boundingRect
         ToyVision.fs "clean.pdf" "annotated.pdf").1
  = [0; 1]%nat.
Proof.
  refine (proj1 (detect_flattened_pipeline _ _ _ _ ToyVision.render ToyVision.size
            ToyVision.resize ToyVision.difference ToyVision.cvtColor ToyVision.threshold
            ToyVision.findContours ToyVision.contourArea ToyVision.boundingRect
            ToyVision.fs "clean.pdf" "annotated.pdf"
            [(600, 800); (600, 800)]%nat [(600, 800); (590, 800); (600, 800)]%nat
            _ _ _)).
  - intros gray c Hc. apply list_elem_of_In in Hc. simpl in Hc.
    destruct Hc as [<-|[]]. simpl. lia.
  - reflexivity.
  - reflexivity.
Defined.

(** C7. On a PDF that is read without failure, [debug_pdf_annotations]
    visits every page (one page header per page, numbered from 1), reports
    every annotation found in page order, highlights included, and marks
    an annotation as excluded by the copy utility when its lowered type is
    "highlight" and as included otherwise; it returns [True] if and only
    if the document has at least one annotation. *)
Theorem debug_reports_every_annotation
    (fs : gmap string Fitz.file) (pdf_path : string) (doc : Fitz.document) :
  fs !! pdf_path = Some (Fitz.Pdf doc) ->
  Forall (fun pg => exists l, Fitz.annots pg = Ok l) doc ->
  Debug.page_headers (Debug.debug_pdf_annotations fs pdf_path).1
    = Debug.PageHeader <$> seq 1 (length doc)
  /\ Debug.reports (Debug.debug_pdf_annotations fs pdf_path).1
     = flat_map (fun pg => flat_map Debug.expected_report (Debug.page_annots pg)) doc
  /\ ((Debug.debug_pdf_annotations fs pdf_path).2 = true
      <-> exists pg a, pg ∈ doc /\ Ok a ∈ pg).
Proof.
  intros Hfs Hr. unfold Debug.debug_pdf_annotations, Fitz.open. rewrite Hfs.
  destruct (DebugFacts.debug_pages_readable doc 0
              {| Debug.out := [Debug.Header pdf_path (length doc)];
                 Debug.total_annotations := 0; Debug.annotation_types := [] |} Hr)
    as (st & -> & Hrep & Hhead & Htot).
  cbn [fst snd].
  destruct (DebugSummary.summary_lines (Debug.total_annotations st)
              (Z.of_nat (Debug.total_annotations st)
               - Z.of_nat (Debug.type_count (Debug.annotation_types st) "Highlight"))
              (Debug.annotation_types st)) as [Hs1 Hs2].
  split; [|split].
  - rewrite DebugFacts.page_headers_app, Hhead. simpl in Hs2 |- *.
    rewrite Hs2. by rewrite app_nil_r.
  - rewrite DebugFacts.reports_app, Hrep. simpl in Hs1 |- *.
    rewrite Hs1. by rewrite app_nil_r.
  - rewrite bool_decide_eq_true, Htot. simpl.
    by apply DebugSummary.exists_annotation.
Qed.

Lemma debug_reports_every_annotation_witness :
  Debug.page_headers (Debug.debug_pdf_annotations Sample.fs "source.pdf").1
    = Debug.PageHeader <$> seq 1 (length Sample.source_doc)
  /\ Debug.reports (Debug.debug_pdf_annotations Sample.fs "source.pdf").1
     = flat_map (fun pg => flat_map Debug.expected_report (Debug.page_annots pg))
                Sample.source_doc
  /\ ((Debug.debug_pdf_annotations Sample.fs "source.pdf").2 = true
      <-> exists pg a, pg ∈ Sample.source_doc /\ Ok a ∈ pg).
Proof.
  apply (debug_reports_every_annotation Sample.fs "source.pdf" Sample.source_doc).
  - reflexivity.
  - repeat constructor; eexists; reflexivity.
Defined.

(** C6. [analyze_text_characteristics] finds the main font, size and
    colour of a page by frequency counting: when the page has text spans,
    [main_font], [main_size] and [main_color] are a font name, a rounded
    size and a colour value of the page that no other one exceeds in the
    number of spans it occurs in; when the page has no text span they are
    the defaults "unknown", 12 and 0. *)
Theorem analyze_text_characteristics_most_common
    (round1 : Qc -> Qc) (text_blocks : Ocr.text_dict) :
  let ch := Ocr.analyze_text_characteristics round1 text_blocks in
  let sp := Ocr.all_spans text_blocks in
  (sp = [] ->
     Ocr.main_font ch = "unknown" /\ Ocr.main_size ch = Qc_of_Z 12 /\ Ocr.main_color ch = 0)
  /\ (sp <> [] ->
        (Ocr.main_font ch ∈ Ocr.font <$> sp
         /\ forall f, (Counter.occ f (Ocr.font <$> sp)
                       <= Counter.occ (Ocr.main_font ch) (Ocr.font <$> sp))%nat)
        /\ (Ocr.main_size ch ∈ (fun s => round1 (Ocr.size s)) <$> sp
            /\ forall z, (Counter.occ z ((fun s => round1 (Ocr.size s)) <$> sp)
                          <= Counter.occ (Ocr.main_size ch)
                                         ((fun s => round1 (Ocr.size s)) <$> sp))%nat)
        /\ (Ocr.main_color ch ∈ Ocr.span_color <$> sp
            /\ forall c, (Counter.occ c (Ocr.span_color <$> sp)
                          <= Counter.occ (Ocr.main_color ch) (Ocr.span_color <$> sp))%nat)).
Proof.
  intros ch sp. subst ch sp. unfold Ocr.analyze_text_characteristics. cbn [Ocr.main_font
    Ocr.main_size Ocr.main_color].
  set (sp := Ocr.all_spans text_blocks).
  destruct (CounterFacts.most_common_counts Ocr.font sp "unknown") as [Hf0 Hf].
  destruct (CounterFacts.most_common_counts (fun s => round1 (Ocr.size s)) sp (Qc_of_Z 12))
    as [Hs0 Hs].
  destruct (CounterFacts.most_common_counts Ocr.span_color sp 0) as [Hc0 Hc].
  split.
  - intros Hnil. auto.
  - intros Hne. auto.
Qed.

Lemma analyze_text_characteristics_most_common_witness :
  let ch := Ocr.analyze_text_characteristics OcrSample.round1 OcrSample.page_note in
  let sp := Ocr.all_spans OcrSample.page_note in
  (Ocr.main_font ch ∈ Ocr.font <$> sp
   /\ forall f, (Counter.occ f (Ocr.font <$> sp)
                 <= Counter.occ (Ocr.main_font ch) (Ocr.font <$> sp))%nat)
  /\ (Ocr.main_size ch ∈ (fun s => OcrSample.round1 (Ocr.size s)) <$> sp
      /\ forall z, (Counter.occ z ((fun s => OcrSample.round1 (Ocr.size s)) <$> sp)
                    <= Counter.occ (Ocr.main_size ch)
                                   ((fun s => OcrSample.round1 (Ocr.size s)) <$> sp))%nat)
  /\ (Ocr.main_color ch ∈ Ocr.span_color <$> sp
      /\ forall c, (Counter.occ c (Ocr.span_color <$> sp)
                    <= Counter.occ (Ocr.main_color ch) (Ocr.span_color <$> sp))%nat).
Proof.
  apply (analyze_text_characteristics_most_common OcrSample.round1 OcrSample.page_note).
  discriminate.
Defined.

(** C9 (as the code has it).  Every text span of a page whose text is not
    empty after [strip()] and whose colour differs from the page's most
    common text colour is reported by [find_potential_annotation_text]:
    the colour difference contributes 3, which meets the threshold of 3
    whatever the font, size and position are. *)
Theorem color_difference_reported
    (round1 : Qc -> Qc) (text_blocks : Ocr.text_dict) (s : Ocr.span) :
  s ∈ Ocr.all_spans text_blocks ->
  PyStr.strip (default "" (Ocr.text s)) <> EmptyString ->
  Ocr.span_color s <> Ocr.main_color (Ocr.analyze_text_characteristics round1 text_blocks) ->
  exists p,
    p ∈ Ocr.find_potential_annotation_text text_blocks
          (Ocr.analyze_text_characteristics round1 text_blocks)
    /\ Ocr.p_text p = PyStr.strip (default "" (Ocr.text s))
    /\ Ocr.p_font p = Ocr.font s /\ Ocr.p_size p = Ocr.size s
    /\ Ocr.p_color p = Ocr.span_color s /\ Ocr.p_bbox p = Ocr.bbox s
    /\ (3 <= Ocr.p_score p)%nat
    /\ "different color" ∈ Ocr.p_reasons p.
Proof.
  intros Hin Htext Hcolor.
  destruct (OcrFacts.score_span_color text_blocks
              (Ocr.analyze_text_characteristics round1 text_blocks) s Htext Hcolor)
    as (p & Hp & Hrest).
  exists p. split; [|exact Hrest].
  apply OcrFacts.find_potential_elem. eauto.
Qed.

Lemma color_difference_reported_witness :
  exists p,
    p ∈ Ocr.find_potential_annotation_text OcrSample.page_note
          (Ocr.analyze_text_characteristics OcrSample.round1 OcrSample.page_note)
    /\ Ocr.p_text p = PyStr.strip (default "" (Ocr.text OcrSample.note))
    /\ Ocr.p_font p = Ocr.font OcrSample.note /\ Ocr.p_size p = Ocr.size OcrSample.note
    /\ Ocr.p_color p = Ocr.span_color OcrSample.note
    /\ Ocr.p_bbox p = Ocr.bbox OcrSample.note
    /\ (3 <= Ocr.p_score p)%nat
    /\ "different color" ∈ Ocr.p_reasons p.
Proof.
  apply (color_difference_reported OcrSample.round1 OcrSample.page_note OcrSample.note).
  - apply list_elem_of_In. simpl. auto.
  - discriminate.
  - vm_compute. discriminate.
Defined.

(** C9 as stated fails: a span whose text is one blank is not empty and
    has a colour other than the page's most common one, yet nothing is
    reported for the page. *)
Lemma whitespace_span_not_reported :
  OcrSample.blank ∈ Ocr.all_spans OcrSample.page_blank
  /\ Ocr.text OcrSample.blank = Some " "
  /\ Ocr.span_color OcrSample.blank
     <> Ocr.main_color (Ocr.analyze_text_characteristics OcrSample.round1 OcrSample.page_blank)
  /\ Ocr.find_potential_annotation_text OcrSample.page_blank
       (Ocr.analyze_text_characteristics OcrSample.round1 OcrSample.page_blank) = [].
Proof.
  split; [|split; [|split]].
  - apply list_elem_of_In. simpl. auto.
  - reflexivity.
  - vm_compute. discriminate.
  - vm_compute. reflexivity.
Qed.

(** C2 (the code at the claim).  [detect_annotation_text] never renders a
    page and never runs the OCR engine: its trace of library calls has no
    [get_pixmap] and no [image_to_data] event, for any PDF.  [ocr_page] and
    [pdf_page_to_image], which would do so, are never called. *)
Theorem detect_annotation_text_runs_no_ocr
    (round1 : Qc -> Qc) (fs : gmap string (list Ocr.text_dict)) (pdf_path : string) :
  (Ocr.EvOcr ∉ (Ocr.detect_annotation_text round1 fs pdf_path).1)
  /\ (forall dpi, Ocr.EvGetPixmap dpi ∉ (Ocr.detect_annotation_text round1 fs pdf_path).1).
Proof.
  pose proof (OcrFacts.detect_annotation_text_no_ocr round1 fs pdf_path) as H.
  rewrite forallb_forall in H.
  split; [|intros dpi]; intros Hin; apply list_elem_of_In in Hin;
    specialize (H _ Hin); discriminate.
Qed.

(** * Further properties of the scripts *)

(** X1. [parse_page_specification] accepts exactly the strings that are
    not blank and have no defective component (no page below 1, no range
    with start after end, nothing that is not numeric); the set it
    returns is never empty. *)
Theorem parse_page_specification_accepts_iff (s : string) :
  ((exists pages, PageSpec.parse_page_specification s = Ok pages)
   <-> (PyStr.strip s <> EmptyString
        /\ forall spec, spec ∈ PyStr.split "," s -> ~ PageSpec.defect spec))
  /\ (forall pages, PageSpec.parse_page_specification s = Ok pages ->
        exists i : nat, i ∈ pages).
Proof.
  unfold PageSpec.parse_page_specification.
  pose proof (PageSpecMore.blank_iff s) as Hb.
  destruct (PageSpec.is_empty s || PageSpec.is_empty (PyStr.strip s)) eqn:Hblank.
  - split.
    + split; [by intros [pages ?]|]. intros [Hne _]. destruct Hne. by apply Hb.
    + done.
  - assert (PyStr.strip s <> EmptyString) as Hne.
    { intros He. apply Hb in He. congruence. }
    split.
    + rewrite PageSpecMore.parse_components_ok_iff. tauto.
    + intros pages Hok.
      pose proof (PageSpecMore.parse_components_nonempty _ _ _
                    (PageSpecMore.split_nonempty "," s) Hok) as Hnon.
      destruct (set_choose_or_empty pages) as [?|He]; [done|].
      apply leibniz_equiv in He. done.
Qed.

(** X2. Page specifications compose: when two specifications are both
    accepted, joining them with a comma is accepted and gives the union of
    their page sets. *)
Theorem parse_page_specification_join (s1 s2 : string) (pages1 pages2 : gset nat) :
  PageSpec.parse_page_specification s1 = Ok pages1 ->
  PageSpec.parse_page_specification s2 = Ok pages2 ->
  PageSpec.parse_page_specification (s1 ++ String "," s2) = Ok (pages1 ∪ pages2).
Proof.
  unfold PageSpec.parse_page_specification.
  pose proof (PageSpecMore.blank_iff s1) as Hb1.
  pose proof (PageSpecMore.blank_iff (s1 ++ String "," s2)) as Hb.
  destruct (PageSpec.is_empty s1 || PageSpec.is_empty (PyStr.strip s1)) eqn:H1; [done|].
  destruct (PageSpec.is_empty s2 || PageSpec.is_empty (PyStr.strip s2)); [done|].
  intros Hp1 Hp2.
  assert (PyStr.strip s1 <> EmptyString) as Hne1.
  { intros He. apply Hb1 in He. congruence. }
  pose proof (PageSpecMore.strip_app_not_blank s1 (String "," s2) Hne1) as Hne.
  destruct (PageSpec.is_empty (s1 ++ String "," s2)
            || PageSpec.is_empty (PyStr.strip (s1 ++ String "," s2))) eqn:H12.
  { destruct Hne. by apply Hb. }
  rewrite PageSpecMore.split_app, PageSpecMore.parse_components_app, Hp1. simpl.
  by rewrite PageSpecMore.parse_components_union, Hp2.
Qed.

Lemma parse_page_specification_join_witness :
  PageSpec.parse_page_specification ("1-3" ++ String "," "7,2")
  = Ok (({[0%nat; 1%nat; 2%nat]} : gset nat) ∪ {[6%nat; 1%nat]}).
Proof.
  apply (parse_page_specification_join "1-3" "7,2"); vm_compute; reflexivity.
Defined.

(** X3. [validate_pages_exist] returns the requested pages that the PDF
    has, and only when there is at least one; it raises [ValueError] when
    the PDF has none of them and [FileNotFoundError] when the PDF cannot
    be opened. *)
Theorem validate_pages_exist_spec
    (fs : gmap string Fitz.file) (pdf_path : string) (page_filter : gset nat) :
  match CopyApply.validate_pages_exist fs pdf_path page_filter with
  | Ok valid_pages =>
      exists doc, Fitz.open fs pdf_path = Ok doc
        /\ (exists p, p ∈ valid_pages)
        /\ forall p, p ∈ valid_pages <-> p ∈ page_filter /\ (p < length doc)%nat
  | Raise (ValueError _) =>
      exists doc, Fitz.open fs pdf_path = Ok doc
        /\ forall p, p ∈ page_filter -> (length doc <= p)%nat
  | Raise (FileNotFoundError path) =>
      path = pdf_path /\ exists e, Fitz.open fs pdf_path = Raise e
  | Raise (LibraryError _) => False
  end.
Proof.
  destruct (CopyApply.validate_pages_exist fs pdf_path page_filter) as [valid|[v|path|w]] eqn:Hv.
  - destruct (ValidateFacts.validate_ok fs pdf_path page_filter valid Hv)
      as (doc & Ho & Hne & Hiff).
    exists doc. split; [done|]. split; [|done].
    destruct (set_choose_or_empty valid) as [?|He]; [done|].
    apply leibniz_equiv in He. done.
  - by apply (ValidateFacts.validate_value_error fs pdf_path page_filter v).
  - unfold CopyApply.validate_pages_exist in Hv.
    destruct (Fitz.open fs pdf_path) as [doc|e]; [by case_decide|].
    injection Hv as <-. eauto.
  - unfold CopyApply.validate_pages_exist in Hv.
    destruct (Fitz.open fs pdf_path) as [doc|e]; [by case_decide|done].
Qed.

(** X4. Validating a page filter against the source and then against the
    target, as [main] does, leaves exactly the requested pages that both
    PDFs have. *)
Theorem validate_source_then_target
    (fs : gmap string Fitz.file) (source_pdf target_pdf : string)
    (source_doc target_doc : Fitz.document) (page_filter valid : gset nat) :
  Fitz.open fs source_pdf = Ok source_doc ->
  Fitz.open fs target_pdf = Ok target_doc ->
  (let* pf := CopyApply.validate_pages_exist fs source_pdf page_filter in
   CopyApply.validate_pages_exist fs target_pdf pf) = Ok valid ->
  forall p, p ∈ valid
            <-> p ∈ page_filter
                /\ (p < Nat.min (length source_doc) (length target_doc))%nat.
Proof.
  intros Hs Ht Hv p.
  destruct (CopyApply.validate_pages_exist fs source_pdf page_filter) as [pf|e] eqn:H1;
    simpl in Hv; [|done].
  destruct (ValidateFacts.validate_ok _ _ _ _ H1) as (d1 & Ho1 & _ & Hiff1).
  destruct (ValidateFacts.validate_ok _ _ _ _ Hv) as (d2 & Ho2 & _ & Hiff2).
  assert (d1 = source_doc) as -> by congruence.
  assert (d2 = target_doc) as -> by congruence.
  rewrite Hiff2, Hiff1. split.
  - intros [[Hp H1'] H2']. split; [done|lia].
  - intros [Hp Hmin]. split; [split; [done|lia]|lia].
Qed.

Lemma validate_source_then_target_witness :
  1%nat ∈ ({[0%nat; 1%nat]} : gset nat)
  <-> 1%nat ∈ ({[0%nat; 1%nat; 5%nat]} : gset nat)
      /\ (1 < Nat.min (length Sample.source_doc) (length Sample.short_doc))%nat.
Proof.
  apply (validate_source_then_target Sample.fs2 "source.pdf" "short.pdf"
           Sample.source_doc Sample.short_doc {[0%nat; 1%nat; 5%nat]} {[0%nat; 1%nat]}).
  - reflexivity.
  - reflexivity.
  - vm_compute. reflexivity.
Defined.

(** X5. The memory-efficient extraction and the standard extraction
    return the same dictionary on every input. *)
Theorem extraction_modes_agree
    (fs : gmap string Fitz.file) (pdf_path : string) (page_filter : option (gset nat)) :
  CopyExtract._get_annotations_memory_efficient fs pdf_path page_filter
  = CopyExtract._get_annotations_standard fs pdf_path page_filter.
Proof. apply CopyExtractFacts.memory_efficient_standard. Qed.

(** X6. The batches of the memory-efficient extraction partition the pages
    to process: concatenated they are those pages in order, and every
    batch holds between 1 and 10 pages. *)
Theorem memory_efficient_batches (pages : list nat) :
  concat (CopyExtract.batches_of pages) = pages
  /\ Forall (fun b => (1 <= length b <= 10)%nat) (CopyExtract.batches_of pages).
Proof.
  split; [apply CopyExtractFacts.batches_of_concat|apply CopyExtractMore.batches_of_lengths].
Qed.

(** X7. The dictionary [get_non_highlight_annotations] returns has its
    page numbers in strictly increasing order, and every list in it is
    non-empty: it is the list of the non-highlight annotations of that
    page of the source, extracted, in page order. *)
Theorem extraction_result_shape
    (MEMORY_EFFICIENT : bool) (fs : gmap string Fitz.file) (pdf_path : string)
    (page_filter : option (gset nat)) :
  exists d,
    CopyExtract.get_non_highlight_annotations MEMORY_EFFICIENT fs pdf_path page_filter = Ok d
    /\ StronglySorted lt (Dict.keys d)
    /\ forall p l, (p, l) ∈ d ->
         l <> []
         /\ exists doc pg annot_list,
              Fitz.open fs pdf_path = Ok doc
              /\ p ∈ CopyExtract.pages_to_process (length doc) page_filter
              /\ doc !! p = Some pg
              /\ Fitz.annots pg = Ok annot_list
              /\ l = map (fun a => CopyExtract._extract_annotation_data a (snd (Fitz.type a)))
                         (filter (fun a => CopyExtract.not_highlight (snd (Fitz.type a)) = true)
                                 annot_list).
Proof.
  rewrite CopyExtractSpec.get_non_highlight_annotations_standard.
  destruct (CopyExtractMore.standard_inv fs pdf_path page_filter) as [->|(doc & Ho & ->)].
  - exists []. split; [done|]. split; [constructor|].
    intros p l Hin. by apply elem_of_nil in Hin.
  - eexists. split; [done|]. split.
    + rewrite CopyExtractMore.keys_entries.
      apply CopyExtractMore.StronglySorted_filter, CopyExtractMore.pages_to_process_sorted.
    + intros p l Hin. apply CopyExtractMore.elem_of_entries in Hin as (Hp & Hne & ->).
      split; [done|]. unfold CopyExtractFacts.stored in *.
      destruct (doc !! p) as [pg|] eqn:Hpg; [|done].
      destruct (Fitz.annots pg) as [al|e] eqn:Hal; [|done].
      exists doc, pg, al. done.
Qed.

(** X8. Batching is transparent: for every batch size of at least 1,
    [_copy_annotations_batched] leaves the document that the standard loop
    of [copy_annotations_to_pdf] leaves, with the same count of copied
    annotations. *)
Theorem copy_batching_is_transparent
    (call : CopyApply.lib_call -> Fitz.page -> result Fitz.page) (BATCH_SIZE : nat)
    (doc : Fitz.document) (annotations_by_page : Dict.t (list CopyExtract.annot_data)) :
  (1 <= BATCH_SIZE)%nat ->
  CopyApply._copy_annotations_batched call BATCH_SIZE doc annotations_by_page
  = CopyApply.copy_standard call doc annotations_by_page 0.
Proof. apply CopyApplyMore.batched_standard. Qed.

Lemma copy_batching_is_transparent_witness :
  CopyApply._copy_annotations_batched Sample.call 2 Sample.target_doc Sample.items
  = CopyApply.copy_standard Sample.call Sample.target_doc Sample.items 0.
Proof.
  apply (copy_batching_is_transparent Sample.call 2 Sample.target_doc Sample.items). lia.
Defined.



(** X10. [copy_annotations_to_pdf] writes nothing when the target cannot
    be opened, and nothing when the output path is the target's path: the
    exception is caught and the file system is as before. *)
Theorem copy_writes_nothing_on_failure
    (call : CopyApply.lib_call -> Fitz.page -> result Fitz.page) (BATCH_SIZE : nat)
    (fs : gmap string Fitz.file) (target_pdf_path output_path : string)
    (annotations_by_page : Dict.t (list CopyExtract.annot_data)) :
  (exists e, Fitz.open fs target_pdf_path = Raise e) \/ output_path = target_pdf_path ->
  CopyApply.copy_annotations_to_pdf call BATCH_SIZE fs target_pdf_path
    annotations_by_page output_path = fs.
Proof.
  intros H.
  destruct (CopyApplyFacts.copy_annotations_to_pdf_inv call BATCH_SIZE fs target_pdf_path
              annotations_by_page output_path) as [Hfs|(Hne & doc' & Hw)]; [done|].
  destruct H as [[e He]|Heq]; [|done].
  unfold CopyApply.copy_annotations_to_pdf. by rewrite He.
Qed.

Lemma copy_writes_nothing_on_failure_witness :
  CopyApply.copy_annotations_to_pdf Sample.call 100 Sample.fs "missing.pdf"
    Sample.items "output.pdf" = Sample.fs
  /\ CopyApply.copy_annotations_to_pdf Sample.call 100 Sample.fs "target.pdf"
       Sample.items "target.pdf" = Sample.fs.
Proof.
  split.
  - apply (copy_writes_nothing_on_failure Sample.call 100 Sample.fs "missing.pdf" "output.pdf").
    left. eexists. reflexivity.
  - apply (copy_writes_nothing_on_failure Sample.call 100 Sample.fs "target.pdf" "target.pdf").
    by right.
Defined.

(** X11. A run of [main] that does not complete writes nothing: when the
    source or the target is missing the run exits with status 1, and
    every exit and every uncaught exception leaves the file system as it
    was; a completed run has extracted at least one annotation and leaves
    what [copy_annotations_to_pdf] leaves. *)
Theorem main_writes_only_when_completed
    (call : CopyApply.lib_call -> Fitz.page -> result Fitz.page)
    (BATCH_SIZE : nat) (MEMORY_EFFICIENT : bool)
    (fs : gmap string Fitz.file) (source_pdf target_pdf output_pdf : string)
    (pages_spec : option string) :
  let run := CopyApply.main call BATCH_SIZE MEMORY_EFFICIENT fs
               source_pdf target_pdf output_pdf pages_spec in
  (fs !! source_pdf = None \/ fs !! target_pdf = None -> run = (CopyApply.Exit 1, fs))
  /\ match run.1 with
     | CopyApply.Completed =>
         exists page_filter first rest,
           CopyExtract.get_non_highlight_annotations MEMORY_EFFICIENT fs source_pdf page_filter
           = Ok (first :: rest)
           /\ run.2 = CopyApply.copy_annotations_to_pdf call BATCH_SIZE fs target_pdf
                        (first :: rest) output_pdf
     | _ => run.2 = fs
     end.
Proof.
  intros run. subst run. unfold CopyApply.main. split.
  - intros [Hs|Ht].
    + by rewrite Hs.
    + rewrite Ht. by destruct (fs !! source_pdf).
  - destruct (fs !! source_pdf); [|done].
    destruct (fs !! target_pdf); [|done].
    destruct (match pages_spec with Some _ => _ | None => _ end) as [pf|[]]; try done.
    destruct (CopyExtract.get_non_highlight_annotations _ _ _ _) as [[|x d]|e] eqn:Hg;
      try done.
    simpl. eauto.
Qed.

(** X12. [debug_pdf_annotations] returns [False] on every failure: for a
    path that does not exist it prints the one "not found" line; for a
    file that cannot be opened it prints the error; and when an
    annotation of some page cannot be read, the output ends with the
    error line and the result is [False], whatever was reported before. *)
Theorem debug_returns_false_on_failure
    (fs : gmap string Fitz.file) (pdf_path : string) :
  (fs !! pdf_path = None ->
     Debug.debug_pdf_annotations fs pdf_path = ([Debug.NotFound pdf_path], false))
  /\ (fs !! pdf_path = Some Fitz.NotPdf ->
        exists e, Debug.debug_pdf_annotations fs pdf_path = ([Debug.ErrorReading e], false))
  /\ (forall doc pg e,
        fs !! pdf_path = Some (Fitz.Pdf doc) -> pg ∈ doc -> Raise e ∈ pg ->
        (Debug.debug_pdf_annotations fs pdf_path).2 = false
        /\ exists printed e',
             (Debug.debug_pdf_annotations fs pdf_path).1
             = (printed ++ [Debug.ErrorReading e'])%list).
Proof.
  unfold Debug.debug_pdf_annotations, Fitz.open. split; [|split].
  - by intros ->.
  - intros ->. eauto.
  - intros doc pg e -> Hpg He.
    destruct (DebugMore.debug_pages_broken doc 0
                {| Debug.out := [Debug.Header pdf_path (length doc)];
                   Debug.total_annotations := 0; Debug.annotation_types := [] |}
                pg e Hpg He) as (st & e' & ->).
    simpl. eauto.
Qed.

(** X13. On a PDF read without failure the summary of
    [debug_pdf_annotations] counts the annotations: the total is their
    number, the "non-highlight" figure is the total less the number of
    annotations whose type is spelled exactly "Highlight", and the lines
    that follow give every type that occurs once, with the number of
    annotations of that type (or the one "no annotations" line when there
    is none). *)
Theorem debug_summary_counts
    (fs : gmap string Fitz.file) (pdf_path : string) (doc : Fitz.document) :
  fs !! pdf_path = Some (Fitz.Pdf doc) ->
  Forall (fun pg => exists l, Fitz.annots pg = Ok l) doc ->
  let names := (fun a => (Fitz.type a).2) <$> flat_map Debug.page_annots doc in
  exists printed types,
    (Debug.debug_pdf_annotations fs pdf_path).1
    = (printed
       ++ Debug.Summary (length names)
            (Z.of_nat (length names) - Z.of_nat (Counter.occ "Highlight" names))
          :: match types with
             | [] => [Debug.NoAnnotationsDetected]
             | _ => (fun '(t, n) => Debug.TypeCount t n (Debug.is_highlight t)) <$> types
             end)%list
    /\ NoDup types.*1
    /\ forall t n, (t, n) ∈ types <-> n = Counter.occ t names /\ (0 < n)%nat.
Proof.
  intros Hfs Hr names. unfold Debug.debug_pdf_annotations, Fitz.open. rewrite Hfs.
  destruct (DebugOutput.debug_pages_final pdf_path doc Hr) as (st & -> & _ & Htot & Htypes).
  cbn [fst].
  destruct (CounterMore.counted_entries (fun a => (Fitz.type a).2)
              (flat_map Debug.page_annots doc)) as [Hnd Hent].
  rewrite <- Htypes in Hnd, Hent.
  exists (Debug.out st), (Debug.annotation_types st). split; [|split; [exact Hnd|exact Hent]].
  f_equal. f_equal. subst names. rewrite length_fmap, Htot. f_equal. f_equal. f_equal.
  rewrite DebugMore.type_count_get, Htypes, CounterFacts.get_foldl_incr. done.
Qed.

Lemma debug_summary_counts_witness :
  exists printed types,
    (Debug.debug_pdf_annotations Sample.fs "source.pdf").1
    = (printed
       ++ Debug.Summary 3 (3 - 2)
          :: match types with
             | [] => [Debug.NoAnnotationsDetected]
             | _ => (fun '(t, n) => Debug.TypeCount t n (Debug.is_highlight t)) <$> types
             end)%list
    /\ NoDup types.*1
    /\ forall t n,
         (t, n) ∈ types
         <-> n = Counter.occ t ["Highlight"; "Text"; "Highlight"] /\ (0 < n)%nat.
Proof.
  apply (debug_summary_counts Sample.fs "source.pdf" Sample.source_doc).
  - reflexivity.
  - repeat constructor; eexists; reflexivity.
Defined.

(** X14. The debugger predicts the copy utility: on a PDF read without
    failure, the number of annotations [debug_pdf_annotations] marks as
    "would be INCLUDED" is the number of annotations
    [get_non_highlight_annotations] extracts from all pages. *)
Theorem debug_agrees_with_copy
    (MEMORY_EFFICIENT : bool) (fs : gmap string Fitz.file) (pdf_path : string)
    (doc : Fitz.document) :
  fs !! pdf_path = Some (Fitz.Pdf doc) ->
  Forall (fun pg => exists l, Fitz.annots pg = Ok l) doc ->
  exists d,
    CopyExtract.get_non_highlight_annotations MEMORY_EFFICIENT fs pdf_path None = Ok d
    /\ DebugMore.included_marks (Debug.debug_pdf_annotations fs pdf_path).1
       = CopyApply.total_annotations d.
Proof.
  intros Hfs Hr.
  assert (Fitz.open fs pdf_path = Ok doc) as Ho by (unfold Fitz.open; by rewrite Hfs).
  rewrite CopyExtractSpec.get_non_highlight_annotations_standard.
  rewrite (CopyExtractReadable.standard_readable_entries fs pdf_path None doc Ho
             (CopyExtractReadable.readable_all doc Hr)).
  eexists. split; [done|].
  cbn [CopyExtract.pages_to_process].
  pose proof (DebugMore.total_entries [] doc Hr) as Ht.
  change (([] : list Fitz.page) ++ doc)%list with doc in Ht.
  change (length ([] : list Fitz.page)) with 0%nat in Ht. rewrite Ht.
  unfold Debug.debug_pdf_annotations. rewrite Hfs, Ho.
  destruct (DebugOutput.debug_pages_final pdf_path doc Hr) as (st & -> & Hrep & _ & _).
  cbn [fst].
  destruct (DebugSummary.summary_lines (Debug.total_annotations st)
              (Z.of_nat (Debug.total_annotations st)
               - Z.of_nat (Debug.type_count (Debug.annotation_types st) "Highlight"))
              (Debug.annotation_types st)) as [Hs _].
  rewrite <- DebugMore.included_marks_reports, DebugFacts.reports_app.
  simpl in Hs |- *. rewrite Hs, app_nil_r, Hrep.
  apply DebugMore.included_marks_expected.
Qed.

Lemma debug_agrees_with_copy_witness :
  exists d,
    CopyExtract.get_non_highlight_annotations true Sample.fs "source.pdf" None = Ok d
    /\ DebugMore.included_marks (Debug.debug_pdf_annotations Sample.fs "source.pdf").1
       = CopyApply.total_annotations d.
Proof.
  apply (debug_agrees_with_copy true Sample.fs "source.pdf" Sample.source_doc).
  - reflexivity.
  - repeat constructor; eexists; reflexivity.
Defined.

(** X15. [detect_flattened_annotations] analyses the pages in order and
    without gaps: the pages it has analysed are 0 .. k-1 for some
    k <= min(n, m).  It returns [True] exactly when all min(n, m) pages
    were analysed and the analysis images of at least one page were
    saved; an exception on a page ends the run with [False].  When either
    PDF is missing nothing is analysed and the result is [False]. *)
Theorem detect_flattened_in_order
    (Page Image Gray Contour : Type)
    (render : Page -> Z -> Image) (size : Image -> nat * nat)
    (resize : Image -> nat * nat -> Image) (difference : Image -> Image -> Image)
    (cvtColor : Image -> Flattened.color_code -> Gray)
    (threshold : Gray -> Z -> Z -> Flattened.thresh_type -> Gray)
    (findContours : Gray -> Flattened.retrieval_mode -> Flattened.approx_mode -> list Contour)
    (contourArea : Contour -> Qc) (boundingRect : Contour -> Z * Z * Z * Z)
    (fs : gmap string (list Page)) (original_pdf annotated_pdf : string) :
  let run :=
    Flattened.detect_flattened_annotations Page Image Gray Contour render size resize
      difference cvtColor threshold findContours contourArea boundingRect
      fs original_pdf annotated_pdf in
  (fs !! original_pdf = None \/ fs !! annotated_pdf = None -> run = ([], false))
  /\ (forall orig_doc annot_doc,
        fs !! original_pdf = Some orig_doc -> fs !! annotated_pdf = Some annot_doc ->
        let min_pages := Nat.min (length orig_doc) (length annot_doc) in
        (exists k, (k <= min_pages)%nat /\ map (Flattened.r_page _ _ _) run.1 = seq 0 k)
        /\ (run.2 = true
            <-> map (Flattened.r_page _ _ _) run.1 = seq 0 min_pages
                /\ exists r, r ∈ run.1 /\ Flattened.r_saved _ _ _ r = true)).
Proof.
  intros run. subst run. unfold Flattened.detect_flattened_annotations. split.
  - intros [->| ->]; [done|]. by destruct (fs !! original_pdf).
  - intros orig_doc annot_doc -> ->. cbv zeta.
    set (n := Nat.min (length orig_doc) (length annot_doc)).
    destruct (FlattenedMore.analyse_pages_prefix Page Image Gray Contour render size resize
                difference cvtColor threshold findContours contourArea boundingRect
                fs original_pdf annotated_pdf (seq 0 n))
      as (done_ & rest & Hsplit & Hmap & Hall & Hnone).
    destruct (Flattened.analyse_pages _ _ _ _ _ _ _ _ _ _ _ _ _ fs original_pdf annotated_pdf
                (seq 0 n)) as [reports e].
    cbn [fst snd] in *.
    assert (done_ = seq 0 (length done_)) as Hdone.
    { assert (take (length done_) (seq 0 n) = done_) as Ht
        by (rewrite Hsplit; by rewrite take_app_length).
      rewrite <- Ht at 1. rewrite take_seq.
      assert (length done_ <= n)%nat.
      { pose proof (f_equal length Hsplit) as Hl. rewrite length_seq, length_app in Hl. lia. }
      by rewrite Nat.min_l. }
    assert (length done_ <= n)%nat as Hle.
    { pose proof (f_equal length Hsplit) as Hl. rewrite length_seq, length_app in Hl. lia. }
    assert (rest = [] <-> done_ = seq 0 n) as Hrest.
    { split.
      - intros ->. by rewrite app_nil_r in Hsplit.
      - intros Hd. rewrite Hd in Hsplit.
        pose proof (f_equal length Hsplit) as Hl. rewrite length_app in Hl.
        destruct rest; [done|simpl in Hl; lia]. }
    assert ((exists r, r ∈ reports /\ Flattened.r_saved _ _ _ r = true)
            <-> exists r, r ∈ reports /\ Flattened.r_annotations _ _ _ r <> []) as Hsaved.
    { split; intros (r & Hr & Hs); exists r; (split; [done|]);
        pose proof (proj1 (Forall_forall _ _) Hall r Hr) as Hok;
        by apply (FlattenedMore.report_saved_annotations _ _ _ contourArea boundingRect r Hok). }
    destruct e as [e|]; cbn [fst snd].
    + split; [exists (length done_); split; [done|congruence]|].
      split; [done|]. intros [Hm _]. rewrite Hmap in Hm.
      apply Hrest, Hnone in Hm. done.
    + split; [exists (length done_); split; [done|congruence]|].
      rewrite bool_decide_eq_true, FlattenedMore.total_positive, Hsaved, Hmap.
      assert (done_ = seq 0 n) by (apply Hrest, Hnone; done). tauto.
Qed.

(** X16. For every page [detect_flattened_annotations] has analysed, the
    annotations reported are those of the contours of area at least 100,
    and the analysis images are saved exactly when there is such a
    contour. *)
Theorem detect_flattened_saves_iff
    (Page Image Gray Contour : Type)
    (render : Page -> Z -> Image) (size : Image -> nat * nat)
    (resize : Image -> nat * nat -> Image) (difference : Image -> Image -> Image)
    (cvtColor : Image -> Flattened.color_code -> Gray)
    (threshold : Gray -> Z -> Z -> Flattened.thresh_type -> Gray)
    (findContours : Gray -> Flattened.retrieval_mode -> Flattened.approx_mode -> list Contour)
    (contourArea : Contour -> Qc) (boundingRect : Contour -> Z * Z * Z * Z)
    (fs : gmap string (list Page)) (original_pdf annotated_pdf : string) :
  Forall (fun r =>
      map (fun a => (Flattened.a_bbox a, Flattened.a_area a)) (Flattened.r_annotations _ _ _ r)
      = map (fun c => (boundingRect c, contourArea c))
            (filter (fun c => ¬ (contourArea c < Qc_of_Z 100)%Qc) (Flattened.r_contours _ _ _ r))
      /\ (Flattened.r_saved _ _ _ r = true
          <-> exists c, c ∈ Flattened.r_contours _ _ _ r
                        /\ ¬ (contourArea c < Qc_of_Z 100)%Qc))
    (Flattened.detect_flattened_annotations Page Image Gray Contour render size resize
       difference cvtColor threshold findContours contourArea boundingRect
       fs original_pdf annotated_pdf).1.
Proof.
  unfold Flattened.detect_flattened_annotations.
  destruct (fs !! original_pdf) as [d1|]; [|constructor].
  destruct (fs !! annotated_pdf) as [d2|]; [|constructor].
  destruct (FlattenedMore.analyse_pages_prefix Page Image Gray Contour render size resize
              difference cvtColor threshold findContours contourArea boundingRect
              fs original_pdf annotated_pdf (seq 0 (Nat.min (length d1) (length d2))))
    as (_ & _ & _ & _ & Hall & _).
  destruct (Flattened.analyse_pages _ _ _ _ _ _ _ _ _ _ _ _ _ fs original_pdf annotated_pdf _)
    as [reports e].
  assert (Forall (fun r =>
      map (fun a => (Flattened.a_bbox a, Flattened.a_area a)) (Flattened.r_annotations _ _ _ r)
      = map (fun c => (boundingRect c, contourArea c))
            (filter (fun c => ¬ (contourArea c < Qc_of_Z 100)%Qc) (Flattened.r_contours _ _ _ r))
      /\ (Flattened.r_saved _ _ _ r = true
          <-> exists c, c ∈ Flattened.r_contours _ _ _ r
                        /\ ¬ (contourArea c < Qc_of_Z 100)%Qc)) reports) as Hgoal.
  { cbn [fst] in Hall. eapply Forall_impl; [exact Hall|].
    intros r [Ha Hs]. split; [|exact Hs]. rewrite Ha.
    unfold FlattenedFacts.kept_contours.
    generalize (filter (fun c => ¬ (contourArea c < Qc_of_Z 100)%Qc)
                  (Flattened.r_contours _ _ _ r)).
    intros l. induction l as [|c l IH]; simpl; [done|]. by f_equal. }
  by destruct e.
Qed.

(** X17. [analyze_contours] fails in one way only: it raises
    [ZeroDivisionError] exactly when a contour it keeps (area not below
    [min_area]) has a bounding rectangle of height 0.  Otherwise it
    returns one entry per kept contour, in order. *)
Theorem analyze_contours_fails_iff
    (Contour : Type) (contourArea : Contour -> Qc)
    (boundingRect : Contour -> Z * Z * Z * Z)
    (contours : list Contour) (min_area : Qc) :
  let kept := filter (fun c => ¬ (contourArea c < min_area)%Qc) contours in
  match Flattened.analyze_contours Contour contourArea boundingRect contours min_area with
  | inr annotations =>
      length annotations = length kept
      /\ forall c, c ∈ kept -> (boundingRect c).2 <> 0%Z
  | inl e =>
      e = Flattened.ZeroDivisionError
      /\ exists c, c ∈ kept /\ (boundingRect c).2 = 0%Z
  end.
Proof.
  intros kept. subst kept.
  pose proof (FlattenedMore.analyze_contours_cases Contour contourArea boundingRect
                contours min_area) as H.
  destruct (Flattened.analyze_contours Contour contourArea boundingRect contours min_area)
    as [e|anns].
  - destruct H as (-> & c & Hc & Hk & Hz). split; [done|].
    exists c. split; [by apply list_elem_of_filter|done].
  - destruct H as [-> Hall]. split; [|exact Hall].
    unfold FlattenedFacts.kept_contours. by rewrite length_fmap.
Qed.

(** X18. Whether a contour is labelled "line/arrow" does not depend on its
    orientation: for a bounding rectangle of positive width and height
    the label is "line/arrow" exactly when one side is more than five
    times the other, so swapping width and height keeps (or keeps off)
    that label. *)
Theorem line_arrow_either_orientation (w h : Z) :
  (0 < w)%Z -> (0 < h)%Z ->
  (Flattened.classify (Qc_of_Z w / Qc_of_Z h)%Qc = "line/arrow"
   <-> (5 * h < w \/ 5 * w < h)%Z)
  /\ (Flattened.classify (Qc_of_Z w / Qc_of_Z h)%Qc = "line/arrow"
      <-> Flattened.classify (Qc_of_Z h / Qc_of_Z w)%Qc = "line/arrow").
Proof.
  intros Hw Hh.
  rewrite (FlattenedMore.line_arrow_sides w h Hw Hh),
    (FlattenedMore.line_arrow_sides h w Hh Hw).
  split; [done|]. tauto.
Qed.

Lemma line_arrow_either_orientation_witness :
  (Flattened.classify (Qc_of_Z 600 / Qc_of_Z 80)%Qc = "line/arrow"
   <-> (5 * 80 < 600 \/ 5 * 600 < 80)%Z)
  /\ (Flattened.classify (Qc_of_Z 600 / Qc_of_Z 80)%Qc = "line/arrow"
      <-> Flattened.classify (Qc_of_Z 80 / Qc_of_Z 600)%Qc = "line/arrow").
Proof. apply (line_arrow_either_orientation 600 80); lia. Defined.

(** X19. Every entry [find_potential_annotation_text] returns comes from
    a span of the page: it carries that span's font, size, colour and
    bounding box and its text stripped of surrounding whitespace, which is
    not empty; its score is at least 3 and at most 11.  There are at most
    as many entries as spans. *)
Theorem potential_entries_from_spans
    (text_blocks : Ocr.text_dict) (ch : Ocr.characteristics) :
  (length (Ocr.find_potential_annotation_text text_blocks ch)
   <= length (Ocr.all_spans text_blocks))%nat
  /\ forall p, p ∈ Ocr.find_potential_annotation_text text_blocks ch ->
       (3 <= Ocr.p_score p <= 11)%nat
       /\ exists s, s ∈ Ocr.all_spans text_blocks
            /\ PyStr.strip (default "" (Ocr.text s)) <> EmptyString
            /\ Ocr.p_text p = PyStr.strip (default "" (Ocr.text s))
            /\ Ocr.p_font p = Ocr.font s /\ Ocr.p_size p = Ocr.size s
            /\ Ocr.p_color p = Ocr.span_color s /\ Ocr.p_bbox p = Ocr.bbox s.
Proof.
  split; [apply OcrDetect.omap_length_le|].
  intros p Hp. apply OcrFacts.find_potential_elem in Hp as (s & Hs & Hsc).
  destruct (OcrInv.score_span_inv text_blocks ch s p Hsc) as (Hfields & Hscore & _).
  split; [done|]. exists s. split; [done|exact Hfields].
Qed.

(** X20. The score of an entry is explained by its reasons: it is the sum
    of the points of the reasons listed (font 2, size 2, colour 3, margin
    2, short text 1, smaller or larger text 1), no reason is listed
    twice, and "different font", "different size", "different color" and
    "in margin" are listed exactly when the entry's font differs from the
    main font, its size differs from the main size by more than 2, its
    colour differs from the main colour, and it lies in a margin. *)
Theorem potential_score_explained
    (text_blocks : Ocr.text_dict) (ch : Ocr.characteristics) (p : Ocr.potential) :
  p ∈ Ocr.find_potential_annotation_text text_blocks ch ->
  Ocr.p_score p = OcrMore.sum_points (Ocr.p_reasons p)
  /\ NoDup (Ocr.p_reasons p)
  /\ (Ocr.p_font p <> Ocr.main_font ch <-> "different font" ∈ Ocr.p_reasons p)
  /\ ((Qc_of_Z 2 < Qcabs (Ocr.p_size p - Ocr.main_size ch))%Qc
      <-> "different size" ∈ Ocr.p_reasons p)
  /\ (Ocr.p_color p <> Ocr.main_color ch <-> "different color" ∈ Ocr.p_reasons p)
  /\ (Ocr.p_in_margin p = true <-> "in margin" ∈ Ocr.p_reasons p).
Proof.
  intros Hp. apply OcrFacts.find_potential_elem in Hp as (s & Hs & Hsc).
  destruct (OcrInv.score_span_inv text_blocks ch s p Hsc)
    as ((_ & _ & Hfont & Hsize & Hcolor & _) & _ & Hsum & Hnd & Hf & Hz & Hc & Hm & _).
  rewrite Hfont, Hsize, Hcolor.
  split; [done|]. split; [done|]. split; [|split; [|split; [|done]]].
  - rewrite <- Hf, negb_true_iff. symmetry. apply String.eqb_neq.
  - rewrite <- Hz. symmetry. apply bool_decide_eq_true.
  - rewrite <- Hc, negb_true_iff. symmetry. apply Z.eqb_neq.
Qed.

Lemma potential_score_explained_witness :
  exists p,
    p ∈ Ocr.find_potential_annotation_text OcrSample.page_note
          (Ocr.analyze_text_characteristics OcrSample.round1 OcrSample.page_note)
    /\ Ocr.p_score p = OcrMore.sum_points (Ocr.p_reasons p)
    /\ NoDup (Ocr.p_reasons p).
Proof.
  assert (exists p,
            p ∈ Ocr.find_potential_annotation_text OcrSample.page_note
                  (Ocr.analyze_text_characteristics OcrSample.round1 OcrSample.page_note))
    as [p Hp].
  { destruct (Ocr.find_potential_annotation_text OcrSample.page_note
                (Ocr.analyze_text_characteristics OcrSample.round1 OcrSample.page_note))
      as [|p l] eqn:Hf; [vm_compute in Hf; discriminate Hf|].
    exists p. apply elem_of_cons. by left. }
  exists p. split; [exact Hp|].
  destruct (potential_score_explained OcrSample.page_note
              (Ocr.analyze_text_characteristics OcrSample.round1 OcrSample.page_note) p Hp)
    as (Hsum & Hnd & _).
  split; [exact Hsum|exact Hnd].
Defined.

(** X21. Text that looks like the body text is never reported: every entry
    of [find_potential_annotation_text] differs from the main font, or
    from the main size by more than 2, or from the main colour, or lies
    in a margin.  Being short, smaller or larger alone never reaches the
    threshold. *)
Theorem body_text_never_reported
    (text_blocks : Ocr.text_dict) (ch : Ocr.characteristics) (p : Ocr.potential) :
  p ∈ Ocr.find_potential_annotation_text text_blocks ch ->
  Ocr.p_font p <> Ocr.main_font ch
  \/ (Qc_of_Z 2 < Qcabs (Ocr.p_size p - Ocr.main_size ch))%Qc
  \/ Ocr.p_color p <> Ocr.main_color ch
  \/ Ocr.p_in_margin p = true.
Proof.
  intros Hp. apply OcrFacts.find_potential_elem in Hp as (s & Hs & Hsc).
  destruct (OcrInv.score_span_inv text_blocks ch s p Hsc)
    as ((_ & _ & Hfont & Hsize & Hcolor & _) & _ & _ & _ & _ & _ & _ & _ & Hany).
  rewrite Hfont, Hsize, Hcolor.
  destruct Hany as [H|[H|[H|H]]].
  - left. apply negb_true_iff, String.eqb_neq in H. done.
  - right; left. by apply bool_decide_eq_true in H.
  - right; right; left. apply negb_true_iff, Z.eqb_neq in H. done.
  - by right; right; right.
Qed.

Lemma body_text_never_reported_witness :
  exists p,
    p ∈ Ocr.find_potential_annotation_text OcrSample.page_note
          (Ocr.analyze_text_characteristics OcrSample.round1 OcrSample.page_note)
    /\ (Ocr.p_font p
          <> Ocr.main_font (Ocr.analyze_text_characteristics OcrSample.round1 OcrSample.page_note)
        \/ (Qc_of_Z 2
            < Qcabs (Ocr.p_size p
                     - Ocr.main_size (Ocr.analyze_text_characteristics OcrSample.round1
                                        OcrSample.page_note)))%Qc
        \/ Ocr.p_color p
             <> Ocr.main_color (Ocr.analyze_text_characteristics OcrSample.round1
                                  OcrSample.page_note)
        \/ Ocr.p_in_margin p = true).
Proof.
  assert (exists p,
            p ∈ Ocr.find_potential_annotation_text OcrSample.page_note
                  (Ocr.analyze_text_characteristics OcrSample.round1 OcrSample.page_note))
    as [p Hp].
  { destruct (Ocr.find_potential_annotation_text OcrSample.page_note
                (Ocr.analyze_text_characteristics OcrSample.round1 OcrSample.page_note))
      as [|p l] eqn:Hf; [vm_compute in Hf; discriminate Hf|].
    exists p. apply elem_of_cons. by left. }
  exists p. split; [exact Hp|].
  exact (body_text_never_reported OcrSample.page_note
           (Ocr.analyze_text_characteristics OcrSample.round1 OcrSample.page_note) p Hp).
Defined.

(** X22. The three dictionaries [analyze_text_characteristics] returns are
    exact counts: [all_fonts], [all_sizes] and [all_colors] hold every
    font, rounded size and colour of the page's spans once, each with the
    number of spans that have it. *)
Theorem characteristics_counts_exact
    (round1 : Qc -> Qc) (text_blocks : Ocr.text_dict) :
  let ch := Ocr.analyze_text_characteristics round1 text_blocks in
  let sp := Ocr.all_spans text_blocks in
  (NoDup (Ocr.all_fonts ch).*1
   /\ forall f n, (f, n) ∈ Ocr.all_fonts ch
                  <-> n = Counter.occ f (Ocr.font <$> sp) /\ (0 < n)%nat)
  /\ (NoDup (Ocr.all_sizes ch).*1
      /\ forall z n, (z, n) ∈ Ocr.all_sizes ch
                     <-> n = Counter.occ z ((fun s => round1 (Ocr.size s)) <$> sp)
                         /\ (0 < n)%nat)
  /\ (NoDup (Ocr.all_colors ch).*1
      /\ forall c n, (c, n) ∈ Ocr.all_colors ch
                     <-> n = Counter.occ c (Ocr.span_color <$> sp) /\ (0 < n)%nat).
Proof.
  intros ch sp. subst ch sp. unfold Ocr.analyze_text_characteristics.
  cbn [Ocr.all_fonts Ocr.all_sizes Ocr.all_colors].
  split; [|split].
  - apply (CounterMore.counted_entries Ocr.font).
  - apply (CounterMore.counted_entries (fun s => round1 (Ocr.size s))).
  - apply (CounterMore.counted_entries Ocr.span_color).
Qed.

(** X23. [detect_annotation_text] returns [False] for a path that does not
    exist, after the existence test alone.  For a PDF it opens the file
    once for the page count and once more for every page, reads the text
    of every page in order, and returns [True] exactly when some page has
    a potential annotation text. *)
Theorem detect_annotation_text_result
    (round1 : Qc -> Qc) (fs : gmap string (list Ocr.text_dict)) (pdf_path : string) :
  (fs !! pdf_path = None ->
     Ocr.detect_annotation_text round1 fs pdf_path = ([Ocr.EvExists pdf_path], false))
  /\ (forall doc, fs !! pdf_path = Some doc ->
        (Ocr.detect_annotation_text round1 fs pdf_path).1
        = ([Ocr.EvExists pdf_path; Ocr.EvOpen pdf_path; Ocr.EvClose]
           ++ flat_map (fun page_num =>
                          [Ocr.EvOpen pdf_path; Ocr.EvLoadPage page_num;
                           Ocr.EvGetText; Ocr.EvClose])
                       (seq 0 (length doc)))%list
        /\ ((Ocr.detect_annotation_text round1 fs pdf_path).2 = true
            <-> exists tb, tb ∈ doc
                  /\ Ocr.find_potential_annotation_text tb
                       (Ocr.analyze_text_characteristics round1 tb) <> [])).
Proof.
  unfold Ocr.detect_annotation_text. split.
  - by intros ->.
  - intros doc Hfs. rewrite Hfs.
    pose proof (OcrDetect.detect_pages_all round1 fs pdf_path [] doc Hfs) as Hd.
    change (length ([] : list Ocr.text_dict)) with 0%nat in Hd. rewrite Hd.
    cbn [fst snd]. split; [done|].
    rewrite bool_decide_eq_true. apply OcrDetect.found_positive.
Qed.

(** X24. Extraction and copying fit together: for an annotation that has
    been extracted, [_copy_single_annotation] first creates an annotation
    of the source's numeric type on the source's rectangle, then sets the
    source's content and flags, and ends with [update]; font size and
    font name are set exactly for the text types ("text", "freetext" in
    any case), with 12 and "Helvetica" when the source has none. *)
Theorem copy_calls_of_extracted (a : Fitz.annot) :
  let d := CopyExtract._extract_annotation_data a (Fitz.type a).2 in
  (exists middle,
      CopyApply.copy_calls d
      = ([CopyApply.AddAnnotation (Fitz.type a).1 (Fitz.arect a);
          CopyApply.SetContent (Fitz.content a);
          CopyApply.SetFlags (Fitz.flags a)] ++ middle ++ [CopyApply.Update])%list)
  /\ (CopyExtract.is_text_type (Fitz.type a).2 = true ->
        CopyApply.SetFontsize (default 12%Q (Fitz.fontsize a)) ∈ CopyApply.copy_calls d
        /\ CopyApply.SetFontname (default "Helvetica" (Fitz.fontname a))
             ∈ CopyApply.copy_calls d)
  /\ (CopyExtract.is_text_type (Fitz.type a).2 = false ->
        forall c, c ∈ CopyApply.copy_calls d -> CopyCalls.is_font_call c = false).
Proof.
  intros d. subst d. unfold CopyApply.copy_calls, CopyExtract._extract_annotation_data.
  cbn [CopyExtract.d_type CopyExtract.d_content CopyExtract.d_rect CopyExtract.d_flags
       CopyExtract.d_colors CopyExtract.d_border CopyExtract.d_line_ends
       CopyExtract.d_opacity CopyExtract.d_author CopyExtract.d_subject
       CopyExtract.d_fontsize CopyExtract.d_fontname CopyExtract.d_text_color snd].
  set (colour_calls := match Fitz.colors a with [] => [] | _ => _ end).
  set (border_calls := match Fitz.border a with [] => [] | _ => _ end).
  set (line_calls := match Fitz.line_ends a with Some _ => _ | None => [] end).
  assert (forall c, c ∈ colour_calls -> CopyCalls.is_font_call c = false) as Hcol.
  { subst colour_calls. destruct (Fitz.colors a) as [|x l]; [by intros c Hc; apply elem_of_nil in Hc|].
    intros c Hc. apply elem_of_app in Hc as [Hc|Hc];
      [destruct (CopyApply.assoc_mem _ "stroke")|destruct (CopyApply.assoc_mem _ "fill")];
      apply list_elem_of_In in Hc; cbn in Hc; intuition (subst; done). }
  assert (forall c, c ∈ border_calls -> CopyCalls.is_font_call c = false) as Hbor.
  { subst border_calls. destruct (Fitz.border a); intros c Hc;
      apply list_elem_of_In in Hc; cbn in Hc; intuition (subst; done). }
  assert (forall c, c ∈ line_calls -> CopyCalls.is_font_call c = false) as Hlin.
  { subst line_calls. destruct (Fitz.line_ends a) as [[x y]|]; intros c Hc;
      apply list_elem_of_In in Hc; cbn in Hc; intuition (subst; done). }
  destruct (CopyExtract.is_text_type (Fitz.type a).2) eqn:Ht.
  - split; [|split; [|done]].
    + apply CopyCalls.middle_exists.
    + intros _. split.
      * rewrite !elem_of_app. right. right. right. right. right. left.
        apply elem_of_cons. by left.
      * rewrite !elem_of_app. right. right. right. right. right. left.
        apply elem_of_cons. right. cbn. apply elem_of_cons. by left.
  - split; [|split; [done|]].
    + apply CopyCalls.middle_exists.
    + intros _ c Hc. rewrite !elem_of_app in Hc.
      destruct Hc as [Hc|[Hc|[Hc|[Hc|[Hc|[Hc|Hc]]]]]]; auto;
        apply list_elem_of_In in Hc; cbn in Hc; intuition (subst; done).
Qed.

(** X25. [_copy_single_annotation] does not roll back: it returns [True]
    exactly when every library call succeeds, and when it returns [False]
    the page is left as the calls before the first failing one made it, so
    an annotation that was created and then could not be completed stays
    on the page. *)
Theorem copy_single_annotation_no_rollback
    (call : CopyApply.lib_call -> Fitz.page -> result Fitz.page)
    (pg pg' : Fitz.page) (annot_data : CopyExtract.annot_data) :
  (CopyApply._copy_single_annotation call pg annot_data = (pg', true)
   <-> CopyCalls.apply_calls call (CopyApply.copy_calls annot_data) pg = Ok pg')
  /\ (CopyApply._copy_single_annotation call pg annot_data = (pg', false) ->
        exists done_ failing rest e,
          CopyApply.copy_calls annot_data = (done_ ++ failing :: rest)%list
          /\ CopyCalls.apply_calls call done_ pg = Ok pg'
          /\ call failing pg' = Raise e).
Proof.
  unfold CopyApply._copy_single_annotation. split.
  - apply CopyCalls.run_calls_true.
  - apply CopyCalls.run_calls_false.
Qed.
